(** * GigaScape integration of SuperSplat: a shallow embedding

    The development follows [src/gigascape-integration.ts].  The module reads
    a session configuration from the page URL, serialises the visible splats
    of the scene and drives a three-request upload (signed URL, PUT of the
    bytes, confirmation), reporting through the host's event bus.

    Layout: JavaScript values and exceptions; the URL query; the browser
    and host interfaces the module calls; the effect monad (a history of
    observable events, exceptions as outcomes); the module's functions, one
    definition per source function; reference models of the platform
    codecs; what is observed of a run; example hosts; then the theorems. *)

From Stdlib Require Import String Ascii List Bool NArith ZArith Lia.
From Stdlib Require Import SpecFloat DecimalString.
Import ListNotations.

Open Scope string_scope.

#[local] Set Warnings "-register-all".

(** ** JavaScript values *)

Module JS.

(** The values the module handles at run time: what [JSON.parse] and
    [Response.json] produce, plus [undefined].  A number is an IEEE-754
    binary64, a string a sequence of one-byte code units, an object its own
    properties in creation order. *)
Inductive JSValue : Type :=
| JUndefined
| JNull
| JBool (b : bool)
| JNum (n : spec_float)
| JStr (s : string)
| JArr (items : list JSValue)
| JObj (props : list (string * JSValue)).

(** A thrown value: an [Error] object (also [TypeError], [SyntaxError],
    [DOMException]) with its name and message, or any other value. *)
Inductive Thrown : Type :=
| ThrowError (name message : string)
| ThrowValue (v : JSValue).

(** How a call ends: normally with a value, or abruptly (a [throw], a
    rejected promise under [await]). *)
Inductive Outcome (A : Type) : Type :=
| Returned (a : A)
| Raised (e : Thrown).

Arguments Returned {A} a.
Arguments Raised {A} e.

(** [new Error(message)] *)
Definition new_Error (message : string) : Thrown := ThrowError "Error" message.

(** ToBoolean *)
Definition truthy (v : JSValue) : bool :=
  match v with
  | JUndefined | JNull => false
  | JBool b => b
  | JNum (S754_zero _) | JNum S754_nan => false
  | JNum _ => true
  | JStr s => negb (s =? "")
  | JArr _ | JObj _ => true
  end.

Fixpoint assoc {A : Type} (k : string) (l : list (string * A)) : option A :=
  match l with
  | [] => None
  | (k', v) :: rest => if k' =? k then Some v else assoc k rest
  end.

(** The engine's wording of the TypeError raised when a property of
    [null] or [undefined] is read (V8's; no property of the module depends
    on the text). *)
Definition nullish_read_error (v : JSValue) (key : string) : Thrown :=
  ThrowError "TypeError"
    ("Cannot read properties of "
       ++ (match v with JNull => "null" | _ => "undefined" end)
       ++ " (reading '" ++ key ++ "')").

(** [v.key], for a key that no built-in prototype defines (the module reads
    splatId, apiOrigin, authToken, error, uploadUrl, storagePath and
    message): the own property of an object, [undefined] on every other
    value, a TypeError on [null] and [undefined]. *)
Definition get_prop (v : JSValue) (key : string) : Outcome JSValue :=
  match v with
  | JUndefined | JNull => Raised (nullish_read_error v key)
  | JObj props =>
      match assoc key props with
      | Some x => Returned x
      | None => Returned JUndefined
      end
  | _ => Returned JUndefined
  end.

(** [error.message] in a catch clause. *)
Definition thrown_message (e : Thrown) : Outcome JSValue :=
  match e with
  | ThrowError _ message => Returned (JStr message)
  | ThrowValue v => get_prop v "message"
  end.

Fixpoint join (sep : string) (l : list string) : string :=
  match l with
  | [] => ""
  | [s] => s
  | s :: rest => s ++ sep ++ join sep rest
  end.

Section ToString.

(** Number::toString, shortest round-tripping decimal: left to the engine. *)
Variable Number_toString : spec_float -> string.

(** ToString, as a template literal and [new Error(v)] apply it. *)
Fixpoint ToString (v : JSValue) : string :=
  match v with
  | JUndefined => "undefined"
  | JNull => "null"
  | JBool true => "true"
  | JBool false => "false"
  | JNum n => Number_toString n
  | JStr s => s
  | JArr items =>
      join ","
        (map (fun x => match x with
                       | JUndefined | JNull => ""
                       | _ => ToString x
                       end) items)
  | JObj _ => "[object Object]"
  end.

End ToString.

(** The Number of a non-negative integer (exact below 2^53). *)
Definition Number_of_N (n : N) : spec_float :=
  binary_normalize 53 1024 (Z.of_N n) 0 false.

(** Decimal digits of a non-negative integer, as ToString prints an
    integral Number. *)
Definition dec (n : N) : string := NilZero.string_of_uint (N.to_uint n).

(** [(bytes / 1024 / 1024).toFixed(1)]: both divisions are exact in
    binary64, and toFixed(1) takes the integer k nearest to ten times the
    value, the larger one on a tie, printed with one fractional digit. *)
Definition toFixed1_MiB (bytes : N) : string :=
  let k := ((20 * bytes + 1048576) / 2097152)%N in
  dec (k / 10)%N ++ "." ++ dec (k mod 10)%N.

End JS.

Import JS.

(** ** The URL query *)

Module URL.

(** [URLSearchParams]: the list of name-value pairs, in order. *)
Definition URLSearchParams : Type := list (string * string).

Fixpoint split_on (sep : ascii) (s : string) : list string :=
  match s with
  | EmptyString => [EmptyString]
  | String c rest =>
      if Ascii.eqb c sep then EmptyString :: split_on sep rest
      else match split_on sep rest with
           | [] => [String c EmptyString]
           | piece :: pieces => String c piece :: pieces
           end
  end.

(** [cut_at sep s]: [s] up to its first [sep] and what follows it; the
    whole of [s] and the empty string when [sep] does not occur. *)
Fixpoint cut_at (sep : ascii) (s : string) : string * string :=
  match s with
  | EmptyString => (EmptyString, EmptyString)
  | String c rest =>
      if Ascii.eqb c sep then (EmptyString, rest)
      else let (name, value) := cut_at sep rest in (String c name, value)
  end.

Fixpoint plus_to_space (s : string) : string :=
  match s with
  | EmptyString => EmptyString
  | String c rest =>
      String (if Ascii.eqb c "+" then " "%char else c) (plus_to_space rest)
  end.

Definition hex_digit (c : ascii) : option N :=
  let n := N_of_ascii c in
  if ((48 <=? n) && (n <=? 57))%N then Some (n - 48)%N
  else if ((65 <=? n) && (n <=? 70))%N then Some (n - 55)%N
  else if ((97 <=? n) && (n <=? 102))%N then Some (n - 87)%N
  else None.

Fixpoint percent_decode (s : string) : string :=
  match s with
  | EmptyString => EmptyString
  | String c rest =>
      if Ascii.eqb c "%" then
        match rest with
        | String h (String l rest') =>
            match hex_digit h, hex_digit l with
            | Some a, Some b =>
                String (ascii_of_N (16 * a + b)) (percent_decode rest')
            | _, _ => String c (percent_decode rest)
            end
        | _ => String c (percent_decode rest)
        end
      else String c (percent_decode rest)
  end.

(** The application/x-www-form-urlencoded parser on the bytes of the query.
    The standard's last step decodes each name and value from UTF-8; the
    bytes are kept here, which the module cannot tell apart: it compares a
    name with the ASCII key gsConfig and hands the value to [atob]. *)
Definition parse_urlencoded (input : string) : URLSearchParams :=
  flat_map
    (fun piece =>
       match piece with
       | EmptyString => []
       | _ =>
           let (name, value) := cut_at "=" piece in
           [(percent_decode (plus_to_space name),
             percent_decode (plus_to_space value))]
       end)
    (split_on "&" input).

(** [new URLSearchParams(init)] for a string: one leading ? is dropped. *)
Definition URLSearchParams_new (init : string) : URLSearchParams :=
  match init with
  | String "?" rest => parse_urlencoded rest
  | _ => parse_urlencoded init
  end.

(** [params.get(name)]: the value of the first pair named [name]. *)
Definition get (params : URLSearchParams) (name : string) : option string :=
  assoc name params.

(** [params.has(name)] *)
Definition has (params : URLSearchParams) (name : string) : bool :=
  existsb (fun p => fst p =? name) params.

(** Percent-encoding as the page that opens the editor applies it to a
    parameter value, [encodeURIComponent]: letters, digits and
    - _ . ! ~ * ' ( ) stay, every other byte becomes % and two hexadecimal
    digits. *)
Definition is_unreserved (c : ascii) : bool :=
  let n := N_of_ascii c in
  (((65 <=? n) && (n <=? 90)) || ((97 <=? n) && (n <=? 122))
   || ((48 <=? n) && (n <=? 57))
   || (n =? 45) || (n =? 95) || (n =? 46) || (n =? 33) || (n =? 126)
   || (n =? 42) || (n =? 39) || (n =? 40) || (n =? 41))%N.

Definition upper_hex (n : N) : ascii :=
  if (n <? 10)%N then ascii_of_N (48 + n) else ascii_of_N (55 + n).

Definition encode_byte (c : ascii) : string :=
  if is_unreserved c then String c EmptyString
  else
    let n := N_of_ascii c in
    String "%" (String (upper_hex (n / 16)) (String (upper_hex (n mod 16)) EmptyString)).

Fixpoint encodeURIComponent (s : string) : string :=
  match s with
  | EmptyString => EmptyString
  | String c rest => encode_byte c ++ encodeURIComponent rest
  end.

End URL.

(** ** Browser and host interfaces *)

(** A typed array: a view of [byteLength] bytes at [byteOffset] into its
    underlying [buffer]. *)
Record Uint8Array : Type := {
  buffer : list Byte.byte;
  byteOffset : N;
  byteLength : N
}.

(** Modelled from the spec: the host's splat element (./splat is not part
    of the sources), "typed elements with visible and numSplats-equivalent
    fields". *)
Record Splat : Type := {
  splat_name : string;
  visible : bool;
  numSplats : N
}.

(** Modelled from the spec: the host's scene (./scene and ./element are not
    part of the sources) as its elements, each a point-cloud splat or an
    element of another kind. *)
Inductive Element : Type :=
| SplatElement (s : Splat)
| OtherElement (kind : string).

Record Scene : Type := { elements : list Element }.

(** Modelled from the spec: [scene.getElementsByType(ElementType.splat) as
    Splat[]], "a scene query returning typed elements". *)
Definition getElementsByType_splat (scene : Scene) : list Splat :=
  flat_map (fun e => match e with
                     | SplatElement s => [s]
                     | OtherElement _ => []
                     end) (elements scene).

Record SerializeSettings : Type := { maxSHBands : N }.

(** [MemoryFileSystem] of the serializer library: [results] is a Map from
    file name to its bytes. *)
Record MemoryFileSystem : Type := { results : list (string * Uint8Array) }.

Definition MemoryFileSystem_new : MemoryFileSystem := {| results := [] |}.

Inductive Body : Type :=
| BodyText (text : string)
| BodyBlob (bytes : list Byte.byte) (content_type : string).

(** [fetch(url, { method, headers, body })] *)
Record Request : Type := {
  url : string;
  method : string;
  headers : list (string * string);
  body : Body
}.

(** A [Response]: its status, and what [res.json()] resolves to or rejects
    with. *)
Record Response : Type := {
  status : N;
  json : Outcome JSValue
}.

(** [res.ok]: the status is in the range 200-299. *)
Definition ok (res : Response) : bool :=
  ((200 <=? status res) && (status res <=? 299))%N.

(** The payload of [events.invoke('showPopup', ...)]. *)
Record Popup : Type := {
  type : string;
  header : string;
  message : JSValue
}.

Inductive ConsoleLevel : Type := Log | Warn | Error.

Inductive LogArg : Type :=
| LStr (s : string)
| LVal (v : JSValue)
| LThrown (e : Thrown).

(** What an observer of one run sees, in order; a call into the host or
    the network is recorded with how it ended. *)
Inductive Event : Type :=
| EvFire (name : string)
| EvConsole (level : ConsoleLevel) (args : list LogArg)
| EvSerialize (splats : list Splat) (settings : SerializeSettings)
    (result : Outcome MemoryFileSystem)
| EvFetch (req : Request) (result : Outcome Response)
| EvInvoke (name : string) (payload : Popup) (result : Outcome JSValue).

(** Everything outside the module: the built-ins it calls and the host and
    network it talks to.  The serializer, [fetch] and [events.invoke]
    answer as a function of all that happened before the call. *)
Record Host : Type := {
  atob : string -> Outcome string;
  JSON_parse : string -> Outcome JSValue;
  JSON_stringify : JSValue -> string;
  Number_toString : spec_float -> string;
  serializePly : list Event -> list Splat -> SerializeSettings ->
                 MemoryFileSystem -> Outcome MemoryFileSystem;
  fetch : list Event -> Request -> Outcome Response;
  invoke : list Event -> string -> Popup -> Outcome JSValue
}.

(** ** The effect monad

    A computation reads the history of the run so far and yields its
    outcome with the events it added.  [await] is sequencing: a rejected
    promise is a raised outcome. *)

Definition M (A : Type) : Type := list Event -> Outcome A * list Event.

Definition ret {A : Type} (a : A) : M A := fun _ => (Returned a, []).

Definition throw {A : Type} (e : Thrown) : M A := fun _ => (Raised e, []).

Definition lift {A : Type} (o : Outcome A) : M A := fun _ => (o, []).

Definition bind {A B : Type} (m : M A) (f : A -> M B) : M B :=
  fun h =>
    let (o, d1) := m h in
    match o with
    | Returned a => let (o', d2) := f a (h ++ d1)%list in (o', (d1 ++ d2)%list)
    | Raised e => (Raised e, d1)
    end.

Definition emit (ev : Event) : M unit := fun _ => (Returned tt, [ev]).

(** [try { m } catch (e) { handler e }] *)
Definition try_catch {A : Type} (m : M A) (handler : Thrown -> M A) : M A :=
  fun h =>
    let (o, d1) := m h in
    match o with
    | Returned a => (Returned a, d1)
    | Raised e => let (o', d2) := handler e (h ++ d1)%list in (o', (d1 ++ d2)%list)
    end.

(** [try { m } finally { fin }]: [fin] always runs; when it completes
    normally the outcome is that of [m]. *)
Definition try_finally {A : Type} (m : M A) (fin : M unit) : M A :=
  fun h =>
    let (o, d1) := m h in
    let (o', d2) := fin (h ++ d1)%list in
    (match o' with
     | Returned _ => o
     | Raised e => Raised e
     end, (d1 ++ d2)%list).

Declare Scope js_scope.
Delimit Scope js_scope with js.

Notation "x <- c1 ;; c2" := (bind c1 (fun x => c2))
  (at level 61, c1 at next level, right associativity) : js_scope.
Notation "c1 ;; c2" := (bind c1 (fun _ => c2))
  (at level 61, right associativity) : js_scope.

Open Scope js_scope.

(** [events.fire(name)].  The listeners of the bus are the host's; the call
    is taken to return. *)
Definition events_fire (name : string) : M unit := emit (EvFire name).

Definition console_log (args : list LogArg) : M unit := emit (EvConsole Log args).
Definition console_warn (args : list LogArg) : M unit := emit (EvConsole Warn args).
Definition console_error (args : list LogArg) : M unit := emit (EvConsole Error args).

(** ** The module: src/gigascape-integration.ts *)

Section Integration.

Variable host : Host.

(** Calls out of the module; each is recorded with its result. *)

Definition call_serializePly (splats : list Splat) (settings : SerializeSettings)
  (memFs : MemoryFileSystem) : M MemoryFileSystem :=
  fun h =>
    let r := serializePly host h splats settings memFs in
    (r, [EvSerialize splats settings r]).

Definition call_fetch (req : Request) : M Response :=
  fun h => let r := fetch host h req in (r, [EvFetch req r]).

Definition events_invoke (name : string) (payload : Popup) : M JSValue :=
  fun h => let r := invoke host h name payload in (r, [EvInvoke name payload r]).

(** A template literal's [${v}], and the message of [new Error(v)]. *)
Definition str (v : JSValue) : string := ToString (Number_toString host) v.

(** [parseGsConfig]: the value of the gsConfig parameter of
    [window.location.search], decoded and validated.  [!encoded] holds of
    an absent parameter and of an empty value. *)
Definition parseGsConfig (search : string) : M (option JSValue) :=
  let params := URL.URLSearchParams_new search in
  let encoded := URL.get params "gsConfig" in
  match encoded with
  | None => ret None
  | Some encoded =>
      if encoded =? "" then ret None
      else
        try_catch
          (json <- lift (atob host encoded) ;;
           config <- lift (JSON_parse host json) ;;
           missing <-
             (splatId <- lift (get_prop config "splatId") ;;
              if negb (truthy splatId) then ret true
              else
                apiOrigin <- lift (get_prop config "apiOrigin") ;;
                if negb (truthy apiOrigin) then ret true
                else
                  authToken <- lift (get_prop config "authToken") ;;
                  ret (negb (truthy authToken))) ;;
           if (missing : bool) then
             console_warn [LStr "[GigaScape] gsConfig missing required fields"] ;;
             ret None
           else ret (Some config))
          (fun e =>
             console_warn [LStr "[GigaScape] Failed to parse gsConfig:"; LThrown e] ;;
             ret None)
  end.

(** [isGigaScapeMode] *)
Definition isGigaScapeMode (search : string) : bool :=
  URL.has (URL.URLSearchParams_new search) "gsConfig".

(** [serializeSceneToPly] *)
Definition serializeSceneToPly (scene : Scene) : M Uint8Array :=
  let splats :=
    filter (fun splat => (0 <? numSplats splat)%N)
      (filter (fun splat => visible splat) (getElementsByType_splat scene)) in
  if (length splats =? 0)%nat then throw (new_Error "No splats to save")
  else
    let memFs := MemoryFileSystem_new in
    let settings := {| maxSHBands := 3 |} in
    memFs <- call_serializePly splats settings memFs ;;
    match assoc "output.ply" (results memFs) with
    | None => throw (new_Error "PLY serialization produced no output")
    | Some data => ret data
    end.

(** The module-level [let gsConfig: GsConfig | null], as the requests read
    it; [gsConfig!.key] is a plain property read at run time. *)
Variable gsConfig : option JSValue.

Definition gsConfig_prop (key : string) : M JSValue :=
  lift (get_prop (match gsConfig with Some c => c | None => JNull end) key).

(** [await res.json().catch(() => ({ error: `HTTP ${res.status}` }))] *)
Definition json_or_http_error (res : Response) : JSValue :=
  match json res with
  | Returned v => v
  | Raised _ => JObj [("error", JStr ("HTTP " ++ dec (status res)))]
  end.

(** [a || b] on values *)
Definition or_else (a b : JSValue) : JSValue := if truthy a then a else b.

(** [getUploadUrl] *)
Definition getUploadUrl (fileSize : N) : M JSValue :=
  apiOrigin <- gsConfig_prop "apiOrigin" ;;
  authToken <- gsConfig_prop "authToken" ;;
  splatId <- gsConfig_prop "splatId" ;;
  res <- call_fetch
    {| url := str apiOrigin ++ "/api/supersplat/upload-url";
       method := "POST";
       headers := [("Authorization", "Bearer " ++ str authToken);
                   ("Content-Type", "application/json")];
       body := BodyText
                 (JSON_stringify host
                    (JObj [("splatId", splatId);
                           ("fileSize", JNum (Number_of_N fileSize))])) |} ;;
  if negb (ok res) then
    let err := json_or_http_error res in
    error <- lift (get_prop err "error") ;;
    throw (new_Error
             (str (or_else error
                     (JStr ("Failed to get upload URL (" ++ dec (status res) ++ ")")))))
  else lift (json res).

(** [uploadToGcs]; the Blob is built from [data.buffer]. *)
Definition uploadToGcs (uploadUrl : JSValue) (data : Uint8Array) : M unit :=
  res <- call_fetch
    {| url := str uploadUrl;
       method := "PUT";
       headers := [("Content-Type", "application/octet-stream")];
       body := BodyBlob (buffer data) "application/octet-stream" |} ;;
  if negb (ok res) then
    throw (new_Error ("Upload to GCS failed (" ++ dec (status res) ++ ")"))
  else ret tt.

(** [notifySaveComplete] *)
Definition notifySaveComplete (storagePath : JSValue) : M unit :=
  apiOrigin <- gsConfig_prop "apiOrigin" ;;
  authToken <- gsConfig_prop "authToken" ;;
  splatId <- gsConfig_prop "splatId" ;;
  res <- call_fetch
    {| url := str apiOrigin ++ "/api/supersplat/save-complete";
       method := "POST";
       headers := [("Authorization", "Bearer " ++ str authToken);
                   ("Content-Type", "application/json")];
       body := BodyText
                 (JSON_stringify host
                    (JObj [("splatId", splatId);
                           ("storagePath", storagePath)])) |} ;;
  if negb (ok res) then
    let err := json_or_http_error res in
    error <- lift (get_prop err "error") ;;
    throw (new_Error
             (str (or_else error
                     (JStr ("Save notification failed (" ++ dec (status res) ++ ")")))))
  else ret tt.

Definition success_popup : Popup :=
  {| type := "info";
     header := "Saved to GigaScape";
     message := JStr "Your edited splat has been saved. Return to your library to create tiles." |}.

Definition error_popup (message : JSValue) : Popup :=
  {| type := "error";
     header := "Save Failed";
     message := message |}.

(** The [try] block of the save handler. *)
Definition save_try (scene : Scene) : M unit :=
  (* 1. Serialize scene to PLY *)
  plyData <- serializeSceneToPly scene ;;
  console_log [LStr ("[GigaScape] Serialized PLY: "
                       ++ toFixed1_MiB (byteLength plyData) ++ " MB")] ;;
  (* 2. Get signed upload URL *)
  ticket <- getUploadUrl (byteLength plyData) ;;
  uploadUrl <- lift (get_prop ticket "uploadUrl") ;;
  storagePath <- lift (get_prop ticket "storagePath") ;;
  console_log [LStr ("[GigaScape] Got upload URL, path: " ++ str storagePath)] ;;
  (* 3. Upload directly to GCS *)
  uploadToGcs uploadUrl plyData ;;
  console_log [LStr "[GigaScape] Upload complete"] ;;
  (* 4. Notify GigaScape *)
  notifySaveComplete storagePath ;;
  console_log [LStr "[GigaScape] Save complete"] ;;
  (* Show success *)
  events_invoke "showPopup" success_popup ;;
  ret tt.

(** Its [catch (error)] block. *)
Definition save_catch (error : Thrown) : M unit :=
  console_error [LStr "[GigaScape] Save failed:"; LThrown error] ;;
  message <- lift (thrown_message error) ;;
  events_invoke "showPopup"
    (error_popup
       (or_else message (JStr "Unknown error while saving to GigaScape"))) ;;
  ret tt.

(** The handler registered for gigascape:save, run on the scene as it is
    when the action is invoked; [finally] fires stopSpinner. *)
Definition save_handler (scene : Scene) : M unit :=
  events_fire "startSpinner" ;;
  try_finally
    (try_catch (save_try scene) save_catch)
    (events_fire "stopSpinner").

End Integration.

(** What [initGigaScapeIntegration] leaves behind: the module-level
    [gsConfig] and the functions registered on the bus, by name. *)
Record Registered : Type := {
  module_gsConfig : option JSValue;
  functions : list (string * (Scene -> M unit))
}.

(** [initGigaScapeIntegration]; the scene it closes over is read when the
    handler runs. *)
Definition initGigaScapeIntegration (host : Host) (search : string) : M Registered :=
  gsConfig <- parseGsConfig host search ;;
  match gsConfig with
  | None => ret {| module_gsConfig := None; functions := [] |}
  | Some config =>
      splatId <- lift (get_prop config "splatId") ;;
      console_log [LStr "[GigaScape] Integration active for splat:"; LVal splatId] ;;
      ret {| module_gsConfig := Some config;
             functions := [("gigascape:save", save_handler host (Some config))] |}
  end.

(** ** Reference models of the platform codecs

    [atob]/[btoa] after the HTML standard's forgiving-base64 decode and
    base64 encode, [JSON.parse]/[JSON.stringify] after ECMA-404 and
    ECMA-262.  The resolver's fail-soft and validation properties are
    proved for every [atob] and [JSON.parse]; these models serve the round
    trip and the concrete scenarios. *)

Module Base64.

(** The base64 alphabet: A-Z, a-z, 0-9, + and /. *)
Definition char_of_sextet (n : N) : ascii :=
  if (n <? 26)%N then ascii_of_N (65 + n)
  else if (n <? 52)%N then ascii_of_N (71 + n)
  else if (n <? 62)%N then ascii_of_N (n - 4)
  else if (n =? 62)%N then "+"%char
  else "/"%char.

Definition sextet_of_char (c : ascii) : option N :=
  let n := N_of_ascii c in
  if ((65 <=? n) && (n <=? 90))%N then Some (n - 65)%N
  else if ((97 <=? n) && (n <=? 122))%N then Some (n - 71)%N
  else if ((48 <=? n) && (n <=? 57))%N then Some (n + 4)%N
  else if (n =? 43)%N then Some 62%N
  else if (n =? 47)%N then Some 63%N
  else None.

(** The four sextets of three bytes, most significant first. *)
Definition sextets3 (a b c : N) : N * N * N * N :=
  let n := (a * 65536 + b * 256 + c)%N in
  ((n / 262144) mod 64, (n / 4096) mod 64, (n / 64) mod 64, n mod 64)%N.

(** The sextets of a byte sequence: four for each three bytes, three for a
    final two bytes, two for a final byte. *)
Fixpoint sextets_of_bytes (l : list N) : list N :=
  match l with
  | a :: b :: c :: rest =>
      let '(s1, s2, s3, s4) := sextets3 a b c in
      s1 :: s2 :: s3 :: s4 :: sextets_of_bytes rest
  | [a; b] =>
      let '(s1, s2, s3, _) := sextets3 a b 0 in [s1; s2; s3]
  | [a] =>
      let '(s1, s2, _, _) := sextets3 a 0 0 in [s1; s2]
  | [] => []
  end.

(** Base64 of a byte sequence without the = padding. *)
Definition encode_unpadded (l : list N) : list ascii :=
  map char_of_sextet (sextets_of_bytes l).

Definition padding (len : nat) : list ascii :=
  match (len mod 3)%nat with
  | 1%nat => ["="%char; "="%char]
  | 2%nat => ["="%char]
  | _ => []
  end.

Definition bytes_of_string (s : string) : list N :=
  map N_of_ascii (list_ascii_of_string s).

Definition string_of_bytes (l : list N) : string :=
  string_of_list_ascii (map ascii_of_N l).

(** [btoa]; every code unit of the string model is a byte, so the
    InvalidCharacterError of code units above 255 does not arise. *)
Definition btoa (s : string) : string :=
  let l := bytes_of_string s in
  string_of_list_ascii (encode_unpadded l ++ padding (length l)).

(** Tab, line feed, form feed, carriage return, space. *)
Definition is_ascii_whitespace (c : ascii) : bool :=
  let n := N_of_ascii c in
  ((n =? 9) || (n =? 10) || (n =? 12) || (n =? 13) || (n =? 32))%N.

(** "If data's length divides by 4 leaving no remainder: if data ends with
    one or two U+003D, remove them." *)
Definition strip_padding (data : list ascii) : list ascii :=
  if (length data mod 4 =? 0)%nat then
    match rev data with
    | "="%char :: "="%char :: r => rev r
    | "="%char :: r => rev r
    | _ => data
    end
  else data.

Fixpoint sextets_of_chars (data : list ascii) : option (list N) :=
  match data with
  | [] => Some []
  | c :: rest =>
      match sextet_of_char c, sextets_of_chars rest with
      | Some n, Some l => Some (n :: l)
      | _, _ => None
      end
  end.

(** Groups of four sextets give three bytes; of a final three, two bytes
    (the last two bits are discarded); of a final two, one byte (the last
    four bits are discarded). *)
Fixpoint decode_sextets (l : list N) : list N :=
  match l with
  | s1 :: s2 :: s3 :: s4 :: rest =>
      let n := (((s1 * 64 + s2) * 64 + s3) * 64 + s4)%N in
      (n / 65536)%N :: ((n / 256) mod 256)%N :: (n mod 256)%N
        :: decode_sextets rest
  | [s1; s2; s3] =>
      let n := ((((s1 * 64 + s2) * 64 + s3)) / 4)%N in
      [(n / 256)%N; (n mod 256)%N]
  | [s1; s2] =>
      let n := ((s1 * 64 + s2) / 16)%N in
      [n]
  | _ => []
  end.

(** Sequences of bytes and of sextets. *)
Definition bytes (l : list N) : Prop := Forall (fun b => (b < 256)%N) l.
Definition sextets (l : list N) : Prop := Forall (fun s => (s < 64)%N) l.

Definition InvalidCharacterError : Thrown :=
  ThrowError "InvalidCharacterError" "The string to be decoded is not correctly encoded.".

(** [atob]: forgiving-base64 decode. *)
Definition atob (s : string) : Outcome string :=
  let data := filter (fun c => negb (is_ascii_whitespace c)) (list_ascii_of_string s) in
  let data := strip_padding data in
  if (length data mod 4 =? 1)%nat then Raised InvalidCharacterError
  else
    match sextets_of_chars data with
    | None => Raised InvalidCharacterError
    | Some l => Returned (string_of_bytes (decode_sextets l))
    end.

End Base64.

Module Json.

(** *** JSON.stringify *)

(** The quotation mark, U+0022. *)
Definition dquote : ascii := ascii_of_N 34.

Definition hex_char (n : N) : ascii :=
  if (n <? 10)%N then ascii_of_N (48 + n) else ascii_of_N (87 + n).

(** QuoteJSONString on one code unit. *)
Definition escape_char (c : ascii) : string :=
  let n := N_of_ascii c in
  if (n =? 34)%N then String "\" (String dquote "")
  else if (n =? 92)%N then "\\"
  else if (n =? 8)%N then "\b"
  else if (n =? 12)%N then "\f"
  else if (n =? 10)%N then "\n"
  else if (n =? 13)%N then "\r"
  else if (n =? 9)%N then "\t"
  else if (n <? 32)%N then
    "\u00" ++ String (hex_char (n / 16)) (String (hex_char (n mod 16)) "")
  else String c "".

Fixpoint escape (s : string) : string :=
  match s with
  | EmptyString => EmptyString
  | String c rest => escape_char c ++ escape rest
  end.

Definition quote (s : string) : string :=
  String dquote (escape s ++ String dquote "").

Definition is_finite (n : spec_float) : bool :=
  match n with
  | S754_zero _ | S754_finite _ _ _ => true
  | _ => false
  end.

Section Stringify.

Variable Number_toString : spec_float -> string.

(** SerializeJSONProperty without replacer or indentation: an undefined
    property is skipped, an undefined array item is null, a number that is
    not finite is null.  ([JSON.stringify(undefined)] itself is not a
    string; the module only serializes object literals.) *)
Fixpoint stringify (v : JSValue) : string :=
  match v with
  | JUndefined => "undefined"
  | JNull => "null"
  | JBool true => "true"
  | JBool false => "false"
  | JNum n => if is_finite n then Number_toString n else "null"
  | JStr s => quote s
  | JArr items =>
      "[" ++ join ","
               (map (fun x => match x with
                              | JUndefined => "null"
                              | _ => stringify x
                              end) items) ++ "]"
  | JObj props =>
      "{" ++ join ","
               (flat_map (fun '(k, x) => match x with
                                         | JUndefined => []
                                         | _ => [quote k ++ ":" ++ stringify x]
                                         end) props) ++ "}"
  end.

End Stringify.

(** *** JSON.parse *)

Inductive PResult (A : Type) : Type :=
| POk (a : A) (rest : string)
| PSyntax
| PFuel.

Arguments POk {A} a rest.
Arguments PSyntax {A}.
Arguments PFuel {A}.

(** JSON whitespace: tab, line feed, carriage return, space. *)
Definition is_ws (c : ascii) : bool :=
  let n := N_of_ascii c in
  ((n =? 9) || (n =? 10) || (n =? 13) || (n =? 32))%N.

Fixpoint skip_ws (s : string) : string :=
  match s with
  | EmptyString => EmptyString
  | String c rest => if is_ws c then skip_ws rest else s
  end.

(** The character of a one-letter escape. *)
Definition unescape (e : ascii) : option ascii :=
  let n := N_of_ascii e in
  if (n =? 34)%N then Some dquote
  else if (n =? 92)%N then Some "\"%char
  else if (n =? 47)%N then Some "/"%char
  else if (n =? 98)%N then Some (ascii_of_N 8)
  else if (n =? 102)%N then Some (ascii_of_N 12)
  else if (n =? 110)%N then Some (ascii_of_N 10)
  else if (n =? 114)%N then Some (ascii_of_N 13)
  else if (n =? 116)%N then Some (ascii_of_N 9)
  else None.

(** A string after its opening quote: the characters up to the closing
    quote and what follows it.  A \u escape above 00FF has no code unit in
    the string model and is refused. *)
Fixpoint parse_chars (s : string) : option (string * string) :=
  match s with
  | EmptyString => None
  | String c rest =>
      if Ascii.eqb c dquote then Some (EmptyString, rest)
      else if Ascii.eqb c "\" then
        match rest with
        | String e rest1 =>
            if Ascii.eqb e "u" then
              match rest1 with
              | String h1 (String h2 (String h3 (String h4 rest2))) =>
                  match URL.hex_digit h1, URL.hex_digit h2,
                        URL.hex_digit h3, URL.hex_digit h4 with
                  | Some 0%N, Some 0%N, Some a, Some b =>
                      match parse_chars rest2 with
                      | Some (str, rest') =>
                          Some (String (ascii_of_N (16 * a + b)) str, rest')
                      | None => None
                      end
                  | _, _, _, _ => None
                  end
              | _ => None
              end
            else
              match unescape e with
              | Some c' =>
                  match parse_chars rest1 with
                  | Some (str, rest') => Some (String c' str, rest')
                  | None => None
                  end
              | None => None
              end
        | EmptyString => None
        end
      else if (N_of_ascii c <? 32)%N then None
      else
        match parse_chars rest with
        | Some (str, rest') => Some (String c str, rest')
        | None => None
        end
  end.

Definition is_digit (c : ascii) : bool :=
  let n := N_of_ascii c in ((48 <=? n) && (n <=? 57))%N.

(** The longest prefix of digits and what follows it. *)
Fixpoint span_digits (s : string) : string * string :=
  match s with
  | EmptyString => (EmptyString, EmptyString)
  | String c rest =>
      if is_digit c then let (ds, r) := span_digits rest in (String c ds, r)
      else (EmptyString, s)
  end.

(** A number literal: an optional minus sign; 0 or a non-zero digit and
    further digits; an optional fraction of a point and digits; an optional
    exponent of e or E, an optional sign and digits.  Returns the literal's
    text and what follows it. *)
Definition scan_number (s : string) : option (string * string) :=
  let (sign, s1) :=
    match s with
    | String "-" r => ("-", r)
    | _ => ("", s)
    end in
  let (int, s2) := span_digits s1 in
  match int with
  | EmptyString => None
  | String d ds =>
      if Ascii.eqb d "0" && negb (ds =? "") then None
      else
        let frac :=
          match s2 with
          | String "." r =>
              let (fs, r') := span_digits r in
              if fs =? "" then None else Some ("." ++ fs, r')
          | _ => Some ("", s2)
          end in
        match frac with
        | None => None
        | Some (ftext, s3) =>
            let exp :=
              match s3 with
              | String e r =>
                  if Ascii.eqb e "e" || Ascii.eqb e "E" then
                    let (esign, r1) :=
                      match r with
                      | String "+" r' => ("+", r')
                      | String "-" r' => ("-", r')
                      | _ => ("", r)
                      end in
                    let (es, r2) := span_digits r1 in
                    if es =? "" then None
                    else Some (String e (esign ++ es), r2)
                  else Some ("", s3)
              | EmptyString => Some ("", s3)
              end in
            match exp with
            | None => None
            | Some (etext, s4) => Some (sign ++ int ++ ftext ++ etext, s4)
            end
        end
  end.

(** CreateDataProperty on a parsed object: a repeated key keeps its place
    and takes the later value. *)
Fixpoint set_prop (k : string) (v : JSValue) (props : list (string * JSValue))
  : list (string * JSValue) :=
  match props with
  | [] => [(k, v)]
  | (k', v') :: rest =>
      if k' =? k then (k, v) :: rest else (k', v') :: set_prop k v rest
  end.

Definition expect (c : ascii) (s : string) : option string :=
  match s with
  | String c' rest => if Ascii.eqb c' c then Some rest else None
  | EmptyString => None
  end.

(** A member's key and colon: a string, whitespace, a colon. *)
Definition parse_key (s : string) : option (string * string) :=
  match expect dquote s with
  | Some rest =>
      match parse_chars rest with
      | Some (key, rest1) =>
          match expect ":" (skip_ws rest1) with
          | Some rest2 => Some (key, rest2)
          | None => None
          end
      | None => None
      end
  | None => None
  end.

Section Parse.

(** StringToNumber on a number literal: the nearest binary64, left to the
    engine. *)
Variable StringToNumber : string -> spec_float.

(** A value at the head of [s] (leading whitespace skipped by the caller).
    [parse_items] and [parse_members] read what follows an item of an
    array and a member of an object. *)
Fixpoint parse_value (fuel : nat) (s : string) : PResult JSValue :=
  match fuel with
  | O => PFuel
  | S fuel =>
      match s with
      | EmptyString => PSyntax
      | String c rest =>
          if Ascii.eqb c dquote then
            match parse_chars rest with
            | Some (str, rest') => POk (JStr str) rest'
            | None => PSyntax
            end
          else if Ascii.eqb c "{" then
            match skip_ws rest with
            | String c' rest' =>
                if Ascii.eqb c' "}" then POk (JObj []) rest'
                else
                  match parse_key (String c' rest') with
                  | Some (key, rest2) =>
                      match parse_value fuel (skip_ws rest2) with
                      | POk v rest3 => parse_members fuel [(key, v)] (skip_ws rest3)
                      | PSyntax => PSyntax
                      | PFuel => PFuel
                      end
                  | None => PSyntax
                  end
            | EmptyString => PSyntax
            end
          else if Ascii.eqb c "[" then
            match skip_ws rest with
            | String "]" rest' => POk (JArr []) rest'
            | rest' =>
                match parse_value fuel rest' with
                | POk v rest1 => parse_items fuel [v] (skip_ws rest1)
                | PSyntax => PSyntax
                | PFuel => PFuel
                end
            end
          else if prefix "true" s then POk (JBool true) (substring 4 (String.length s - 4) s)
          else if prefix "false" s then POk (JBool false) (substring 5 (String.length s - 5) s)
          else if prefix "null" s then POk JNull (substring 4 (String.length s - 4) s)
          else
            match scan_number s with
            | Some (text, rest') => POk (JNum (StringToNumber text)) rest'
            | None => PSyntax
            end
      end
  end

with parse_items (fuel : nat) (acc : list JSValue) (s : string) : PResult JSValue :=
  match fuel with
  | O => PFuel
  | S fuel =>
      match s with
      | String "]" rest => POk (JArr (rev acc)) rest
      | String "," rest =>
          match parse_value fuel (skip_ws rest) with
          | POk v rest1 => parse_items fuel (v :: acc) (skip_ws rest1)
          | PSyntax => PSyntax
          | PFuel => PFuel
          end
      | _ => PSyntax
      end
  end

with parse_members (fuel : nat) (acc : list (string * JSValue)) (s : string)
  : PResult JSValue :=
  match fuel with
  | O => PFuel
  | S fuel =>
      match s with
      | String "}" rest => POk (JObj acc) rest
      | String "," rest =>
          match parse_key (skip_ws rest) with
          | Some (key, rest2) =>
              match parse_value fuel (skip_ws rest2) with
              | POk v rest3 =>
                  parse_members fuel (set_prop key v acc) (skip_ws rest3)
              | PSyntax => PSyntax
              | PFuel => PFuel
              end
          | None => PSyntax
          end
      | _ => PSyntax
      end
  end.

Definition SyntaxError : Thrown :=
  ThrowError "SyntaxError" "Unexpected token in JSON".

(** Raised when the fuel runs out, apart from SyntaxError; the fuel given
    by [parse] is always enough (see [parse_never_out_of_fuel]). *)
Definition RangeError : Thrown :=
  ThrowError "RangeError" "Maximum call stack size exceeded".

(** [JSON.parse(text)] without reviver: one value, whitespace around it. *)
Definition parse (text : string) : Outcome JSValue :=
  match parse_value (S (String.length text)) (skip_ws text) with
  | POk v rest =>
      match skip_ws rest with
      | EmptyString => Returned v
      | _ => Raised SyntaxError
      end
  | PSyntax => Raised SyntaxError
  | PFuel => Raised RangeError
  end.

End Parse.

End Json.

(** ** Observations on a run *)

(** The requests sent, with how each ended. *)
Definition fetch_calls (evs : list Event) : list (Request * Outcome Response) :=
  flat_map (fun ev => match ev with
                      | EvFetch req r => [(req, r)]
                      | _ => []
                      end) evs.

(** The names passed to [events.fire]. *)
Definition fired (evs : list Event) : list string :=
  flat_map (fun ev => match ev with
                      | EvFire name => [name]
                      | _ => []
                      end) evs.

(** The modals asked of the host through showPopup. *)
Definition popups (evs : list Event) : list Popup :=
  flat_map (fun ev => match ev with
                      | EvInvoke name payload _ =>
                          if name =? "showPopup" then [payload] else []
                      | _ => []
                      end) evs.

(** The modals whose display call returned. *)
Definition popups_returned (evs : list Event) : list Popup :=
  flat_map (fun ev => match ev with
                      | EvInvoke name payload (Returned _) =>
                          if name =? "showPopup" then [payload] else []
                      | _ => []
                      end) evs.

(** The splat lists handed to the external serializer. *)
Definition serializer_calls (evs : list Event) : list (list Splat) :=
  flat_map (fun ev => match ev with
                      | EvSerialize splats _ _ => [splats]
                      | _ => []
                      end) evs.

(** The arguments of each [console.warn]. *)
Definition warnings (evs : list Event) : list (list LogArg) :=
  flat_map (fun ev => match ev with
                      | EvConsole Warn args => [args]
                      | _ => []
                      end) evs.

(** The requests of the three phases, told apart by method and path. *)
Definition is_upload_url_request (req : Request) : Prop :=
  method req = "POST" /\
  exists origin, url req = origin ++ "/api/supersplat/upload-url".

Definition is_storage_put (req : Request) : Prop :=
  method req = "PUT" /\ exists bytes ct, body req = BodyBlob bytes ct.

Definition is_save_complete_request (req : Request) : Prop :=
  method req = "POST" /\
  exists origin, url req = origin ++ "/api/supersplat/save-complete".

(** Phase 1, then phase 2, then phase 3, and nothing after. *)
Definition in_phase_order (reqs : list Request) : Prop :=
  match reqs with
  | [] => True
  | r1 :: rest1 =>
      is_upload_url_request r1 /\
      match rest1 with
      | [] => True
      | r2 :: rest2 =>
          is_storage_put r2 /\
          match rest2 with
          | [] => True
          | r3 :: rest3 => is_save_complete_request r3 /\ rest3 = []
          end
      end
  end.

(** The spec's selection for export: point-cloud splats that are visible
    and have content count above 0. *)
Definition exportable (scene : Scene) : list Splat :=
  filter (fun s => visible s && (0 <? numSplats s)%N) (getElementsByType_splat scene).

(** A flat object of strings with distinct keys, as a session config is. *)
Definition string_props (l : list (string * string)) : list (string * JSValue) :=
  map (fun p => (fst p, JStr (snd p))) l.

(** The spec's valid config: splatId, apiOrigin and authToken are present
    and not empty. *)
Definition required_fields_truthy (config : JSValue) : Prop :=
  exists splatId apiOrigin authToken,
    get_prop config "splatId" = Returned splatId /\ truthy splatId = true /\
    get_prop config "apiOrigin" = Returned apiOrigin /\ truthy apiOrigin = true /\
    get_prop config "authToken" = Returned authToken /\ truthy authToken = true.

(** ** Number conversions and example hosts *)

Module Engine.

Fixpoint digits_value (s : string) (acc : Z) : Z :=
  match s with
  | EmptyString => acc
  | String c rest => digits_value rest (10 * acc + (Z.of_N (N_of_ascii c) - 48))
  end.

(** StringToNumber on a JSON number literal: the binary64 nearest to the
    decimal, ties to even.  A negative power of ten divides exactly in the
    integers, with enough extra bits and a sticky last bit before the one
    rounding. *)
Definition StringToNumber (text : string) : spec_float :=
  let (neg, s1) :=
    match text with
    | String "-" r => (true, r)
    | _ => (false, text)
    end in
  let (int, s2) := Json.span_digits s1 in
  let (frac, s3) :=
    match s2 with
    | String "." r => Json.span_digits r
    | _ => (EmptyString, s2)
    end in
  let x :=
    match s3 with
    | String _ (String "-" r) => (- digits_value (fst (Json.span_digits r)) 0)%Z
    | String _ (String "+" r) => digits_value (fst (Json.span_digits r)) 0
    | String _ r => digits_value (fst (Json.span_digits r)) 0
    | EmptyString => 0%Z
    end in
  let m := digits_value (int ++ frac) 0 in
  let e := (x - Z.of_nat (String.length frac))%Z in
  let signed := fun z : Z => if (neg : bool) then (- z)%Z else z in
  if (m =? 0)%Z then S754_zero neg
  else if (0 <=? e)%Z then binary_normalize 53 1024 (signed (m * 10 ^ e)%Z) 0 neg
  else
    let d := (10 ^ (- e))%Z in
    let s := (Z.log2 d + 64)%Z in
    let q := ((m * 2 ^ s) / d)%Z in
    let sticky := if ((m * 2 ^ s) mod d =? 0)%Z then 0%Z else 1%Z in
    binary_normalize 53 1024 (signed (2 * q + sticky)%Z) (- (s + 1)) neg.

(** Number::toString on the integral values below 2^53 that the example
    hosts print (a byte count); of another finite value, its integer part,
    where an engine prints the shortest decimal that reads back. *)
Definition Number_toString (x : spec_float) : string :=
  match x with
  | S754_zero _ => "0"
  | S754_nan => "NaN"
  | S754_infinity false => "Infinity"
  | S754_infinity true => "-Infinity"
  | S754_finite s m e =>
      (if s then "-" else "")
        ++ dec (Z.to_N (if (0 <=? e)%Z then Z.pos m * 2 ^ e
                        else Z.pos m / 2 ^ (- e))%Z)
  end.

End Engine.

Module Scenario.

(** A browser with the reference codecs around a given serializer, network
    and modal. *)
Definition browser
  (serializer : list Event -> list Splat -> SerializeSettings ->
                MemoryFileSystem -> Outcome MemoryFileSystem)
  (network : list Event -> Request -> Outcome Response)
  (modal : list Event -> string -> Popup -> Outcome JSValue) : Host :=
  {| atob := Base64.atob;
     JSON_parse := Json.parse Engine.StringToNumber;
     JSON_stringify := Json.stringify Engine.Number_toString;
     Number_toString := Engine.Number_toString;
     serializePly := serializer;
     fetch := network;
     invoke := modal |}.

Definition config : JSValue :=
  JObj (string_props [("splatId", "s1"); ("userId", "u1");
                      ("apiOrigin", "https://gigascape.example");
                      ("authToken", "tok")]).

(** A config without userId. *)
Definition config_no_user : JSValue :=
  JObj (string_props [("splatId", "s1");
                      ("apiOrigin", "https://gigascape.example");
                      ("authToken", "tok")]).

Definition ply : Uint8Array :=
  {| buffer := [Byte.x70; Byte.x6c; Byte.x79; Byte.x0a];
     byteOffset := 0;
     byteLength := 4 |}.

Definition serializer_ok : list Event -> list Splat -> SerializeSettings ->
                           MemoryFileSystem -> Outcome MemoryFileSystem :=
  fun _ _ _ memFs => Returned {| results := ("output.ply", ply) :: results memFs |}.

Definition one_splat : Scene :=
  {| elements := [OtherElement "camera";
                  SplatElement {| splat_name := "scan"; visible := true; numSplats := 1000 |}] |}.

(** A hidden splat, a visible splat with no content, and a camera. *)
Definition nothing_to_save : Scene :=
  {| elements := [SplatElement {| splat_name := "hidden"; visible := false; numSplats := 1000 |};
                  OtherElement "camera";
                  SplatElement {| splat_name := "erased"; visible := true; numSplats := 0 |}] |}.

Definition ticket : JSValue :=
  JObj [("uploadUrl", JStr "https://storage.example/bucket/s1?signature=abc");
        ("storagePath", JStr "splats/s1/edited.ply")].

Definition respond (code : N) (payload : Outcome JSValue) : Outcome Response :=
  Returned {| status := code; json := payload |}.

Definition no_json : Outcome JSValue := Raised (Json.SyntaxError).

(** A network that answers each phase as given. *)
Definition network (phase1 phase2 phase3 : Outcome Response)
  : list Event -> Request -> Outcome Response :=
  fun _ req =>
    if method req =? "PUT" then phase2
    else if url req =? "https://gigascape.example/api/supersplat/upload-url" then phase1
    else phase3.

Definition modal_ok : list Event -> string -> Popup -> Outcome JSValue :=
  fun _ _ _ => Returned JUndefined.

(** A host whose modal fails to show an informational popup. *)
Definition modal_info_fails : list Event -> string -> Popup -> Outcome JSValue :=
  fun _ _ payload =>
    if type payload =? "info" then Raised (new_Error "popup unavailable")
    else Returned JUndefined.

(** Scenario A: every request succeeds. *)
Definition host_A : Host :=
  browser serializer_ok
    (network (respond 200 (Returned ticket)) (respond 200 no_json)
             (respond 200 (Returned (JObj []))))
    modal_ok.

(** Scenario B: phase 1 answers 403 with an error body. *)
Definition host_B : Host :=
  browser serializer_ok
    (network (respond 403 (Returned (JObj [("error", JStr "token expired")])))
             (respond 200 no_json) (respond 200 (Returned (JObj []))))
    modal_ok.

(** Scenario C: phase 2 answers 500 with no parseable body. *)
Definition host_C : Host :=
  browser serializer_ok
    (network (respond 200 (Returned ticket)) (respond 500 no_json)
             (respond 200 (Returned (JObj []))))
    modal_ok.

(** Phase 2 answers 500 with a JSON error body. *)
Definition host_put_error_body : Host :=
  browser serializer_ok
    (network (respond 200 (Returned ticket))
             (respond 500 (Returned (JObj [("error", JStr "quota exceeded")])))
             (respond 200 (Returned (JObj []))))
    modal_ok.

(** Phase 1 answers 403 with a body that is not JSON. *)
Definition host_403_no_json : Host :=
  browser serializer_ok
    (network (respond 403 no_json) (respond 200 no_json)
             (respond 200 (Returned (JObj []))))
    modal_ok.

(** Every request succeeds and the informational popup cannot be shown. *)
Definition host_modal_info_fails : Host :=
  browser serializer_ok
    (network (respond 200 (Returned ticket)) (respond 200 no_json)
             (respond 200 (Returned (JObj []))))
    modal_info_fails.

(** The query of a page opened with [config]:
    btoa(JSON.stringify(config)) as the value of gsConfig. *)
Definition search : string :=
  "?gsConfig=" ++ Base64.btoa (Json.stringify Engine.Number_toString config).

(** The query of a page opened with [config_no_user]. *)
Definition search_no_user : string :=
  "?gsConfig=" ++ Base64.btoa (Json.stringify Engine.Number_toString config_no_user).

End Scenario.

(** ** What the claims speak of *)

(** A required field that is missing or falsy: reading it gives no truthy
    value. *)
Definition field_unusable (config : JSValue) (key : string) : Prop :=
  forall v, get_prop config key = Returned v -> truthy v = false.

(** A gsConfig value the resolver cannot use: base64 that does not decode,
    JSON that does not parse, or a parsed value with splatId, apiOrigin or
    authToken missing or falsy. *)
Inductive Unusable (host : Host) (encoded : string) : Prop :=
| undecodable (e : Thrown) :
    atob host encoded = Raised e -> Unusable host encoded
| unparseable (json : string) (e : Thrown) :
    atob host encoded = Returned json ->
    JSON_parse host json = Raised e -> Unusable host encoded
| incomplete (json : string) (config : JSValue) (key : string) :
    atob host encoded = Returned json ->
    JSON_parse host json = Returned config ->
    In key ["splatId"; "apiOrigin"; "authToken"] ->
    field_unusable config key -> Unusable host encoded.

(** Every event a computation adds satisfies [P], whatever came before. *)
Definition only {A : Type} (P : Event -> Prop) (m : M A) : Prop :=
  forall h, Forall P (snd (m h)).

Definition not_fire (ev : Event) : Prop :=
  match ev with EvFire _ => False | _ => True end.

Definition not_fetch (ev : Event) : Prop :=
  match ev with EvFetch _ _ => False | _ => True end.

Definition not_serialize (ev : Event) : Prop :=
  match ev with EvSerialize _ _ _ => False | _ => True end.

Definition upload_failed_message (res : Response) : string :=
  "Upload to GCS failed (" ++ dec (status res) ++ ")".

(** The spec's state machine, read off one run of the [try] block: how far
    the attempt got, by the requests it sent and the modal it asked for.
    An attempt fails before any request (Serializing, or no config), at
    RequestingDestination, at Uploading or at Confirming, or completes. *)
Inductive Attempt (host : Host) : Outcome unit -> list Event -> Prop :=
| failed_before_network (e : Thrown) (d : list Event) :
    fetch_calls d = [] ->
    popups d = [] ->
    Attempt host (Raised e) d
| failed_requesting (e : Thrown) (d : list Event)
    (req1 : Request) (r1 : Outcome Response) :
    fetch_calls d = [(req1, r1)] ->
    is_upload_url_request req1 ->
    popups d = [] ->
    Attempt host (Raised e) d
| failed_uploading (e : Thrown) (d : list Event)
    (req1 : Request) (res1 : Response) (req2 : Request) (r2 : Outcome Response) :
    fetch_calls d = [(req1, Returned res1); (req2, r2)] ->
    ok res1 = true ->
    is_upload_url_request req1 ->
    is_storage_put req2 ->
    popups d = [] ->
    (forall res2, r2 = Returned res2 ->
       ok res2 = false /\ e = new_Error (upload_failed_message res2)) ->
    Attempt host (Raised e) d
| failed_confirming (e : Thrown) (d : list Event)
    (req1 : Request) (res1 : Response) (req2 : Request) (res2 : Response)
    (req3 : Request) (r3 : Outcome Response) :
    fetch_calls d = [(req1, Returned res1); (req2, Returned res2); (req3, r3)] ->
    ok res1 = true ->
    ok res2 = true ->
    is_upload_url_request req1 ->
    is_storage_put req2 ->
    is_save_complete_request req3 ->
    popups d = [] ->
    (forall res3, r3 = Returned res3 -> ok res3 = false) ->
    Attempt host (Raised e) d
| completed (o : Outcome unit) (d : list Event)
    (req1 : Request) (res1 : Response) (req2 : Request) (res2 : Response)
    (req3 : Request) (res3 : Response)
    (ticket splatId storagePath : JSValue) (shown : Outcome JSValue) :
    fetch_calls d
      = [(req1, Returned res1); (req2, Returned res2); (req3, Returned res3)] ->
    ok res1 = true ->
    ok res2 = true ->
    ok res3 = true ->
    is_upload_url_request req1 ->
    is_storage_put req2 ->
    is_save_complete_request req3 ->
    json res1 = Returned ticket ->
    get_prop ticket "storagePath" = Returned storagePath ->
    body req3
      = BodyText (JSON_stringify host
                    (JObj [("splatId", splatId); ("storagePath", storagePath)])) ->
    popups d = [success_popup] ->
    popups_returned d = match shown with Returned _ => [success_popup] | Raised _ => [] end ->
    o = match shown with Returned _ => Returned tt | Raised e => Raised e end ->
    Attempt host o d.

(** ** The text of a flat object of strings *)

Module JsonText.

Import Json.

(** [quote s] followed by [rest]. *)
Definition quoted (s rest : string) : string :=
  String dquote (escape s ++ String dquote rest).

(** A member, its key and value quoted, followed by [rest]. *)
Definition member_then (p : string * string) (rest : string) : string :=
  quoted (fst p) (String ":" (quoted (snd p) rest)).

(** Further members, each after a comma, followed by [closing]. *)
Definition members_then (ps : list (string * string)) (closing : string) : string :=
  fold_right (fun p acc => String "," (member_then p acc)) closing ps.

(** The text of the object with the members [ps]. *)
Definition object_text (ps : list (string * string)) : string :=
  String "{" (match ps with
              | [] => "}"
              | p :: ps' => member_then p (members_then ps' "}")
              end).

End JsonText.

(** ** What the further properties speak of *)

(** A primitive value: converting it to a string runs no method of the
    value, so ToString cannot raise. *)
Definition is_primitive (v : JSValue) : bool :=
  match v with
  | JArr _ | JObj _ => false
  | _ => true
  end.

(** ** The raw query and encodings of a config *)

(** A string without the character [sep]. *)
Definition free_of (sep : ascii) (s : string) : Prop :=
  forall c, In c (list_ascii_of_string s) -> c <> sep.

(** The raw query has a parameter named [key]: between the start of the
    query or an ampersand, and the end of the query, an equals sign or an
    ampersand, stands a name without either character that decodes to
    [key]. *)
Definition raw_key_present (key query : string) : Prop :=
  exists before name rest,
    query = before ++ name ++ rest
    /\ (before = "" \/ exists b, before = b ++ "&")
    /\ (rest = "" \/ exists r, rest = String "=" r \/ rest = String "&" r)
    /\ (forall c, In c (list_ascii_of_string name) -> c <> "&"%char /\ c <> "="%char)
    /\ URL.percent_decode (URL.plus_to_space name) = key.

(** UTF-8 of a string whose code units are the code points U+0000 to
    U+00FF: one byte below U+0080, two bytes from there. *)
Module Utf8.

Definition encode_unit (c : ascii) : string :=
  let n := N_of_ascii c in
  if (n <? 128)%N then String c EmptyString
  else String (ascii_of_N (192 + n / 64))
         (String (ascii_of_N (128 + n mod 64)) EmptyString).

Fixpoint encode (s : string) : string :=
  match s with
  | EmptyString => EmptyString
  | String c rest => encode_unit c ++ encode rest
  end.

End Utf8.

Module Encodings.

(** A config whose token has a tilde: its base64 has a plus sign. *)
Definition config_tilde : JSValue :=
  JObj (string_props [("splatId", "s1"); ("userId", "u1");
                      ("apiOrigin", "https://gigascape.example");
                      ("authToken", "tok~n")]).

(** A config whose splatId ends with U+00E9, e with acute accent. *)
Definition config_accent : JSValue :=
  JObj (string_props [("splatId", String "c" (String "a" (String "f"
                                   (String (ascii_of_N 233) EmptyString))));
                      ("userId", "u1");
                      ("apiOrigin", "https://gigascape.example");
                      ("authToken", "tok")]).

End Encodings.
(** * Theorems *)

Local Open Scope list_scope.

(** ** The URL query *)

Lemma has_true_iff (params : URL.URLSearchParams) (name : string) :
  URL.has params name = true <-> exists value, In (name, value) params.
Proof.
  unfold URL.has. rewrite existsb_exists. split.
  - intros [[k v] [Hin Heq]]. apply String.eqb_eq in Heq. simpl in Heq.
    subst k. now exists v.
  - intros [v Hin]. exists (name, v). split; [assumption|]. apply String.eqb_refl.
Qed.

Lemma get_none_has (params : URL.URLSearchParams) (name : string) :
  URL.get params name = None <-> URL.has params name = false.
Proof.
  unfold URL.get. induction params as [|[k v] params IH]; simpl; [tauto|].
  destruct (k =? name); simpl; [split; discriminate | exact IH].
Qed.

Module URLFacts.

Import URL.

(** *** A percent-encoded value comes back from the query *)

Lemma percent_decode_encode_byte (c : ascii) (rest : string) :
  percent_decode (plus_to_space (encode_byte c ++ rest))
  = String c (percent_decode (plus_to_space rest)).
Proof. destruct c as [[] [] [] [] [] [] [] []]; reflexivity. Qed.

Lemma percent_decode_encoded (s : string) :
  percent_decode (plus_to_space (encodeURIComponent s)) = s.
Proof.
  induction s as [|c s IH]; [reflexivity|].
  cbn [encodeURIComponent]. now rewrite percent_decode_encode_byte, IH.
Qed.

Lemma split_on_encode_byte (c : ascii) (rest : string) :
  split_on "&" (encode_byte c ++ rest)
  = match split_on "&" rest with
    | [] => [encode_byte c]
    | piece :: pieces => (encode_byte c ++ piece)%string :: pieces
    end.
Proof.
  destruct c as [[] [] [] [] [] [] [] []]; cbn; destruct (split_on "&" rest);
    reflexivity.
Qed.

Lemma split_on_encoded (s : string) :
  split_on "&" (encodeURIComponent s) = [encodeURIComponent s].
Proof.
  induction s as [|c s IH]; [reflexivity|].
  cbn [encodeURIComponent]. now rewrite split_on_encode_byte, IH.
Qed.

(** The query ?gsConfig= followed by the percent-encoded [value] has
    gsConfig equal to [value]. *)
Lemma get_gsConfig_encoded (value : string) :
  get (URLSearchParams_new ("?gsConfig=" ++ encodeURIComponent value)) "gsConfig"
  = Some value.
Proof.
  change (URLSearchParams_new ("?gsConfig=" ++ encodeURIComponent value))
    with (parse_urlencoded ("gsConfig=" ++ encodeURIComponent value)).
  unfold parse_urlencoded.
  assert (Hsplit : split_on "&" ("gsConfig=" ++ encodeURIComponent value)
                   = [("gsConfig=" ++ encodeURIComponent value)%string]).
  { cbn [append split_on]. rewrite split_on_encoded. reflexivity. }
  rewrite Hsplit. cbn [flat_map app append].
  assert (Hcut : cut_at "=" (String "g" (String "s" (String "C" (String "o"
                   (String "n" (String "f" (String "i" (String "g" (String "="
                   (encodeURIComponent value))))))))))
                 = ("gsConfig"%string, encodeURIComponent value)) by reflexivity.
  rewrite Hcut. rewrite percent_decode_encoded. reflexivity.
Qed.

End URLFacts.

(** ** The reference codecs *)

Module Base64Facts.

Import Base64.

(** Induction on a list three elements at a time. *)
Lemma list_ind3 {X : Type} (P : list X -> Prop) :
  P [] -> (forall a, P [a]) -> (forall a b, P [a; b]) ->
  (forall a b c rest, P rest -> P (a :: b :: c :: rest)) ->
  forall l, P l.
Proof.
  intros H0 H1 H2 H3.
  assert (H : forall l, P l /\ (forall a, P (a :: l)) /\ (forall a b, P (a :: b :: l))).
  { induction l as [|x l (IH0 & IH1 & IH2)]; auto. }
  intros l. apply H.
Qed.

Ltac below_64 n :=
  destruct n as [|n]; [|do 6 (try destruct n as [n|n|])].

Lemma sextet_of_char_of_sextet (n : N) :
  (n < 64)%N -> sextet_of_char (char_of_sextet n) = Some n.
Proof. intros Hn. below_64 n; try reflexivity; exfalso; lia. Qed.

Lemma char_of_sextet_kept (n : N) :
  (n < 64)%N ->
  is_ascii_whitespace (char_of_sextet n) = false
  /\ Ascii.eqb (char_of_sextet n) "=" = false.
Proof. intros Hn. below_64 n; try (split; reflexivity); exfalso; lia. Qed.

Lemma sextets3_below (a b c : N) :
  let '(s1, s2, s3, s4) := sextets3 a b c in
  (s1 < 64 /\ s2 < 64 /\ s3 < 64 /\ s4 < 64)%N.
Proof. unfold sextets3. repeat split; apply N.mod_lt; discriminate. Qed.

Lemma sextets_of_bytes_below (l : list N) : sextets (sextets_of_bytes l).
Proof.
  induction l as [| a | a b | a b c rest IH] using list_ind3;
    cbn [sextets_of_bytes].
  - constructor.
  - pose proof (sextets3_below a 0 0) as H.
    destruct (sextets3 a 0 0) as [[[s1 s2] s3] s4].
    destruct H as (? & ? & ? & ?). repeat constructor; assumption.
  - pose proof (sextets3_below a b 0) as H.
    destruct (sextets3 a b 0) as [[[s1 s2] s3] s4].
    destruct H as (? & ? & ? & ?). repeat constructor; assumption.
  - pose proof (sextets3_below a b c) as H.
    destruct (sextets3 a b c) as [[[s1 s2] s3] s4].
    destruct H as (? & ? & ? & ?). repeat constructor; assumption.
Qed.

Ltac euclid := zify; Z.to_euclidean_division_equations; lia.

(** Three bytes from their four sextets. *)
Lemma decode_group (a b c : N) :
  (a < 256)%N -> (b < 256)%N -> (c < 256)%N ->
  let '(s1, s2, s3, s4) := sextets3 a b c in
  let n := (((s1 * 64 + s2) * 64 + s3) * 64 + s4)%N in
  (n / 65536 = a /\ (n / 256) mod 256 = b /\ n mod 256 = c)%N.
Proof.
  intros Ha Hb Hc. unfold sextets3.
  set (m := (a * 65536 + b * 256 + c)%N).
  assert (Hm : (((((m / 262144) mod 64 * 64 + (m / 4096) mod 64) * 64
                  + (m / 64) mod 64) * 64 + m mod 64) = m)%N).
  { subst m. euclid. }
  cbv zeta. rewrite Hm. subst m. repeat split; euclid.
Qed.

(** Two bytes from three sextets, one byte from two. *)
Lemma decode_two (a b : N) :
  (a < 256)%N -> (b < 256)%N ->
  let '(s1, s2, s3, _) := sextets3 a b 0 in
  let n := (((s1 * 64 + s2) * 64 + s3) / 4)%N in
  (n / 256 = a /\ n mod 256 = b)%N.
Proof.
  intros Ha Hb. unfold sextets3.
  set (m := (a * 65536 + b * 256 + 0)%N).
  assert (Hm : ((((m / 262144) mod 64 * 64 + (m / 4096) mod 64) * 64
                 + (m / 64) mod 64) / 4 = a * 256 + b)%N).
  { subst m. euclid. }
  cbv zeta. rewrite Hm. split; euclid.
Qed.

Lemma decode_one (a : N) :
  (a < 256)%N ->
  let '(s1, s2, _, _) := sextets3 a 0 0 in
  ((s1 * 64 + s2) / 16 = a)%N.
Proof. intros Ha. unfold sextets3. euclid. Qed.

Lemma decode_sextets_of_bytes (l : list N) :
  bytes l -> decode_sextets (sextets_of_bytes l) = l.
Proof.
  induction l as [| a | a b | a b c rest IH] using list_ind3; intros Hl.
  - reflexivity.
  - inversion_clear Hl as [|? ? Ha _].
    pose proof (decode_one a Ha) as H. cbn [sextets_of_bytes].
    destruct (sextets3 a 0 0) as [[[s1 s2] s3] s4]. cbn [decode_sextets].
    now rewrite H.
  - inversion_clear Hl as [|? ? Ha Hl']. inversion_clear Hl' as [|? ? Hb _].
    pose proof (decode_two a b Ha Hb) as H. cbn [sextets_of_bytes].
    destruct (sextets3 a b 0) as [[[s1 s2] s3] s4]. cbn [decode_sextets].
    cbv zeta in H. destruct H as [-> ->]. reflexivity.
  - inversion_clear Hl as [|? ? Ha Hl']. inversion_clear Hl' as [|? ? Hb Hl''].
    inversion_clear Hl'' as [|? ? Hc Hrest].
    pose proof (decode_group a b c Ha Hb Hc) as H. cbn [sextets_of_bytes].
    destruct (sextets3 a b c) as [[[s1 s2] s3] s4]. cbn [decode_sextets].
    cbv zeta in H. destruct H as (-> & -> & ->). now rewrite (IH Hrest).
Qed.

Lemma sextets_of_chars_of_sextets (ss : list N) :
  sextets ss -> sextets_of_chars (map char_of_sextet ss) = Some ss.
Proof.
  induction 1 as [|s ss Hs _ IH]; [reflexivity|]. cbn [map sextets_of_chars].
  now rewrite (sextet_of_char_of_sextet s Hs), IH.
Qed.

Lemma filter_whitespace_of_sextets (ss : list N) (pad : list ascii) :
  sextets ss -> Forall (fun c => c = "="%char) pad ->
  filter (fun c => negb (is_ascii_whitespace c)) (map char_of_sextet ss ++ pad)
  = map char_of_sextet ss ++ pad.
Proof.
  intros Hss Hpad. rewrite filter_app. f_equal.
  - induction Hss as [|s ss Hs _ IH]; [reflexivity|]. cbn [map filter].
    destruct (char_of_sextet_kept s Hs) as [-> _]. cbn [negb]. now rewrite IH.
  - induction Hpad as [|c pad -> _ IH]; [reflexivity|]. cbn. now rewrite IH.
Qed.

(** Three bytes give four characters; a final byte gives two, a final two
    bytes give three. *)
Lemma sextets_of_bytes_length (l : list N) :
  exists k,
    (length l = 3 * k /\ length (sextets_of_bytes l) = 4 * k)%nat
    \/ (length l = 3 * k + 1 /\ length (sextets_of_bytes l) = 4 * k + 2)%nat
    \/ (length l = 3 * k + 2 /\ length (sextets_of_bytes l) = 4 * k + 3)%nat.
Proof.
  induction l as [| a | a b | a b c rest IH] using list_ind3;
    cbn [sextets_of_bytes].
  - exists 0%nat. left. split; reflexivity.
  - exists 0%nat. right. left. destruct (sextets3 a 0 0) as [[[s1 s2] s3] s4].
    split; reflexivity.
  - exists 0%nat. right. right. destruct (sextets3 a b 0) as [[[s1 s2] s3] s4].
    split; reflexivity.
  - destruct IH as [k IH]. exists (S k).
    destruct (sextets3 a b c) as [[[s1 s2] s3] s4]. cbn [length].
    destruct IH as [[-> ->]|[[-> ->]|[-> ->]]]; [left|right; left|right; right];
      split; lia.
Qed.

Lemma mod_3 (k r : nat) : (r < 3 -> (3 * k + r) mod 3 = r)%nat.
Proof.
  intros Hr. rewrite Nat.add_comm, Nat.mul_comm, Nat.Div0.mod_add.
  now apply Nat.mod_small.
Qed.

Lemma mod_4 (k r : nat) : (r < 4 -> (4 * k + r) mod 4 = r)%nat.
Proof.
  intros Hr. rewrite Nat.add_comm, Nat.mul_comm, Nat.Div0.mod_add.
  now apply Nat.mod_small.
Qed.

Lemma last_not_padding (ss : list N) :
  sextets ss ->
  match rev (map char_of_sextet ss) with
  | [] => True
  | c :: _ => Ascii.eqb c "=" = false
  end.
Proof.
  intros Hss.
  assert (H : Forall (fun c => Ascii.eqb c "=" = false) (rev (map char_of_sextet ss))).
  { apply Forall_rev. induction Hss as [|s ss Hs _ IH]; constructor; [|exact IH].
    now destruct (char_of_sextet_kept s Hs). }
  destruct (rev (map char_of_sextet ss)); [exact I|]. now inversion H.
Qed.

(** Stripping the padding of an encoding gives its sextet characters. *)
Lemma strip_padding_encoded (l : list N) :
  strip_padding (encode_unpadded l ++ padding (length l)) = encode_unpadded l
  /\ (length (encode_unpadded l) mod 4 =? 1)%nat = false.
Proof.
  unfold encode_unpadded, strip_padding, padding.
  pose proof (last_not_padding _ (sextets_of_bytes_below l)) as Hlast.
  rewrite length_app, length_map.
  destruct (sextets_of_bytes_length l) as [k [[Hl He]|[[Hl He]|[Hl He]]]].
  - assert (H3 : (length l mod 3 = 0)%nat)
      by (rewrite Hl, <- (Nat.add_0_r (3 * k)); apply mod_3; lia).
    rewrite H3. cbn [length]. rewrite app_nil_r, Nat.add_0_r.
    assert (H4 : (length (sextets_of_bytes l) mod 4 = 0)%nat)
      by (rewrite He, <- (Nat.add_0_r (4 * k)); apply mod_4; lia).
    rewrite H4. split; [|reflexivity]. cbn [Nat.eqb].
    destruct (rev (map char_of_sextet (sextets_of_bytes l))) as [|c r]; [reflexivity|].
    destruct c as [[] [] [] [] [] [] [] []]; try reflexivity; discriminate.
  - assert (H3 : (length l mod 3 = 1)%nat) by (rewrite Hl; apply mod_3; lia).
    rewrite H3. cbn [length].
    assert (H4 : ((length (sextets_of_bytes l) + 2) mod 4 = 0)%nat).
    { rewrite He. replace (4 * k + 2 + 2)%nat with (4 * S k + 0)%nat by lia.
      apply mod_4; lia. }
    assert (H4' : (length (sextets_of_bytes l) mod 4 = 2)%nat)
      by (rewrite He; apply mod_4; lia).
    rewrite H4, H4'. split; [|reflexivity]. cbn [Nat.eqb].
    rewrite rev_app_distr. cbn [rev app]. now rewrite rev_involutive.
  - assert (H3 : (length l mod 3 = 2)%nat) by (rewrite Hl; apply mod_3; lia).
    rewrite H3. cbn [length].
    assert (H4 : ((length (sextets_of_bytes l) + 1) mod 4 = 0)%nat).
    { rewrite He. replace (4 * k + 3 + 1)%nat with (4 * S k + 0)%nat by lia.
      apply mod_4; lia. }
    assert (H4' : (length (sextets_of_bytes l) mod 4 = 3)%nat)
      by (rewrite He; apply mod_4; lia).
    rewrite H4, H4'. split; [|reflexivity]. cbn [Nat.eqb].
    rewrite rev_app_distr. cbn [rev app].
    destruct (rev (map char_of_sextet (sextets_of_bytes l))) as [|c r] eqn:Hrev.
    + apply (f_equal (@length ascii)) in Hrev.
      rewrite length_rev, length_map, He in Hrev. cbn in Hrev. lia.
    + rewrite <- (rev_involutive (map char_of_sextet (sextets_of_bytes l))), Hrev.
      destruct c as [[] [] [] [] [] [] [] []]; try reflexivity; discriminate.
Qed.

Lemma bytes_of_string_below (s : string) : bytes (bytes_of_string s).
Proof.
  unfold bytes, bytes_of_string. apply Forall_map.
  induction (list_ascii_of_string s) as [|c l IH]; constructor; [|exact IH].
  apply N_ascii_bounded.
Qed.

Lemma string_of_bytes_of_string (s : string) :
  string_of_bytes (bytes_of_string s) = s.
Proof.
  unfold string_of_bytes, bytes_of_string. rewrite map_map.
  rewrite (map_ext _ (fun c => c)) by apply ascii_N_embedding.
  rewrite map_id. apply string_of_list_ascii_of_string.
Qed.

(** [atob] inverts [btoa]. *)
Lemma atob_btoa (s : string) : atob (btoa s) = Returned s.
Proof.
  unfold atob, btoa, encode_unpadded.
  rewrite list_ascii_of_string_of_list_ascii.
  rewrite filter_whitespace_of_sextets.
  - destruct (strip_padding_encoded (bytes_of_string s)) as [Hstrip Hlen].
    unfold encode_unpadded in Hstrip, Hlen. rewrite Hstrip, Hlen.
    rewrite (sextets_of_chars_of_sextets _ (sextets_of_bytes_below _)).
    rewrite (decode_sextets_of_bytes _ (bytes_of_string_below s)).
    now rewrite string_of_bytes_of_string.
  - apply sextets_of_bytes_below.
  - unfold padding. destruct (length (bytes_of_string s) mod 3)%nat as [|[|[|n]]];
      repeat constructor.
Qed.

End Base64Facts.

Module JsonFacts.

Import Json JsonText.

Lemma append_assoc (a b c : string) : ((a ++ b) ++ c = a ++ (b ++ c))%string.
Proof. induction a as [|x a IH]; [reflexivity|]. cbn. now rewrite IH. Qed.

Lemma append_empty (a : string) : (a ++ "" = a)%string.
Proof. induction a as [|x a IH]; [reflexivity|]. cbn. now rewrite IH. Qed.

Lemma length_append (a b : string) :
  String.length (a ++ b) = (String.length a + String.length b)%nat.
Proof. induction a as [|x a IH]; [reflexivity|]. cbn. now rewrite IH. Qed.

(** *** Strings *)

(** Reading back one escaped character. *)
Lemma parse_chars_escape_char (c : ascii) (rest : string) :
  parse_chars (escape_char c ++ rest)
  = match parse_chars rest with
    | Some (str, rest') => Some (String c str, rest')
    | None => None
    end.
Proof. destruct c as [[] [] [] [] [] [] [] []]; reflexivity. Qed.

Lemma parse_chars_escape (s rest : string) :
  parse_chars (escape s ++ String dquote rest) = Some (s, rest).
Proof.
  induction s as [|c s IH]; [reflexivity|].
  cbn [escape]. rewrite append_assoc, parse_chars_escape_char. now rewrite IH.
Qed.

Lemma quote_then (s rest : string) : (quote s ++ rest)%string = quoted s rest.
Proof. unfold quote, quoted. cbn. now rewrite append_assoc. Qed.

(** *** Objects of strings *)

Lemma member_text_then (p : string * string) (rest : string) :
  ((quote (fst p) ++ ":" ++ quote (snd p)) ++ rest)%string = member_then p rest.
Proof.
  unfold member_then. rewrite append_assoc, quote_then.
  cbn [append]. now rewrite quote_then.
Qed.

Lemma join_members_then (p : string * string) (ps : list (string * string))
  (closing : string) :
  (join "," (map (fun p => quote (fst p) ++ ":" ++ quote (snd p)) (p :: ps))
     ++ closing)%string
  = member_then p (members_then ps closing).
Proof.
  revert p. induction ps as [|q ps IH]; intros p.
  - cbn [map join members_then fold_right]. apply member_text_then.
  - cbn [map join] in *. rewrite append_assoc, member_text_then.
    cbn [append]. cbn [members_then fold_right]. f_equal. f_equal.
    exact (IH q).
Qed.

Lemma members_of_string_props (Number_toString : spec_float -> string)
  (ps : list (string * string)) :
  flat_map (fun '(k, x) =>
              match x with
              | JUndefined => []
              | _ => [(quote k ++ ":" ++ stringify Number_toString x)%string]
              end) (string_props ps)
  = map (fun p => (quote (fst p) ++ ":" ++ quote (snd p))%string) ps.
Proof.
  induction ps as [|[k v] ps IH]; [reflexivity|].
  cbn [string_props map flat_map fst snd app stringify]. f_equal. exact IH.
Qed.

Lemma stringify_string_object (Number_toString : spec_float -> string)
  (ps : list (string * string)) :
  stringify Number_toString (JObj (string_props ps)) = object_text ps.
Proof.
  unfold object_text. cbn [stringify]. rewrite members_of_string_props.
  cbn [append]. f_equal.
  destruct ps as [|p ps]; [reflexivity|]. apply join_members_then.
Qed.

Lemma parse_key_member (k rest : string) :
  parse_key (quoted k (String ":" rest)) = Some (k, rest).
Proof.
  unfold parse_key, quoted. cbn [expect]. change (Ascii.eqb dquote dquote) with true.
  cbn iota. now rewrite parse_chars_escape.
Qed.

Section Parsing.

Variable StringToNumber : string -> spec_float.

Lemma parse_value_quoted (fuel : nat) (v rest : string) :
  parse_value StringToNumber (S fuel) (quoted v rest) = POk (JStr v) rest.
Proof.
  unfold quoted. cbn [parse_value]. change (Ascii.eqb dquote dquote) with true.
  cbn iota. now rewrite parse_chars_escape.
Qed.

Lemma skip_ws_quoted (s rest : string) : skip_ws (quoted s rest) = quoted s rest.
Proof. reflexivity. Qed.

Lemma skip_ws_members_then (ps : list (string * string)) :
  skip_ws (members_then ps "}") = members_then ps "}".
Proof. destruct ps; reflexivity. Qed.

Lemma set_prop_fresh (k : string) (v : JSValue) (acc : list (string * JSValue)) :
  ~ In k (map fst acc) -> set_prop k v acc = acc ++ [(k, v)].
Proof.
  induction acc as [|[k' v'] acc IH]; intros Hk; [reflexivity|].
  cbn [set_prop map fst In] in *.
  destruct (k' =? k)%string eqn:E.
  - apply String.eqb_eq in E. tauto.
  - cbn [app]. rewrite IH; [reflexivity|tauto].
Qed.

Lemma parse_members_comma (fuel : nat) (acc : list (string * JSValue)) (rest : string) :
  parse_members StringToNumber (S fuel) acc (String "," rest)
  = match parse_key (skip_ws rest) with
    | Some (key, rest2) =>
        match parse_value StringToNumber fuel (skip_ws rest2) with
        | POk v rest3 =>
            parse_members StringToNumber fuel (set_prop key v acc) (skip_ws rest3)
        | PSyntax => PSyntax
        | PFuel => PFuel
        end
    | None => PSyntax
    end.
Proof. reflexivity. Qed.

Lemma parse_value_object_member (fuel : nat) (k rest : string) :
  parse_value StringToNumber (S fuel) (String "{" (quoted k rest))
  = match parse_key (quoted k rest) with
    | Some (key, rest2) =>
        match parse_value StringToNumber fuel (skip_ws rest2) with
        | POk v rest3 => parse_members StringToNumber fuel [(key, v)] (skip_ws rest3)
        | PSyntax => PSyntax
        | PFuel => PFuel
        end
    | None => PSyntax
    end.
Proof. reflexivity. Qed.

(** The members after the first, read back onto what was read before. *)
Lemma parse_members_then (ps : list (string * string)) :
  forall (fuel : nat) (acc : list (string * JSValue)),
    length ps < fuel ->
    NoDup (map fst acc ++ map fst ps) ->
    parse_members StringToNumber fuel acc (members_then ps "}")
    = POk (JObj (acc ++ string_props ps)) "".
Proof.
  induction ps as [|[k v] ps IH]; intros fuel acc Hfuel Hkeys.
  - destruct fuel as [|fuel]; [inversion Hfuel|].
    cbn [members_then fold_right parse_members string_props map].
    now rewrite app_nil_r.
  - destruct fuel as [|[|fuel]]; cbn [length] in Hfuel; try lia.
    cbn [members_then fold_right]. fold (members_then ps "}").
    rewrite parse_members_comma. unfold member_then at 1. cbn [fst snd].
    rewrite skip_ws_quoted, parse_key_member, skip_ws_quoted.
    rewrite parse_value_quoted, skip_ws_members_then.
    cbn [map] in Hkeys. pose proof Hkeys as Hall.
    apply NoDup_remove in Hkeys as [Hkeys Hfresh].
    rewrite set_prop_fresh by (intros Hin; apply Hfresh, in_or_app; now left).
    rewrite IH.
    + cbn [string_props map fst snd]. now rewrite <- app_assoc.
    + lia.
    + rewrite map_app, <- app_assoc. exact Hall.
Qed.

Lemma parse_value_object (ps : list (string * string)) (fuel : nat) :
  length ps < fuel ->
  NoDup (map fst ps) ->
  parse_value StringToNumber fuel (object_text ps) = POk (JObj (string_props ps)) "".
Proof.
  intros Hfuel Hkeys. destruct fuel as [|fuel]; [inversion Hfuel|].
  destruct ps as [|[k v] ps]; [reflexivity|].
  destruct fuel as [|fuel]; cbn [length] in Hfuel; [lia|].
  unfold object_text. unfold member_then at 1. cbn [fst snd].
  rewrite parse_value_object_member.
  rewrite parse_key_member, skip_ws_quoted, parse_value_quoted.
  rewrite skip_ws_members_then.
  apply (parse_members_then ps (S fuel) [(k, JStr v)]); [lia|exact Hkeys].
Qed.

Lemma length_quoted (s rest : string) :
  String.length rest <= String.length (quoted s rest).
Proof.
  unfold quoted. cbn [String.length]. rewrite length_append.
  cbn [String.length]. lia.
Qed.

Lemma length_member_then (p : string * string) (rest : string) :
  String.length rest <= String.length (member_then p rest).
Proof.
  unfold member_then.
  pose proof (length_quoted (fst p) (String ":" (quoted (snd p) rest))) as H1.
  pose proof (length_quoted (snd p) rest) as H2.
  cbn [String.length] in H1. lia.
Qed.

Lemma length_members_then (ps : list (string * string)) (closing : string) :
  length ps <= String.length (members_then ps closing).
Proof.
  induction ps as [|p ps IH]; [apply Nat.le_0_l|].
  cbn [members_then fold_right length String.length].
  fold (members_then ps closing).
  pose proof (length_member_then p (members_then ps closing)). lia.
Qed.

Lemma length_object_text (ps : list (string * string)) :
  length ps <= String.length (object_text ps).
Proof.
  unfold object_text. destruct ps as [|p ps]; [apply Nat.le_0_l|].
  pose proof (length_members_then ps "}") as H.
  pose proof (length_member_then p (members_then ps "}")).
  cbn [String.length length]. lia.
Qed.

(** [JSON.parse] inverts [JSON.stringify] on a flat object of strings with
    distinct keys. *)
Lemma parse_stringify_string_object (Number_toString : spec_float -> string)
  (ps : list (string * string)) :
  NoDup (map fst ps) ->
  parse StringToNumber (stringify Number_toString (JObj (string_props ps)))
  = Returned (JObj (string_props ps)).
Proof.
  intros Hkeys. rewrite stringify_string_object. unfold parse.
  change (skip_ws (object_text ps)) with (object_text ps).
  rewrite parse_value_object; [reflexivity| |exact Hkeys].
  pose proof (length_object_text ps). lia.
Qed.

End Parsing.

End JsonFacts.

Module JsonFuel.

Import Json.

(** *** The fuel of the parser is enough *)

Lemma skip_ws_length (s : string) : String.length (skip_ws s) <= String.length s.
Proof.
  induction s as [|c s IH]; [apply Nat.le_refl|]. cbn [skip_ws].
  destruct (is_ws c); cbn [String.length]; lia.
Qed.

Lemma parse_chars_length (n : nat) :
  forall s str rest,
    String.length s <= n ->
    parse_chars s = Some (str, rest) -> String.length rest < String.length s.
Proof.
  induction n as [|n IH]; intros s str rest Hn H.
  - destruct s; [discriminate|inversion Hn].
  - destruct s as [|c s]; [discriminate|]. cbn [parse_chars] in H.
    cbn [String.length] in *.
    destruct (Ascii.eqb c dquote); [injection H as _ <-; lia|].
    destruct (Ascii.eqb c "\").
    + destruct s as [|e s1]; [discriminate|]. cbn [String.length] in *.
      destruct (Ascii.eqb e "u").
      * destruct s1 as [|h1 [|h2 [|h3 [|h4 s2]]]]; try discriminate.
        cbn [String.length] in *.
        destruct (URL.hex_digit h1) as [[|?]|]; try discriminate.
        destruct (URL.hex_digit h2) as [[|?]|]; try discriminate.
        destruct (URL.hex_digit h3); try discriminate.
        destruct (URL.hex_digit h4); try discriminate.
        destruct (parse_chars s2) as [[str' rest']|] eqn:E; [|discriminate].
        injection H as _ <-. apply IH in E; lia.
      * destruct (unescape e); [|discriminate].
        destruct (parse_chars s1) as [[str' rest']|] eqn:E; [|discriminate].
        injection H as _ <-. apply IH in E; lia.
    + destruct (N_of_ascii c <? 32)%N; [discriminate|].
      destruct (parse_chars s) as [[str' rest']|] eqn:E; [|discriminate].
      injection H as _ <-. apply IH in E; lia.
Qed.

Lemma span_digits_length (s ds rest : string) :
  span_digits s = (ds, rest) ->
  String.length s = String.length ds + String.length rest.
Proof.
  revert ds rest. induction s as [|c s IH]; intros ds rest H.
  - injection H as <- <-. reflexivity.
  - cbn [span_digits] in H. destruct (is_digit c).
    + destruct (span_digits s) as [ds' r'] eqn:E. injection H as <- <-.
      cbn [String.length]. now rewrite (IH ds' r' eq_refl).
    + injection H as <- <-. reflexivity.
Qed.

Lemma expect_length (c : ascii) (s rest : string) :
  expect c s = Some rest -> String.length s = S (String.length rest).
Proof.
  destruct s as [|c' s]; [discriminate|]. cbn [expect].
  destruct (Ascii.eqb c' c); [|discriminate]. now intros [= <-].
Qed.

Lemma parse_key_length (s key rest : string) :
  parse_key s = Some (key, rest) -> String.length rest < String.length s.
Proof.
  unfold parse_key. destruct (expect dquote s) as [r|] eqn:E1; [|discriminate].
  destruct (parse_chars r) as [[k r1]|] eqn:E2; [|discriminate].
  destruct (expect ":" (skip_ws r1)) as [r2|] eqn:E3; [|discriminate].
  intros [= _ <-].
  apply expect_length in E1, E3.
  apply (parse_chars_length _ _ _ _ (Nat.le_refl _)) in E2.
  pose proof (skip_ws_length r1). lia.
Qed.

Lemma scan_number_length (s text rest : string) :
  scan_number s = Some (text, rest) -> String.length rest < String.length s.
Proof.
  unfold scan_number.
  set (signed := match s with String "-" r => ("-"%string, r) | _ => (""%string, s) end).
  assert (Hsign : String.length (snd signed) <= String.length s).
  { subst signed. destruct s as [|c r]; [apply Nat.le_refl|].
    destruct c as [[] [] [] [] [] [] [] []]; cbn [snd String.length]; lia. }
  destruct signed as [sign s1]. cbn [snd] in Hsign.
  destruct (span_digits s1) as [int s2] eqn:E1. apply span_digits_length in E1.
  destruct int as [|d ds]; [discriminate|]. cbn [String.length] in E1.
  destruct (Ascii.eqb d "0" && negb (ds =? ""))%bool; [discriminate|].
  set (frac := match s2 with
               | String "." r =>
                   let (fs, r') := span_digits r in
                   if (fs =? "")%string then None else Some (("." ++ fs)%string, r')
               | _ => Some (""%string, s2)
               end).
  assert (Hfrac : forall ftext s3, frac = Some (ftext, s3) ->
                                   String.length s3 <= String.length s2).
  { subst frac. intros ftext s3. destruct s2 as [|c r]; [now intros [= _ <-]|].
    destruct c as [[] [] [] [] [] [] [] []]; try (now intros [= _ <-]).
    destruct (span_digits r) as [fs r'] eqn:E. apply span_digits_length in E.
    destruct (fs =? "")%string; [discriminate|]. intros [= _ <-].
    cbn [String.length]. lia. }
  destruct frac as [[ftext s3]|]; [|discriminate].
  specialize (Hfrac ftext s3 eq_refl).
  set (exp := match s3 with
              | String e r =>
                  if (Ascii.eqb e "e" || Ascii.eqb e "E")%bool then
                    let (esign, r1) :=
                      match r with
                      | String "+" r' => ("+"%string, r')
                      | String "-" r' => ("-"%string, r')
                      | _ => (""%string, r)
                      end in
                    let (es, r2) := span_digits r1 in
                    if (es =? "")%string then None
                    else Some (String e (esign ++ es), r2)
                  else Some (""%string, s3)
              | EmptyString => Some (""%string, s3)
              end).
  assert (Hexp : forall etext s4, exp = Some (etext, s4) ->
                                  String.length s4 <= String.length s3).
  { subst exp. intros etext s4. destruct s3 as [|e r]; [now intros [= _ <-]|].
    destruct (Ascii.eqb e "e" || Ascii.eqb e "E")%bool; [|now intros [= _ <-]].
    set (esigned := match r with
                    | String "+" r' => ("+"%string, r')
                    | String "-" r' => ("-"%string, r')
                    | _ => (""%string, r)
                    end).
    assert (Hes : String.length (snd esigned) <= String.length r).
    { subst esigned. destruct r as [|c r']; [apply Nat.le_refl|].
      destruct c as [[] [] [] [] [] [] [] []]; cbn [snd String.length]; lia. }
    destruct esigned as [esign r1]. cbn [snd] in Hes.
    destruct (span_digits r1) as [es r2] eqn:E. apply span_digits_length in E.
    destruct (es =? "")%string; [discriminate|]. intros [= _ <-].
    cbn [String.length]. lia. }
  destruct exp as [[etext s4]|]; [|discriminate].
  specialize (Hexp etext s4 eq_refl). intros [= _ <-]. lia.
Qed.

Lemma substring_length (n m : nat) (s : string) :
  String.length (substring n m s) <= m.
Proof.
  revert n m. induction s as [|c s IH]; intros n m.
  - destruct n, m; cbn; lia.
  - destruct n as [|n]; [destruct m as [|m]|]; cbn [substring String.length].
    + lia.
    + specialize (IH 0%nat m). lia.
    + apply IH.
Qed.

Section Fuel.

Variable StringToNumber : string -> spec_float.

(** With more fuel than characters, the parser does not run out of fuel,
    and what it leaves is shorter than what it was given. *)
Lemma parse_fuel_enough (fuel : nat) :
  (forall s, String.length s < fuel ->
     parse_value StringToNumber fuel s <> PFuel
     /\ forall v rest, parse_value StringToNumber fuel s = POk v rest ->
                       String.length rest < String.length s)
  /\ (forall acc s, String.length s < fuel ->
        parse_items StringToNumber fuel acc s <> PFuel
        /\ forall v rest, parse_items StringToNumber fuel acc s = POk v rest ->
                          String.length rest < String.length s)
  /\ (forall acc s, String.length s < fuel ->
        parse_members StringToNumber fuel acc s <> PFuel
        /\ forall v rest, parse_members StringToNumber fuel acc s = POk v rest ->
                          String.length rest < String.length s).
Proof.
  induction fuel as [|fuel (IHv & IHi & IHm)].
  - repeat split; intros; lia.
  - split; [|split].
    + intros s Hs. destruct s as [|c s]; [split; [discriminate|discriminate]|].
      cbn [String.length] in Hs. cbn [parse_value].
      destruct (Ascii.eqb c dquote).
      { destruct (parse_chars s) as [[str r]|] eqn:E; split; try discriminate.
        intros v rest [= _ <-].
        apply (parse_chars_length _ _ _ _ (Nat.le_refl _)) in E.
        cbn [String.length]. lia. }
      destruct (Ascii.eqb c "{").
      { pose proof (skip_ws_length s) as Hws.
        destruct (skip_ws s) as [|c' r'] eqn:Es; [split; discriminate|].
        destruct (Ascii.eqb c' "}").
        { split; [discriminate|]. intros v rest [= _ <-].
          cbn [String.length] in *. lia. }
        destruct (parse_key (String c' r')) as [[key r2]|] eqn:Ek;
          [|split; discriminate].
        apply parse_key_length in Ek. pose proof (skip_ws_length r2) as Hws2.
        destruct (IHv (skip_ws r2)) as [Hv1 Hv2]; [lia|].
        destruct (parse_value StringToNumber fuel (skip_ws r2)) as [v r3| |] eqn:Ev;
          [|split; discriminate|congruence].
        specialize (Hv2 v r3 eq_refl). pose proof (skip_ws_length r3) as Hws3.
        destruct (IHm [(key, v)] (skip_ws r3)) as [Hm1 Hm2]; [lia|].
        split; [exact Hm1|]. intros v' rest Hr. apply Hm2 in Hr.
        cbn [String.length]. lia. }
      destruct (Ascii.eqb c "[").
      { pose proof (skip_ws_length s) as Hws.
        assert (Hitems :
          parse_value StringToNumber fuel (skip_ws s) <> PFuel ->
          (forall v r1, parse_value StringToNumber fuel (skip_ws s) = POk v r1 ->
                        String.length r1 < String.length (skip_ws s)) ->
          match parse_value StringToNumber fuel (skip_ws s) with
          | POk v rest1 => parse_items StringToNumber fuel [v] (skip_ws rest1)
          | PSyntax => PSyntax
          | PFuel => PFuel
          end <> PFuel
          /\ forall v rest,
               match parse_value StringToNumber fuel (skip_ws s) with
               | POk v rest1 => parse_items StringToNumber fuel [v] (skip_ws rest1)
               | PSyntax => PSyntax
               | PFuel => PFuel
               end = POk v rest ->
               String.length rest < String.length (String c s)).
        { intros Hv1 Hv2.
          destruct (parse_value StringToNumber fuel (skip_ws s)) as [v r1| |];
            [|split; discriminate|congruence].
          specialize (Hv2 v r1 eq_refl). pose proof (skip_ws_length r1) as Hws1.
          destruct (IHi [v] (skip_ws r1)) as [Hi1 Hi2]; [lia|].
          split; [exact Hi1|]. intros v' rest Hr. apply Hi2 in Hr.
          cbn [String.length]. lia. }
        destruct (IHv (skip_ws s)) as [Hv1 Hv2]; [lia|].
        specialize (Hitems Hv1 Hv2).
        destruct (skip_ws s) as [|c' r'] eqn:Es; [exact Hitems|].
        destruct c' as [[] [] [] [] [] [] [] []]; try exact Hitems.
        split; [discriminate|]. intros v rest [= _ <-].
        cbn [String.length] in *. lia. }
      destruct (prefix "true" (String c s)).
      { split; [discriminate|]. intros v rest [= _ <-].
        cbn [String.length] in *.
        match goal with
        | |- String.length (substring ?n ?m ?x) < _ =>
            pose proof (substring_length n m x)
        end. lia. }
      destruct (prefix "false" (String c s)).
      { split; [discriminate|]. intros v rest [= _ <-].
        cbn [String.length] in *.
        match goal with
        | |- String.length (substring ?n ?m ?x) < _ =>
            pose proof (substring_length n m x)
        end. lia. }
      destruct (prefix "null" (String c s)).
      { split; [discriminate|]. intros v rest [= _ <-].
        cbn [String.length] in *.
        match goal with
        | |- String.length (substring ?n ?m ?x) < _ =>
            pose proof (substring_length n m x)
        end. lia. }
      destruct (scan_number (String c s)) as [[text r]|] eqn:En;
        split; try discriminate.
      intros v rest [= _ <-]. now apply scan_number_length in En.
    + intros acc s Hs. cbn [parse_items].
      destruct s as [|c s]; [split; discriminate|].
      cbn [String.length] in Hs.
      assert (Hcomma :
        match parse_value StringToNumber fuel (skip_ws s) with
        | POk v rest1 => parse_items StringToNumber fuel (v :: acc) (skip_ws rest1)
        | PSyntax => PSyntax
        | PFuel => PFuel
        end <> PFuel
        /\ forall v rest,
             match parse_value StringToNumber fuel (skip_ws s) with
             | POk v rest1 => parse_items StringToNumber fuel (v :: acc) (skip_ws rest1)
             | PSyntax => PSyntax
             | PFuel => PFuel
             end = POk v rest ->
             String.length rest < String.length (String c s)).
      { pose proof (skip_ws_length s) as Hws.
        destruct (IHv (skip_ws s)) as [Hv1 Hv2]; [lia|].
        destruct (parse_value StringToNumber fuel (skip_ws s)) as [v r1| |];
          [|split; discriminate|congruence].
        specialize (Hv2 v r1 eq_refl). pose proof (skip_ws_length r1) as Hws1.
        destruct (IHi (v :: acc) (skip_ws r1)) as [Hi1 Hi2]; [lia|].
        split; [exact Hi1|]. intros v' rest Hr. apply Hi2 in Hr.
        cbn [String.length]. lia. }
      destruct c as [[] [] [] [] [] [] [] []]; try (split; discriminate);
        try exact Hcomma.
      split; [discriminate|]. intros v rest [= _ <-]. cbn [String.length]. lia.
    + intros acc s Hs. cbn [parse_members].
      destruct s as [|c s]; [split; discriminate|].
      cbn [String.length] in Hs.
      assert (Hcomma :
        match parse_key (skip_ws s) with
        | Some (key, rest2) =>
            match parse_value StringToNumber fuel (skip_ws rest2) with
            | POk v rest3 =>
                parse_members StringToNumber fuel (set_prop key v acc) (skip_ws rest3)
            | PSyntax => PSyntax
            | PFuel => PFuel
            end
        | None => PSyntax
        end <> PFuel
        /\ forall v rest,
             match parse_key (skip_ws s) with
             | Some (key, rest2) =>
                 match parse_value StringToNumber fuel (skip_ws rest2) with
                 | POk v rest3 =>
                     parse_members StringToNumber fuel (set_prop key v acc)
                       (skip_ws rest3)
                 | PSyntax => PSyntax
                 | PFuel => PFuel
                 end
             | None => PSyntax
             end = POk v rest ->
             String.length rest < String.length (String c s)).
      { pose proof (skip_ws_length s) as Hws.
        destruct (parse_key (skip_ws s)) as [[key r2]|] eqn:Ek;
          [|split; discriminate].
        apply parse_key_length in Ek. pose proof (skip_ws_length r2) as Hws2.
        destruct (IHv (skip_ws r2)) as [Hv1 Hv2]; [lia|].
        destruct (parse_value StringToNumber fuel (skip_ws r2)) as [v r3| |];
          [|split; discriminate|congruence].
        specialize (Hv2 v r3 eq_refl). pose proof (skip_ws_length r3) as Hws3.
        destruct (IHm (set_prop key v acc) (skip_ws r3)) as [Hm1 Hm2]; [lia|].
        split; [exact Hm1|]. intros v' rest Hr. apply Hm2 in Hr.
        cbn [String.length]. lia. }
      destruct c as [[] [] [] [] [] [] [] []]; try (split; discriminate);
        try exact Hcomma.
      split; [discriminate|]. intros v rest [= _ <-]. cbn [String.length]. lia.
Qed.

(** [JSON.parse] of the model never stops for lack of fuel: its outcome is
    a value or a SyntaxError. *)
Lemma parse_never_out_of_fuel (text : string) :
  parse StringToNumber text <> Raised RangeError.
Proof.
  unfold parse. pose proof (skip_ws_length text) as Hws.
  destruct (parse_fuel_enough (S (String.length text))) as [Hv _].
  destruct (Hv (skip_ws text)) as [Hfuel _]; [lia|].
  destruct (parse_value StringToNumber (S (String.length text)) (skip_ws text))
    as [v rest| |]; [|discriminate|congruence].
  destruct (skip_ws rest); discriminate.
Qed.

End Fuel.

End JsonFuel.

(** ** The raw query *)

Module URLRaw.

Import URL.

Lemma chars_app (a b : string) :
  list_ascii_of_string (a ++ b) = list_ascii_of_string a ++ list_ascii_of_string b.
Proof. induction a as [|c a IH]; [reflexivity|]. cbn. now rewrite IH. Qed.

Lemma free_of_empty (sep : ascii) : free_of sep "".
Proof. intros c []. Qed.

Lemma free_of_cons (sep c : ascii) (s : string) :
  free_of sep (String c s) <-> c <> sep /\ free_of sep s.
Proof.
  unfold free_of. cbn [list_ascii_of_string In]. split.
  - intros H. split; [apply H; now left|]. intros c' Hin. apply H. now right.
  - intros [Hc Hs] c' [<-|Hin]; auto.
Qed.

Lemma free_of_app (sep : ascii) (a b : string) :
  free_of sep (a ++ b) <-> free_of sep a /\ free_of sep b.
Proof.
  unfold free_of. rewrite chars_app. split.
  - intros H. split; intros c Hin; apply H, in_or_app; auto.
  - intros [Ha Hb] c Hin. apply in_app_or in Hin as [Hin|Hin]; auto.
Qed.

(** A string is free of [sep], or has a first occurrence of it. *)
Lemma first_sep (sep : ascii) (s : string) :
  free_of sep s
  \/ exists p r, s = (p ++ String sep r)%string /\ free_of sep p.
Proof.
  induction s as [|c s IH]; [left; apply free_of_empty|].
  destruct (Ascii.eqb c sep) eqn:Hc.
  - apply Ascii.eqb_eq in Hc. subst c. right.
    exists ""%string, s. split; [reflexivity|apply free_of_empty].
  - apply Ascii.eqb_neq in Hc. destruct IH as [Hfree|(p & r & -> & Hp)].
    + left. now apply free_of_cons.
    + right. exists (String c p), r. split; [reflexivity|now apply free_of_cons].
Qed.

(** *** Splitting at ampersands *)

Lemma split_on_not_nil (sep : ascii) (s : string) : split_on sep s <> [].
Proof.
  destruct s as [|c s]; cbn [split_on]; [discriminate|].
  destruct (Ascii.eqb c sep); [discriminate|].
  destruct (split_on sep s); discriminate.
Qed.

Lemma split_on_app (sep : ascii) (a b : string) :
  split_on sep (a ++ String sep b) = split_on sep a ++ split_on sep b.
Proof.
  induction a as [|c a IH]; cbn [append split_on].
  - now rewrite Ascii.eqb_refl.
  - destruct (Ascii.eqb c sep); [now rewrite IH|].
    rewrite IH. pose proof (split_on_not_nil sep a) as Hne.
    destruct (split_on sep a) as [|piece pieces]; [contradiction|reflexivity].
Qed.

Lemma split_on_free (sep : ascii) (s : string) :
  free_of sep s -> split_on sep s = [s].
Proof.
  induction s as [|c s IH]; intros Hs; [reflexivity|].
  apply free_of_cons in Hs as [Hc Hs]. apply Ascii.eqb_neq in Hc.
  cbn [split_on]. rewrite Hc, (IH Hs). reflexivity.
Qed.

(** The parameter that starts a query, or follows an ampersand, up to the
    next ampersand, is one of the pieces. *)
Lemma split_on_piece (sep : ascii) (before piece after : string) :
  before = ""%string \/ (exists b, before = (b ++ String sep "")%string) ->
  after = ""%string \/ (exists r, after = String sep r) ->
  free_of sep piece ->
  In piece (split_on sep (before ++ piece ++ after)).
Proof.
  intros Hbefore Hafter Hpiece.
  assert (Hhere : In piece (split_on sep (piece ++ after))).
  { destruct Hafter as [->|[r ->]].
    - rewrite JsonFacts.append_empty, (split_on_free sep piece Hpiece). now left.
    - rewrite split_on_app, (split_on_free sep piece Hpiece). now left. }
  destruct Hbefore as [->|[b ->]]; [exact Hhere|].
  rewrite JsonFacts.append_assoc. cbn [append].
  rewrite split_on_app. apply in_or_app. now right.
Qed.

(** Conversely, the first piece starts the string and every other piece
    follows a separator; each ends at a separator or at the end and has
    no separator inside. *)
Lemma split_on_pieces (sep : ascii) (s : string) :
  match split_on sep s with
  | [] => False
  | first :: others =>
      (exists after,
          s = (first ++ after)%string
          /\ (after = ""%string \/ exists r, after = String sep r)
          /\ free_of sep first)
      /\ forall piece, In piece others ->
           exists b after,
             s = ((b ++ String sep "") ++ piece ++ after)%string
             /\ (after = ""%string \/ exists r, after = String sep r)
             /\ free_of sep piece
  end.
Proof.
  induction s as [|c s IH]; cbn [split_on].
  - split; [|intros piece []].
    exists ""%string. repeat split; auto. apply free_of_empty.
  - destruct (split_on sep s) as [|first others]; [contradiction|].
    destruct IH as [(after & Hs & Hafter & Hfirst) Hothers].
    destruct (Ascii.eqb c sep) eqn:Hc.
    + apply Ascii.eqb_eq in Hc. subst c. split.
      * exists (String sep s). repeat split; eauto. apply free_of_empty.
      * intros piece [<-|Hin].
        -- exists ""%string, after. cbn [append]. rewrite <- Hs. auto.
        -- destruct (Hothers piece Hin) as (b & after' & Hs' & Hafter' & Hpiece).
           exists (String sep b), after'. cbn [append] in *. rewrite <- Hs'. auto.
    + apply Ascii.eqb_neq in Hc. split.
      * exists after. cbn [append]. rewrite <- Hs. repeat split; auto.
        now apply free_of_cons.
      * intros piece Hin.
        destruct (Hothers piece Hin) as (b & after' & Hs' & Hafter' & Hpiece).
        exists (String c b), after'. cbn [append] in *. rewrite <- Hs'. auto.
Qed.

Lemma split_on_In (sep : ascii) (s piece : string) :
  In piece (split_on sep s) ->
  exists before after,
    s = (before ++ piece ++ after)%string
    /\ (before = ""%string \/ exists b, before = (b ++ String sep "")%string)
    /\ (after = ""%string \/ exists r, after = String sep r)
    /\ free_of sep piece.
Proof.
  pose proof (split_on_pieces sep s) as H.
  destruct (split_on sep s) as [|first others]; [contradiction|].
  destruct H as [(after & Hs & Hafter & Hfirst) Hothers].
  intros [<-|Hin].
  - exists ""%string, after. auto.
  - destruct (Hothers piece Hin) as (b & after' & Hs' & Hafter' & Hpiece).
    exists (b ++ String sep "")%string, after'. eauto 10.
Qed.

(** *** Cutting a piece at its first equals sign *)

Lemma cut_at_free (sep : ascii) (s : string) :
  free_of sep s -> cut_at sep s = (s, ""%string).
Proof.
  induction s as [|c s IH]; intros Hs; [reflexivity|].
  apply free_of_cons in Hs as [Hc Hs]. apply Ascii.eqb_neq in Hc.
  cbn [cut_at]. now rewrite Hc, (IH Hs).
Qed.

Lemma cut_at_app (sep : ascii) (name value : string) :
  free_of sep name -> cut_at sep (name ++ String sep value) = (name, value).
Proof.
  induction name as [|c name IH]; intros Hname; cbn [append cut_at].
  - now rewrite Ascii.eqb_refl.
  - apply free_of_cons in Hname as [Hc Hname]. apply Ascii.eqb_neq in Hc.
    now rewrite Hc, (IH Hname).
Qed.

Lemma cut_at_inv (sep : ascii) (s name value : string) :
  cut_at sep s = (name, value) ->
  free_of sep name
  /\ ((s = name /\ value = ""%string) \/ s = (name ++ String sep value)%string).
Proof.
  revert name value. induction s as [|c s IH]; intros name value; cbn [cut_at].
  - intros [= <- <-]. split; [apply free_of_empty|auto].
  - destruct (Ascii.eqb c sep) eqn:Hc.
    + apply Ascii.eqb_eq in Hc. subst c. intros [= <- <-].
      split; [apply free_of_empty|now right].
    + apply Ascii.eqb_neq in Hc.
      destruct (cut_at sep s) as [name' value'] eqn:Hcut. intros [= <- <-].
      destruct (IH name' value' eq_refl) as [Hname [[-> ->]| ->]].
      * split; [now apply free_of_cons|auto].
      * split; [now apply free_of_cons|now right].
Qed.

(** *** The parsed query, read on the raw one *)

Lemma decode_empty_name : percent_decode (plus_to_space "") = ""%string.
Proof. reflexivity. Qed.

(** The parsed query has a pair named [key] exactly when the raw query has
    a parameter of that name. *)
Lemma has_parse_urlencoded (key query : string) :
  key <> ""%string ->
  has (parse_urlencoded query) key = true <-> raw_key_present key query.
Proof.
  intros Hkey. rewrite has_true_iff. unfold parse_urlencoded. split.
  - intros [value Hin]. apply in_flat_map in Hin as (piece & Hpiece & Hpair).
    destruct piece as [|c0 piece0] eqn:Hp; [destruct Hpair|]. rewrite <- Hp in *.
    clear Hp c0 piece0.
    destruct (cut_at "=" piece) as [name raw_value] eqn:Hcut.
    destruct Hpair as [[= Hname _]|[]].
    apply split_on_In in Hpiece as (before & after & -> & Hbefore & Hafter & Hfree).
    apply cut_at_inv in Hcut as [Hname_free [[-> ->]| ->]].
    + exists before, name, after. split; [reflexivity|]. split; [exact Hbefore|].
      split; [destruct Hafter as [->|[r ->]]; eauto|].
      split; [|exact Hname]. intros c Hc. split; [now apply Hfree|now apply Hname_free].
    + exists before, name, (String "=" raw_value ++ after)%string.
      split; [now rewrite (JsonFacts.append_assoc name)|]. split; [exact Hbefore|].
      split; [right; exists (raw_value ++ after)%string; now left|].
      split; [|exact Hname]. apply free_of_app in Hfree as [Hfree _].
      intros c Hc. split; [now apply Hfree|now apply Hname_free].
  - intros (before & name & rest & -> & Hbefore & Hrest & Hfree & Hname).
    assert (Hamp : free_of "&" name) by (intros c Hc; now apply Hfree).
    assert (Heq : free_of "=" name) by (intros c Hc; now apply Hfree).
    assert (Hne : name <> ""%string) by (intros ->; now apply Hkey).
    assert (Hpiece : exists piece raw_value,
               In piece (split_on "&" (before ++ name ++ rest))
               /\ piece <> ""%string
               /\ cut_at "=" piece = (name, raw_value)).
    { destruct Hrest as [->|[r [->| ->]]].
      - exists name, ""%string. split; [|split; [exact Hne|now apply cut_at_free]].
        apply split_on_piece; auto.
      - destruct (first_sep "&" r) as [Hr|(p & r' & -> & Hp)].
        + exists (name ++ String "=" r)%string, r.
          split; [|split; [destruct name; discriminate|now apply cut_at_app]].
          replace (before ++ name ++ String "=" r)%string
            with (before ++ (name ++ String "=" r) ++ "")%string
            by now rewrite JsonFacts.append_empty.
          apply split_on_piece; auto.
          apply free_of_app. split; [exact Hamp|].
          apply free_of_cons. split; [discriminate|exact Hr].
        + exists (name ++ String "=" p)%string, p.
          split; [|split; [destruct name; discriminate|now apply cut_at_app]].
          replace (before ++ name ++ String "=" (p ++ String "&" r'))%string
            with (before ++ (name ++ String "=" p) ++ String "&" r')%string
            by (now rewrite (JsonFacts.append_assoc name)).
          apply split_on_piece; eauto.
          apply free_of_app. split; [exact Hamp|].
          apply free_of_cons. split; [discriminate|exact Hp].
      - exists name, ""%string. split; [|split; [exact Hne|now apply cut_at_free]].
        apply split_on_piece; eauto. }
    destruct Hpiece as (piece & raw_value & Hin & Hnonempty & Hcut).
    exists (percent_decode (plus_to_space raw_value)).
    apply in_flat_map. exists piece. split; [exact Hin|].
    destruct piece as [|c0 piece0]; [contradiction|].
    rewrite Hcut. left. now rewrite Hname.
Qed.

(** A query of one parameter with an equals sign. *)
Lemma parse_urlencoded_single (name value : string) :
  free_of "&" name -> free_of "=" name -> free_of "&" value ->
  parse_urlencoded (name ++ String "=" value)
  = [(percent_decode (plus_to_space name), percent_decode (plus_to_space value))].
Proof.
  intros Hamp Heq Hvalue. unfold parse_urlencoded.
  rewrite split_on_free.
  - cbn [flat_map app].
    destruct (name ++ String "=" value)%string eqn:Hpiece;
      [destruct name; discriminate|].
    rewrite <- Hpiece. now rewrite cut_at_app.
  - apply free_of_app. split; [exact Hamp|].
    apply free_of_cons. split; [discriminate|exact Hvalue].
Qed.

(** *** A raw value that needs no decoding *)

Lemma plus_to_space_free (s : string) : free_of "+" s -> plus_to_space s = s.
Proof.
  induction s as [|c s IH]; intros Hs; [reflexivity|].
  apply free_of_cons in Hs as [Hc Hs]. apply Ascii.eqb_neq in Hc.
  cbn [plus_to_space]. now rewrite Hc, (IH Hs).
Qed.

Lemma percent_decode_free (s : string) : free_of "%" s -> percent_decode s = s.
Proof.
  induction s as [|c s IH]; intros Hs; [reflexivity|].
  apply free_of_cons in Hs as [Hc Hs]. apply Ascii.eqb_neq in Hc.
  cbn [percent_decode]. now rewrite Hc, (IH Hs).
Qed.

(** The query ?gsConfig= followed by a raw [value] without ampersand,
    percent sign or plus sign has gsConfig equal to [value]. *)
Lemma get_gsConfig_raw (value : string) :
  free_of "&" value -> free_of "%" value -> free_of "+" value ->
  get (URLSearchParams_new ("?gsConfig=" ++ value)) "gsConfig" = Some value.
Proof.
  intros Hamp Hpercent Hplus.
  change (URLSearchParams_new ("?gsConfig=" ++ value))
    with (parse_urlencoded ("gsConfig" ++ String "=" value)).
  unfold parse_urlencoded.
  rewrite split_on_free.
  - cbn [flat_map app append]. fold (append "gsConfig" (String "=" value)).
    change (String "g" (String "s" (String "C" (String "o" (String "n" (String "f"
              (String "i" (String "g" (String "=" value)))))))))
      with ("gsConfig" ++ String "=" value)%string.
    rewrite cut_at_app by (intros c Hc; cbn in Hc; intuition (subst; discriminate)).
    rewrite (plus_to_space_free value Hplus), (percent_decode_free value Hpercent).
    reflexivity.
  - apply free_of_app. split.
    + intros c Hc; cbn in Hc; intuition (subst; discriminate).
    + apply free_of_cons. split; [discriminate|exact Hamp].
Qed.

(** Base64 text has neither ampersand nor percent sign. *)
Lemma char_of_sextet_plain (n : N) :
  Base64.char_of_sextet n <> "&"%char /\ Base64.char_of_sextet n <> "%"%char.
Proof.
  unfold Base64.char_of_sextet.
  destruct (n <? 26)%N eqn:H26; [apply N.ltb_lt in H26|].
  { split; intros H; apply (f_equal N_of_ascii) in H;
      rewrite N_ascii_embedding in H by lia;
      try change (N_of_ascii "&"%char) with 38%N in H;
      try change (N_of_ascii "%"%char) with 37%N in H;
      lia. }
  destruct (n <? 52)%N eqn:H52; [apply N.ltb_lt in H52|].
  { split; intros H; apply (f_equal N_of_ascii) in H;
      rewrite N_ascii_embedding in H by lia;
      try change (N_of_ascii "&"%char) with 38%N in H;
      try change (N_of_ascii "%"%char) with 37%N in H;
      lia. }
  destruct (n <? 62)%N eqn:H62; [apply N.ltb_lt in H62; apply N.ltb_ge in H52|].
  { split; intros H; apply (f_equal N_of_ascii) in H;
      rewrite N_ascii_embedding in H by lia;
      try change (N_of_ascii "&"%char) with 38%N in H;
      try change (N_of_ascii "%"%char) with 37%N in H;
      lia. }
  destruct (n =? 62)%N; split; discriminate.
Qed.

Lemma btoa_plain (s : string) :
  free_of "&" (Base64.btoa s) /\ free_of "%" (Base64.btoa s).
Proof.
  assert (Hchars : forall c, In c (list_ascii_of_string (Base64.btoa s)) ->
                             c <> "&"%char /\ c <> "%"%char).
  { intros c. unfold Base64.btoa, Base64.encode_unpadded.
    rewrite list_ascii_of_string_of_list_ascii. intros Hin.
    apply in_app_or in Hin as [Hin|Hin].
    - apply in_map_iff in Hin as (n & <- & _). apply char_of_sextet_plain.
    - unfold Base64.padding in Hin.
      destruct (length (Base64.bytes_of_string s) mod 3)%nat as [|[|[|k]]];
        cbn in Hin; intuition (subst; discriminate). }
  split; intros c Hc; now apply Hchars.
Qed.

End URLRaw.

(** C7.  [isGigaScapeMode] answers true exactly when the raw query has a
    parameter named gsConfig: a name that stands at the start of the query
    or after an ampersand, runs to the end, an equals sign or an
    ampersand, and decodes to gsConfig.  The answer does not look at the
    value: whatever follows gsConfig=, decodable or not, the answer is
    true; and it is false on the empty query. *)
Theorem isGigaScapeMode_iff_key_present (query : string) :
  (isGigaScapeMode ("?" ++ query) = true <-> raw_key_present "gsConfig" query)
  /\ (forall c rest, query = String c rest -> c <> "?"%char ->
        (isGigaScapeMode query = true <-> raw_key_present "gsConfig" query))
  /\ isGigaScapeMode "" = false
  /\ (forall before value,
        before = ""%string \/ (exists b, before = (b ++ "&")%string) ->
        isGigaScapeMode ("?" ++ before ++ "gsConfig=" ++ value) = true
        /\ isGigaScapeMode ("?" ++ before ++ "gsConfig") = true)
  /\ (forall name value,
        free_of "&" name -> free_of "=" name -> free_of "&" value ->
        isGigaScapeMode ("?" ++ name ++ "=" ++ value)
        = (URL.percent_decode (URL.plus_to_space name) =? "gsConfig")%string).
Proof.
  assert (Hparsed : forall q, URL.has (URL.parse_urlencoded q) "gsConfig" = true
                              <-> raw_key_present "gsConfig" q)
    by (intros q; now apply URLRaw.has_parse_urlencoded).
  split; [exact (Hparsed query)|]. split; [|split; [reflexivity|split]].
  - intros c rest -> Hc. unfold isGigaScapeMode, URL.URLSearchParams_new.
    destruct c as [[] [] [] [] [] [] [] []]; try exact (Hparsed _).
    now destruct Hc.
  - intros before value Hbefore. split.
    + apply (Hparsed (before ++ "gsConfig=" ++ value)%string).
      exists before, "gsConfig"%string, (String "=" value).
      split; [reflexivity|]. split; [exact Hbefore|]. split; [eauto|].
      split; [|reflexivity].
      intros c Hc. cbn in Hc. intuition (subst; discriminate).
    + apply (Hparsed (before ++ "gsConfig")%string).
      exists before, "gsConfig"%string, ""%string.
      split; [reflexivity|]. split; [exact Hbefore|]. split; [now left|].
      split; [|reflexivity].
      intros c Hc. cbn in Hc. intuition (subst; discriminate).
  - intros name value Hamp Heq Hvalue. unfold isGigaScapeMode.
    change (URL.URLSearchParams_new ("?" ++ name ++ "=" ++ value))
      with (URL.parse_urlencoded (name ++ String "=" value)).
    rewrite (URLRaw.parse_urlencoded_single name value Hamp Heq Hvalue).
    cbn [URL.has existsb fst]. apply orb_false_r.
Qed.

(** A value that is no base64, after another parameter; the key without a
    value; the key spelled with a percent escape; a key of another
    case. *)
Lemma isGigaScapeMode_iff_key_present_witness :
  (isGigaScapeMode "?load=scene.ply&gsConfig=%%%" = true
   /\ isGigaScapeMode "?load=scene.ply&gsConfig" = true)
  /\ isGigaScapeMode "?%67sConfig=abc" = true
  /\ isGigaScapeMode "?gsconfig=abc" = false.
Proof.
  destruct (isGigaScapeMode_iff_key_present "")
    as (_ & _ & _ & Hliteral & Hsingle).
  split; [|split].
  - apply (Hliteral "load=scene.ply&"%string "%%%"%string).
    right. now exists "load=scene.ply"%string.
  - apply (Hsingle "%67sConfig"%string "abc"%string);
      intros c Hc; cbn in Hc; intuition (subst; discriminate).
  - apply (Hsingle "gsconfig"%string "abc"%string);
      intros c Hc; cbn in Hc; intuition (subst; discriminate).
Defined.

(** ** The effect monad *)

(** The laws of a monad, at every history. *)
Lemma bind_ret_l {A B : Type} (a : A) (f : A -> M B) (h : list Event) :
  bind (ret a) f h = f a h.
Proof.
  unfold bind, ret. rewrite app_nil_r. now destruct (f a h).
Qed.

Lemma bind_ret_r {A : Type} (m : M A) (h : list Event) : bind m ret h = m h.
Proof.
  unfold bind, ret. destruct (m h) as [[a|e] d]; [|reflexivity].
  now rewrite app_nil_r.
Qed.

Lemma bind_assoc {A B C : Type} (m : M A) (f : A -> M B) (g : B -> M C)
  (h : list Event) :
  bind (bind m f) g h = bind m (fun a => bind (f a) g) h.
Proof.
  unfold bind. destruct (m h) as [[a|e] d1]; [|reflexivity].
  destruct (f a (h ++ d1)) as [[b|e] d2]; [|reflexivity].
  rewrite <- app_assoc. destruct (g b (h ++ d1 ++ d2)) as [o d3].
  now rewrite app_assoc.
Qed.

(** ** The resolver *)

(** [parseGsConfig] on a query whose gsConfig value is not empty. *)
Lemma parseGsConfig_present (host : Host) (search encoded : string) :
  URL.get (URL.URLSearchParams_new search) "gsConfig" = Some encoded ->
  encoded <> "" ->
  parseGsConfig host search =
    try_catch
      (json <- lift (atob host encoded) ;;
       config <- lift (JSON_parse host json) ;;
       missing <-
         (splatId <- lift (get_prop config "splatId") ;;
          if negb (truthy splatId) then ret true
          else
            apiOrigin <- lift (get_prop config "apiOrigin") ;;
            if negb (truthy apiOrigin) then ret true
            else
              authToken <- lift (get_prop config "authToken") ;;
              ret (negb (truthy authToken))) ;;
       if (missing : bool) then
         console_warn [LStr "[GigaScape] gsConfig missing required fields"] ;;
         ret None
       else ret (Some config))
      (fun e =>
         console_warn [LStr "[GigaScape] Failed to parse gsConfig:"; LThrown e] ;;
         ret None).
Proof.
  intros Hget Hne. unfold parseGsConfig. rewrite Hget.
  apply String.eqb_neq in Hne. now rewrite Hne.
Qed.

(** Unfold the monad's operations. *)
Ltac unfold_M :=
  unfold try_finally, try_catch, bind, ret, throw, lift, console_warn,
    console_log, console_error, events_fire, emit.

(** The resolver never raises: whatever the query and the platform, the
    call returns. *)
Lemma parseGsConfig_never_raises (host : Host) (search : string) (h : list Event) :
  exists r, fst (parseGsConfig host search h) = Returned r.
Proof.
  unfold parseGsConfig.
  destruct (URL.get _ _) as [encoded|]; [|now exists None].
  destruct (encoded =? ""); [now exists None|].
  unfold_M.
  destruct (atob host encoded) as [json|e]; [|now exists None].
  destruct (JSON_parse host json) as [config|e]; [|now exists None].
  destruct (get_prop config "splatId") as [s|e]; [|now exists None].
  destruct (truthy s); simpl; [|now exists None].
  destruct (get_prop config "apiOrigin") as [a|e]; [|now exists None].
  destruct (truthy a); simpl; [|now exists None].
  destruct (get_prop config "authToken") as [t|e]; [|now exists None].
  destruct (truthy t); simpl; eauto.
Qed.

(** Without the key, the resolver returns absent and logs nothing. *)
Lemma parseGsConfig_absent (host : Host) (search : string) (h : list Event) :
  isGigaScapeMode search = false ->
  parseGsConfig host search h = (Returned None, []).
Proof.
  intros Hkey. apply get_none_has in Hkey. unfold parseGsConfig.
  now rewrite Hkey.
Qed.

(** A decodable value whose three required fields are truthy is returned
    as the config, with no warning. *)
Lemma parseGsConfig_accepts
  (host : Host) (search encoded json : string) (config : JSValue) (h : list Event) :
  URL.get (URL.URLSearchParams_new search) "gsConfig" = Some encoded ->
  encoded <> ""%string ->
  atob host encoded = Returned json ->
  JSON_parse host json = Returned config ->
  required_fields_truthy config ->
  parseGsConfig host search h = (Returned (Some config), []).
Proof.
  intros Hget Hne Hj Hc (s & a & t & Hs & Ts & Ha & Ta & Ht & Tt).
  rewrite (parseGsConfig_present host search encoded Hget Hne).
  unfold_M. rewrite Hj, Hc, Hs. simpl. rewrite Ts. simpl.
  rewrite Ha. simpl. rewrite Ta. simpl. rewrite Ht. simpl. now rewrite Tt.
Qed.

(** C8, amended.  For a gsConfig value that is not empty and cannot be
    used (base64 that does not decode, JSON that does not parse, a parsed
    value with splatId, apiOrigin or authToken missing or falsy), the
    resolver returns absent, without raising, and logs exactly one
    warning. *)
Theorem parseGsConfig_fails_soft
  (host : Host) (search encoded : string) (h : list Event) :
  URL.get (URL.URLSearchParams_new search) "gsConfig" = Some encoded ->
  encoded <> "" ->
  Unusable host encoded ->
  fst (parseGsConfig host search h) = Returned None
  /\ exists args, snd (parseGsConfig host search h) = [EvConsole Warn args].
Proof.
  intros Hget Hne Hbad. rewrite (parseGsConfig_present host search encoded Hget Hne).
  unfold_M.
  destruct Hbad as [e He | json e Hj He | json config key Hj Hc Hkey Hfield].
  - rewrite He. simpl. eauto.
  - rewrite Hj, He. simpl. eauto.
  - rewrite Hj, Hc. unfold field_unusable in Hfield.
    destruct (get_prop config "splatId") as [s|e] eqn:Hs; [|simpl; eauto].
    destruct (truthy s) eqn:Ts; simpl; [|eauto].
    destruct (get_prop config "apiOrigin") as [a|e] eqn:Ha; [|simpl; eauto].
    destruct (truthy a) eqn:Ta; simpl; [|eauto].
    destruct (get_prop config "authToken") as [t|e] eqn:Ht; [|simpl; eauto].
    destruct (truthy t) eqn:Tt; simpl; [|eauto].
    exfalso. simpl in Hkey.
    destruct Hkey as [<-|[<-|[<-|[]]]].
    + specialize (Hfield _ Hs). congruence.
    + specialize (Hfield _ Ha). congruence.
    + specialize (Hfield _ Ht). congruence.
Qed.

(** C8, the claim as stated fails on the empty value: it decodes to the
    empty text, which is not JSON, and the resolver returns absent without
    a warning. *)
Lemma parseGsConfig_empty_value_logs_nothing :
  URL.get (URL.URLSearchParams_new "?gsConfig=") "gsConfig" = Some ""
  /\ Unusable Scenario.host_A ""
  /\ parseGsConfig Scenario.host_A "?gsConfig=" [] = (Returned None, [])
  /\ warnings (snd (parseGsConfig Scenario.host_A "?gsConfig=" [])) = [].
Proof.
  split; [reflexivity|]. split; [|split; reflexivity].
  apply unparseable with (json := "") (e := Json.SyntaxError); reflexivity.
Qed.

Lemma parseGsConfig_fails_soft_witness :
  fst (parseGsConfig Scenario.host_A "?gsConfig=e30=" []) = Returned None
  /\ exists args,
       snd (parseGsConfig Scenario.host_A "?gsConfig=e30=" []) = [EvConsole Warn args].
Proof.
  apply (parseGsConfig_fails_soft Scenario.host_A "?gsConfig=e30=" "e30=" []).
  - reflexivity.
  - discriminate.
  - apply incomplete with (json := "{}") (config := JObj []) (key := "splatId").
    + reflexivity.
    + reflexivity.
    + simpl. tauto.
    + intros v Hv. vm_compute in Hv. injection Hv as <-. reflexivity.
Defined.

(** C10.  The resolver looks at splatId, apiOrigin and authToken only: a
    parsed value in which these three are truthy is returned as the
    config, and becomes the module's gsConfig with the save handler
    registered, whatever its userId is (missing, empty, of another
    type). *)
Theorem parseGsConfig_ignores_userId
  (host : Host) (search encoded json : string) (config : JSValue)
  (h : list Event) :
  URL.get (URL.URLSearchParams_new search) "gsConfig" = Some encoded ->
  encoded <> ""%string ->
  atob host encoded = Returned json ->
  JSON_parse host json = Returned config ->
  required_fields_truthy config ->
  parseGsConfig host search h = (Returned (Some config), [])
  /\ fst (initGigaScapeIntegration host search h)
     = Returned {| module_gsConfig := Some config;
                   functions := [("gigascape:save", save_handler host (Some config))] |}.
Proof.
  intros Hget Hne Hj Hc Hvalid.
  pose proof (parseGsConfig_accepts host search encoded json config h
                Hget Hne Hj Hc Hvalid) as Hrun.
  split; [exact Hrun|].
  destruct Hvalid as (s & _ & _ & Hs & _).
  unfold initGigaScapeIntegration, bind. rewrite Hrun.
  unfold_M. now rewrite Hs.
Qed.

Lemma parseGsConfig_ignores_userId_witness :
  get_prop Scenario.config_no_user "userId" = Returned JUndefined
  /\ parseGsConfig Scenario.host_A Scenario.search_no_user []
     = (Returned (Some Scenario.config_no_user), [])
  /\ fst (initGigaScapeIntegration Scenario.host_A Scenario.search_no_user [])
     = Returned {| module_gsConfig := Some Scenario.config_no_user;
                   functions := [("gigascape:save",
                                  save_handler Scenario.host_A
                                    (Some Scenario.config_no_user))] |}.
Proof.
  split; [reflexivity|].
  apply (parseGsConfig_ignores_userId Scenario.host_A Scenario.search_no_user
           (Base64.btoa (Json.stringify Engine.Number_toString Scenario.config_no_user))
           (Json.stringify Engine.Number_toString Scenario.config_no_user)
           Scenario.config_no_user []).
  - vm_compute. reflexivity.
  - vm_compute. discriminate.
  - vm_compute. reflexivity.
  - vm_compute. reflexivity.
  - exists (JStr "s1"), (JStr "https://gigascape.example"), (JStr "tok").
    repeat split; reflexivity.
Defined.

Lemma btoa_not_empty (c : ascii) (s : string) : Base64.btoa (String c s) <> ""%string.
Proof.
  unfold Base64.btoa, Base64.bytes_of_string, Base64.encode_unpadded.
  cbn [list_ascii_of_string map].
  destruct (map N_of_ascii (list_ascii_of_string s)) as [|b [|b' l]];
    cbn [Base64.sextets_of_bytes];
    destruct (Base64.sextets3 _ _ _) as [[[s1 s2] s3] s4]; discriminate.
Qed.

(** C9, amended.  For a config that is an object of string fields with
    distinct keys whose splatId, apiOrigin and authToken are not empty,
    encoded as btoa(JSON.stringify(config)), on a platform whose [atob]
    and [JSON.parse] give on this encoding and on this text what the
    standard algorithms give: the resolver returns the config, unchanged,
    and logs nothing, whenever the gsConfig parameter of the query decodes
    to the encoding.  This is the case of the query ?gsConfig= followed by
    the percent-encoded encoding, and of the query ?gsConfig= followed by
    the encoding itself when it has no plus sign. *)
Theorem parseGsConfig_round_trip
  (host : Host) (StringToNumber : string -> spec_float)
  (Number_toString : spec_float -> string)
  (fields : list (string * string)) (h : list Event) :
  NoDup (map fst fields) ->
  required_fields_truthy (JObj (string_props fields)) ->
  atob host (Base64.btoa (Json.stringify Number_toString (JObj (string_props fields))))
    = Base64.atob
        (Base64.btoa (Json.stringify Number_toString (JObj (string_props fields)))) ->
  JSON_parse host (Json.stringify Number_toString (JObj (string_props fields)))
    = Json.parse StringToNumber
        (Json.stringify Number_toString (JObj (string_props fields))) ->
  let config := JObj (string_props fields) in
  let encoded := Base64.btoa (Json.stringify Number_toString config) in
  (forall search,
     URL.get (URL.URLSearchParams_new search) "gsConfig" = Some encoded ->
     parseGsConfig host search h = (Returned (Some config), []))
  /\ parseGsConfig host ("?gsConfig=" ++ URL.encodeURIComponent encoded)%string h
     = (Returned (Some config), [])
  /\ (free_of "+" encoded ->
      parseGsConfig host ("?gsConfig=" ++ encoded)%string h
      = (Returned (Some config), [])).
Proof.
  intros Hkeys Hvalid Hatob Hparse config encoded.
  assert (Hany : forall search,
             URL.get (URL.URLSearchParams_new search) "gsConfig" = Some encoded ->
             parseGsConfig host search h = (Returned (Some config), [])).
  { intros search Hget.
    apply parseGsConfig_accepts
      with (encoded := encoded) (json := Json.stringify Number_toString config).
    - exact Hget.
    - subst encoded config. rewrite JsonFacts.stringify_string_object.
      apply btoa_not_empty.
    - subst encoded config. rewrite Hatob. apply Base64Facts.atob_btoa.
    - subst config. rewrite Hparse.
      now apply JsonFacts.parse_stringify_string_object.
    - exact Hvalid. }
  split; [exact Hany|]. split.
  - apply Hany, URLFacts.get_gsConfig_encoded.
  - intros Hplus. apply Hany.
    destruct (URLRaw.btoa_plain (Json.stringify Number_toString config))
      as [Hamp Hpercent].
    now apply URLRaw.get_gsConfig_raw.
Qed.

Lemma parseGsConfig_round_trip_witness :
  (forall search,
     URL.get (URL.URLSearchParams_new search) "gsConfig"
       = Some (Base64.btoa (Json.stringify Engine.Number_toString Scenario.config)) ->
     parseGsConfig Scenario.host_A search [] = (Returned (Some Scenario.config), []))
  /\ parseGsConfig Scenario.host_A
       ("?gsConfig="
          ++ URL.encodeURIComponent
               (Base64.btoa (Json.stringify Engine.Number_toString Scenario.config)))%string
       []
     = (Returned (Some Scenario.config), [])
  /\ (free_of "+" (Base64.btoa (Json.stringify Engine.Number_toString Scenario.config)) ->
      parseGsConfig Scenario.host_A
        ("?gsConfig="
           ++ Base64.btoa (Json.stringify Engine.Number_toString Scenario.config))%string
        []
      = (Returned (Some Scenario.config), [])).
Proof.
  apply (parseGsConfig_round_trip Scenario.host_A Engine.StringToNumber
           Engine.Number_toString
           [("splatId", "s1"); ("userId", "u1");
            ("apiOrigin", "https://gigascape.example"); ("authToken", "tok")]%string
           []).
  - repeat constructor; simpl; intuition discriminate.
  - exists (JStr "s1"), (JStr "https://gigascape.example"), (JStr "tok").
    repeat split; reflexivity.
  - reflexivity.
  - reflexivity.
Defined.

(** C9, the claim as stated fails on valid configs.  A config whose token
    is tok~n has a plus sign in its base64: from the query ?gsConfig=
    followed by this base64, the resolver reads a space for the plus sign
    and returns absent.  And a config whose splatId ends with U+00E9,
    encoded as the base64 of the UTF-8 bytes of its JSON text, comes back
    through a percent-encoded query as another config: its splatId has
    the two code units of the UTF-8 sequence in place of the one. *)
Lemma parseGsConfig_round_trip_counterexample :
  required_fields_truthy Encodings.config_tilde
  /\ fst (parseGsConfig Scenario.host_A
            ("?gsConfig="
               ++ Base64.btoa (Json.stringify Engine.Number_toString
                                 Encodings.config_tilde))%string [])
     = Returned None
  /\ ~ free_of "+" (Base64.btoa (Json.stringify Engine.Number_toString
                                   Encodings.config_tilde))
  /\ required_fields_truthy Encodings.config_accent
  /\ (exists other,
        fst (parseGsConfig Scenario.host_A
               ("?gsConfig="
                  ++ URL.encodeURIComponent
                       (Base64.btoa
                          (Utf8.encode (Json.stringify Engine.Number_toString
                                          Encodings.config_accent))))%string [])
        = Returned (Some other)
        /\ other <> Encodings.config_accent).
Proof.
  split; [|split; [|split; [|split]]].
  - exists (JStr "s1"), (JStr "https://gigascape.example"), (JStr "tok~n").
    repeat split; reflexivity.
  - vm_compute. reflexivity.
  - intros Hfree. apply (Hfree "+"%char); [|reflexivity].
    vm_compute. tauto.
  - eexists _, _, _. repeat split; reflexivity.
  - eexists. split; [vm_compute; reflexivity|]. discriminate.
Qed.

(** ** The save handler *)

(** Symbolic execution of the [try] block: unfold the module's functions
    and the monad, then split on the answer of each call out of the module
    and on each test, innermost first. *)
Ltac unfold_run :=
  unfold save_try, save_catch, serializeSceneToPly, getUploadUrl, uploadToGcs,
    notifySaveComplete, gsConfig_prop, events_fire, console_log, console_error,
    console_warn, call_fetch, call_serializePly, events_invoke, try_finally,
    try_catch, bind, ret, throw, lift, emit.

Ltac case_oracle :=
  match goal with
  | |- context [negb (ok ?r)] =>
      destruct (ok r) eqn:?;
      [change (negb true) with false | change (negb false) with true]
  | |- context [serializePly ?host ?h ?a ?b ?c] =>
      destruct (serializePly host h a b c) eqn:?
  | |- context [match fetch ?host ?h ?a with _ => _ end] =>
      destruct (fetch host h a) eqn:?
  | |- context [match invoke ?host ?h ?a ?b with _ => _ end] =>
      destruct (invoke host h a b) eqn:?
  | |- context [match get_prop ?v ?k with _ => _ end] =>
      destruct (get_prop v k) eqn:?
  | |- context [match json ?r with _ => _ end] =>
      destruct (json r) eqn:?
  | |- context [match assoc ?k ?l with _ => _ end] =>
      destruct (assoc k l) eqn:?
  | |- context [if (length ?l =? 0)%nat then _ else _] =>
      destruct (length l =? 0)%nat eqn:?
  end.

Ltac run :=
  unfold_run;
  repeat (lazy beta iota zeta delta [fst snd app]; try case_oracle).

(** A request literal is of the expected phase. *)
Ltac phase_request :=
  first [ split; [reflexivity | do 2 eexists; reflexivity]
        | split; [reflexivity | eexists; reflexivity] ].

(** Place a run, by the requests it sent, in the state machine. *)
Ltac classify :=
  first
    [ solve [ eapply failed_before_network; reflexivity ]
    | solve [ eapply failed_requesting; [reflexivity | phase_request | reflexivity] ]
    | solve [ eapply failed_uploading;
              [ reflexivity | eassumption | phase_request | phase_request
              | reflexivity
              | intros ? [= <-]; split; [assumption | reflexivity] ] ]
    | solve [ eapply failed_uploading;
              [ reflexivity | eassumption | phase_request | phase_request
              | reflexivity
              | intros ? [=] ] ]
    | solve [ eapply failed_confirming;
              [ reflexivity | eassumption | eassumption | phase_request
              | phase_request | phase_request | reflexivity
              | first [ intros ? [= <-]; assumption | intros ? [=] ] ] ]
    | solve [ match goal with
              | H : invoke _ _ _ _ = ?r |- _ =>
                  eapply completed with (shown := r);
                  [ reflexivity | eassumption | eassumption | eassumption
                  | phase_request | phase_request | phase_request
                  | eassumption | eassumption | reflexivity | reflexivity
                  | reflexivity | reflexivity ]
              end ] ].

(** The [try] block refines the state machine. *)
Lemma save_try_attempt host gsConfig scene h :
  Attempt host (fst (save_try host gsConfig scene h))
               (snd (save_try host gsConfig scene h)).
Proof.
  run.
  all: classify.
Qed.

(** *** Observations distribute over the events of a run *)

Lemma fetch_calls_app (a b : list Event) :
  fetch_calls (a ++ b) = (fetch_calls a ++ fetch_calls b)%list.
Proof. apply flat_map_app. Qed.

Lemma fired_app (a b : list Event) : fired (a ++ b) = (fired a ++ fired b)%list.
Proof. apply flat_map_app. Qed.

Lemma popups_app (a b : list Event) : popups (a ++ b) = (popups a ++ popups b)%list.
Proof. apply flat_map_app. Qed.

Lemma serializer_calls_app (a b : list Event) :
  serializer_calls (a ++ b) = (serializer_calls a ++ serializer_calls b)%list.
Proof. apply flat_map_app. Qed.

Lemma fired_none (d : list Event) : Forall not_fire d -> fired d = [].
Proof.
  induction 1 as [|ev d Hev _ IH]; [reflexivity|].
  destruct ev; simpl in *; solve [assumption | contradiction].
Qed.

(** *** Which events a computation can add *)

Section Only.

Context {A B : Type} (P : Event -> Prop).

Lemma only_ret (a : A) : only P (ret a).
Proof. intros h. constructor. Qed.

Lemma only_throw (e : Thrown) : only P (@throw A e).
Proof. intros h. constructor. Qed.

Lemma only_lift (o : Outcome A) : only P (lift o).
Proof. intros h. constructor. Qed.

Lemma only_emit (ev : Event) : P ev -> only P (emit ev).
Proof. intros Hev h. simpl. auto. Qed.

Lemma only_bind (m : M A) (f : A -> M B) :
  only P m -> (forall a, only P (f a)) -> only P (bind m f).
Proof.
  intros Hm Hf h. unfold bind. specialize (Hm h).
  destruct (m h) as [[a|e] d1]; simpl in *; [|assumption].
  specialize (Hf a (h ++ d1)%list).
  destruct (f a (h ++ d1)%list) as [o d2]. simpl in *.
  apply Forall_app. now split.
Qed.

Lemma only_try_catch (m : M A) (handler : Thrown -> M A) :
  only P m -> (forall e, only P (handler e)) -> only P (try_catch m handler).
Proof.
  intros Hm Hc h. unfold try_catch. specialize (Hm h).
  destruct (m h) as [[a|e] d1]; simpl in *; [assumption|].
  specialize (Hc e (h ++ d1)%list).
  destruct (handler e (h ++ d1)%list) as [o d2]. simpl in *.
  apply Forall_app. now split.
Qed.

End Only.

Lemma only_call_fetch (P : Event -> Prop) host req :
  (forall r, P (EvFetch req r)) -> only P (call_fetch host req).
Proof. intros HP h. simpl. auto. Qed.

Lemma only_call_serializePly (P : Event -> Prop) host splats settings memFs :
  (forall r, P (EvSerialize splats settings r)) ->
  only P (call_serializePly host splats settings memFs).
Proof. intros HP h. simpl. auto. Qed.

Lemma only_events_invoke (P : Event -> Prop) host name payload :
  (forall r, P (EvInvoke name payload r)) -> only P (events_invoke host name payload).
Proof. intros HP h. simpl. auto. Qed.

(** Decompose a computation along its binds and branches. *)
Ltac only_steps :=
  repeat first
    [ apply only_ret | apply only_throw | apply only_lift
    | apply only_emit; exact I
    | apply only_call_fetch; intros; exact I
    | apply only_call_serializePly; intros; exact I
    | apply only_events_invoke; intros; exact I
    | apply only_bind; [|intros ?]
    | match goal with
      | |- only _ (if ?b then _ else _) => destruct b
      | |- only _ (match ?x with _ => _ end) => destruct x
      | |- only _ (let _ := _ in _) => cbv zeta
      end ].

(** Nothing but the handler itself fires events on the bus. *)
Lemma save_try_fires_nothing host gsConfig scene :
  only not_fire (save_try host gsConfig scene).
Proof.
  unfold save_try, serializeSceneToPly, getUploadUrl, uploadToGcs,
    notifySaveComplete, gsConfig_prop, console_log.
  only_steps.
Qed.

Lemma save_catch_fires_nothing host e : only not_fire (save_catch host e).
Proof. unfold save_catch, console_error. only_steps. Qed.

Lemma save_catch_sends_nothing host e : only not_fetch (save_catch host e).
Proof. unfold save_catch, console_error. only_steps. Qed.

Lemma fetch_calls_none (d : list Event) : Forall not_fetch d -> fetch_calls d = [].
Proof.
  induction 1 as [|ev d Hev _ IH]; [reflexivity|].
  destruct ev; simpl in *; solve [assumption | contradiction].
Qed.

(** *** The handler around its [try] block *)

(** The events of the handler: startSpinner, the [try] block, the [catch]
    block when the [try] block raised, stopSpinner. *)
Lemma save_handler_events host gsConfig scene h :
  snd (save_handler host gsConfig scene h)
  = EvFire "startSpinner"
      :: (snd (save_try host gsConfig scene (h ++ [EvFire "startSpinner"]))
          ++ match fst (save_try host gsConfig scene (h ++ [EvFire "startSpinner"])) with
             | Returned _ => []
             | Raised e =>
                 snd (save_catch host e
                        ((h ++ [EvFire "startSpinner"])
                           ++ snd (save_try host gsConfig scene
                                     (h ++ [EvFire "startSpinner"]))))
             end
          ++ [EvFire "stopSpinner"])%list.
Proof.
  unfold save_handler, try_finally, try_catch, bind, events_fire, emit.
  cbn [fst snd app].
  destruct (save_try host gsConfig scene (h ++ [EvFire "startSpinner"]))
    as [[[]|e] d]; cbn [fst snd app].
  - reflexivity.
  - destruct (save_catch host e ((h ++ [EvFire "startSpinner"]) ++ d)) as [o d'].
    cbn [fst snd]. now rewrite <- app_assoc.
Qed.

Lemma save_catch_popups host e h :
  popups (snd (save_catch host e h))
  = match thrown_message e with
    | Returned message =>
        [error_popup (or_else message (JStr "Unknown error while saving to GigaScape"))]
    | Raised _ => []
    end.
Proof.
  unfold save_catch, console_error, events_invoke, bind, lift, emit, ret.
  cbn [fst snd app].
  destruct (thrown_message e) as [m|e']; cbn [fst snd app]; [|reflexivity].
  destruct (invoke host _ _ _); reflexivity.
Qed.

Lemma save_handler_fetch_calls host gsConfig scene h :
  fetch_calls (snd (save_handler host gsConfig scene h))
  = fetch_calls (snd (save_try host gsConfig scene (h ++ [EvFire "startSpinner"]))).
Proof.
  rewrite save_handler_events. cbn [fetch_calls flat_map app].
  fold (fetch_calls). rewrite !fetch_calls_app.
  destruct (fst (save_try _ _ _ _)) as [u|e].
  - now rewrite app_nil_r.
  - rewrite (fetch_calls_none _ (save_catch_sends_nothing host e _)).
    now rewrite app_nil_r.
Qed.

Lemma save_handler_popups host gsConfig scene h :
  popups (snd (save_handler host gsConfig scene h))
  = (popups (snd (save_try host gsConfig scene (h ++ [EvFire "startSpinner"])))
     ++ match fst (save_try host gsConfig scene (h ++ [EvFire "startSpinner"])) with
        | Returned _ => []
        | Raised e =>
            match thrown_message e with
            | Returned message =>
                [error_popup
                   (or_else message (JStr "Unknown error while saving to GigaScape"))]
            | Raised _ => []
            end
        end)%list.
Proof.
  rewrite save_handler_events. cbn [popups flat_map app]. fold popups.
  rewrite !popups_app. cbn [popups flat_map app]. rewrite app_nil_r.
  destruct (fst (save_try _ _ _ _)) as [u|e]; [reflexivity|].
  now rewrite save_catch_popups.
Qed.

(** C3.  Every run of the save handler fires startSpinner once and
    stopSpinner once, in this order, and no other event: whether the save
    succeeds, a phase fails, or the call that shows the modal raises.
    startSpinner is the first event of the run and stopSpinner the last. *)
Theorem spinner_fired_once_each_in_order
  (host : Host) (gsConfig : option JSValue) (scene : Scene) (h : list Event) :
  fired (snd (save_handler host gsConfig scene h)) = ["startSpinner"; "stopSpinner"]
  /\ exists between,
       snd (save_handler host gsConfig scene h)
       = EvFire "startSpinner" :: between ++ [EvFire "stopSpinner"]
       /\ fired between = [].
Proof.
  rewrite save_handler_events.
  assert (Hbetween :
    fired (snd (save_try host gsConfig scene (h ++ [EvFire "startSpinner"]))
           ++ match fst (save_try host gsConfig scene (h ++ [EvFire "startSpinner"])) with
              | Returned _ => []
              | Raised e =>
                  snd (save_catch host e
                         ((h ++ [EvFire "startSpinner"])
                            ++ snd (save_try host gsConfig scene
                                      (h ++ [EvFire "startSpinner"]))))
              end) = []).
  { rewrite fired_app.
    rewrite (fired_none _ (save_try_fires_nothing host gsConfig scene _)).
    destruct (fst (save_try _ _ _ _)) as [u|e]; [reflexivity|].
    now rewrite (fired_none _ (save_catch_fires_nothing host e _)). }
  split.
  - cbn [fired flat_map app]. fold fired. rewrite app_assoc, fired_app, Hbetween.
    reflexivity.
  - eexists. split; [|exact Hbetween]. now rewrite app_assoc.
Qed.

(** *** Lists of at most three calls *)

Lemma split_singleton {X : Type} (x y : X) (pre rest : list X) :
  [x] = (pre ++ y :: rest)%list -> pre = [] /\ y = x /\ rest = [].
Proof.
  destruct pre as [|p pre]; simpl; intros H.
  - injection H as -> <-. auto.
  - injection H as _ H. destruct pre; discriminate.
Qed.

Lemma split_pair {X : Type} (x1 x2 y : X) (pre rest : list X) :
  [x1; x2] = (pre ++ y :: rest)%list ->
  (pre = [] /\ y = x1 /\ rest = [x2]) \/ (pre = [x1] /\ y = x2 /\ rest = []).
Proof.
  destruct pre as [|p pre]; simpl; intros H.
  - injection H as -> <-. auto.
  - injection H as -> H. apply split_singleton in H as (-> & -> & ->). auto.
Qed.

Lemma split_triple {X : Type} (x1 x2 x3 y : X) (pre rest : list X) :
  [x1; x2; x3] = (pre ++ y :: rest)%list ->
  (pre = [] /\ y = x1 /\ rest = [x2; x3])
  \/ (pre = [x1] /\ y = x2 /\ rest = [x3])
  \/ (pre = [x1; x2] /\ y = x3 /\ rest = []).
Proof.
  destruct pre as [|p pre]; simpl; intros H.
  - injection H as -> <-. auto.
  - injection H as -> H. apply split_pair in H as [(-> & -> & ->)|(-> & -> & ->)]; auto.
Qed.

(** The requests of an attempt come in phase order, and a request that
    ended with a non-success response is the last one. *)
Lemma attempt_gated host o d :
  Attempt host o d ->
  in_phase_order (map fst (fetch_calls d))
  /\ forall pre req res rest,
       fetch_calls d = (pre ++ (req, Returned res) :: rest)%list ->
       ok res = false -> rest = [].
Proof.
  intros [e d' Hc _ | e d' req1 r1 Hc H1 _
         | e d' req1 res1 req2 r2 Hc Hok1 H1 H2 _ Hr2
         | e d' req1 res1 req2 res2 req3 r3 Hc Hok1 Hok2 H1 H2 H3 _ Hr3
         | o' d' req1 res1 req2 res2 req3 res3 ticket splatId storagePath shown
             Hc Hok1 Hok2 Hok3 H1 H2 H3 _ _ _ _ _ _];
    rewrite Hc; (split; [simpl; tauto|]); intros pre req res rest Hsplit Hko.
  - destruct pre; discriminate.
  - now apply split_singleton in Hsplit as (_ & _ & ->).
  - apply split_pair in Hsplit as [(_ & [= -> ->] & _)|(_ & _ & ->)];
      [congruence | reflexivity].
  - apply split_triple in Hsplit
      as [(_ & [= -> ->] & _)|[(_ & [= -> ->] & _)|(_ & _ & ->)]];
      [congruence | congruence | reflexivity].
  - apply split_triple in Hsplit
      as [(_ & [= -> ->] & _)|[(_ & [= -> ->] & _)|(_ & _ & ->)]];
      [congruence | congruence | reflexivity].
Qed.

(** C1.  In every run of the save handler the requests are sent in phase
    order (upload-URL POST, storage PUT, confirmation POST), and a request
    answered with a non-success status is the last one sent: after such an
    answer to phase 1 neither the PUT nor the confirmation is sent, after
    such an answer to phase 2 the confirmation is not sent. *)
Theorem save_failed_phase_stops_pipeline
  (host : Host) (gsConfig : option JSValue) (scene : Scene) (h : list Event)
  (pre : list (Request * Outcome Response)) (req : Request) (res : Response)
  (rest : list (Request * Outcome Response)) :
  fetch_calls (snd (save_handler host gsConfig scene h))
    = (pre ++ (req, Returned res) :: rest)%list ->
  ok res = false ->
  rest = []
  /\ in_phase_order (map fst (fetch_calls (snd (save_handler host gsConfig scene h)))).
Proof.
  rewrite save_handler_fetch_calls. intros Hsplit Hko.
  destruct (attempt_gated _ _ _ (save_try_attempt host gsConfig scene
                                   (h ++ [EvFire "startSpinner"])))
    as [Horder Hlast].
  split; [now apply (Hlast pre req res rest) | exact Horder].
Qed.

Lemma save_failed_phase_stops_pipeline_witness :
  fetch_calls (snd (save_handler Scenario.host_B (Some Scenario.config)
                      Scenario.one_splat []))
    = [({| url := "https://gigascape.example/api/supersplat/upload-url";
           method := "POST";
           headers := [("Authorization", "Bearer tok");
                       ("Content-Type", "application/json")];
           body := BodyText (JSON_stringify Scenario.host_B
                               (JObj [("splatId", JStr "s1");
                                      ("fileSize", JNum (Number_of_N 4))])) |},
        Returned {| status := 403;
                    json := Returned (JObj [("error", JStr "token expired")]) |})]
  /\ ([] : list (Request * Outcome Response)) = []
  /\ in_phase_order
       (map fst (fetch_calls (snd (save_handler Scenario.host_B (Some Scenario.config)
                                     Scenario.one_splat [])))).
Proof.
  split; [reflexivity|].
  apply (save_failed_phase_stops_pipeline Scenario.host_B (Some Scenario.config)
           Scenario.one_splat [] []
           {| url := "https://gigascape.example/api/supersplat/upload-url";
              method := "POST";
              headers := [("Authorization", "Bearer tok");
                          ("Content-Type", "application/json")];
              body := BodyText (JSON_stringify Scenario.host_B
                                  (JObj [("splatId", JStr "s1");
                                         ("fileSize", JNum (Number_of_N 4))])) |}
           {| status := 403;
              json := Returned (JObj [("error", JStr "token expired")]) |}
           []).
  - reflexivity.
  - reflexivity.
Defined.

(** *** The empty scene *)

Lemma filter_filter {X : Type} (f g : X -> bool) (l : list X) :
  filter g (filter f l) = filter (fun x => f x && g x) l.
Proof.
  induction l as [|x l IH]; [reflexivity|]. simpl.
  destruct (f x); simpl; [destruct (g x)|]; now rewrite IH.
Qed.

Lemma save_catch_serializes_nothing host e : only not_serialize (save_catch host e).
Proof. unfold save_catch, console_error. only_steps. Qed.

Lemma serializer_calls_none (d : list Event) :
  Forall not_serialize d -> serializer_calls d = [].
Proof.
  induction 1 as [|ev d Hev _ IH]; [reflexivity|].
  destruct ev; simpl in *; solve [assumption | contradiction].
Qed.

Lemma serializeSceneToPly_empty host scene h :
  exportable scene = [] ->
  serializeSceneToPly host scene h = (Raised (new_Error "No splats to save"), []).
Proof.
  unfold exportable, serializeSceneToPly. rewrite filter_filter.
  intros ->. reflexivity.
Qed.

Lemma save_try_empty host gsConfig scene h :
  exportable scene = [] ->
  save_try host gsConfig scene h = (Raised (new_Error "No splats to save"), []).
Proof.
  intros Hempty. unfold save_try, bind.
  now rewrite (serializeSceneToPly_empty host scene h Hempty).
Qed.

(** C2.  When no point-cloud splat of the scene is visible with content
    count above 0, [serializeSceneToPly] raises Error('No splats to save')
    without an event: the external serializer is not called.  The save
    attempt then makes no fetch call and no serializer call, and shows the
    error modal with that message. *)
Theorem empty_scene_raises_before_any_call
  (host : Host) (gsConfig : option JSValue) (scene : Scene) (h : list Event) :
  exportable scene = [] ->
  serializeSceneToPly host scene h = (Raised (new_Error "No splats to save"), [])
  /\ fetch_calls (snd (save_handler host gsConfig scene h)) = []
  /\ serializer_calls (snd (save_handler host gsConfig scene h)) = []
  /\ popups (snd (save_handler host gsConfig scene h))
     = [error_popup (JStr "No splats to save")].
Proof.
  intros Hempty. split; [now apply serializeSceneToPly_empty|].
  split; [|split].
  - rewrite save_handler_fetch_calls.
    now rewrite (save_try_empty host gsConfig scene _ Hempty).
  - rewrite save_handler_events.
    rewrite (save_try_empty host gsConfig scene _ Hempty).
    cbn [fst snd app serializer_calls flat_map]. fold serializer_calls.
    rewrite serializer_calls_app.
    now rewrite (serializer_calls_none _ (save_catch_serializes_nothing host _ _)).
  - rewrite save_handler_popups.
    now rewrite (save_try_empty host gsConfig scene _ Hempty).
Qed.

Lemma empty_scene_raises_before_any_call_witness :
  serializeSceneToPly Scenario.host_A Scenario.nothing_to_save []
    = (Raised (new_Error "No splats to save"), [])
  /\ fetch_calls (snd (save_handler Scenario.host_A (Some Scenario.config)
                         Scenario.nothing_to_save [])) = []
  /\ serializer_calls (snd (save_handler Scenario.host_A (Some Scenario.config)
                              Scenario.nothing_to_save [])) = []
  /\ popups (snd (save_handler Scenario.host_A (Some Scenario.config)
                    Scenario.nothing_to_save []))
     = [error_popup (JStr "No splats to save")].
Proof.
  apply (empty_scene_raises_before_any_call Scenario.host_A (Some Scenario.config)
           Scenario.nothing_to_save []).
  reflexivity.
Defined.

(** *** Failure of the upload *)

Lemma uploadToGcs_rejected host uploadUrl data h req res :
  snd (uploadToGcs host uploadUrl data h) = [EvFetch req (Returned res)] ->
  ok res = false ->
  fst (uploadToGcs host uploadUrl data h)
  = Raised (new_Error ("Upload to GCS failed (" ++ dec (status res) ++ ")")%string).
Proof.
  unfold uploadToGcs, call_fetch, bind. cbn [fst snd app].
  destruct (fetch host h _) as [res'|e]; cbn [fst snd app].
  - destruct (ok res') eqn:Hok; cbn [negb fst snd app throw ret].
    + intros [= _ <-]. congruence.
    + intros [= _ <-] _. reflexivity.
  - intros [= _ [=]].
Qed.

(** C5.  When the phase-2 PUT is answered with a non-success status s,
    [uploadToGcs] raises Error('Upload to GCS failed (s)'), whatever the
    body of the response, and the save handler asks for exactly one
    modal: of type error, with header Save Failed, whose message is
    exactly this text. *)
Theorem upload_failure_message
  (host : Host) (gsConfig : option JSValue) (scene : Scene) (h : list Event)
  (c1 : Request * Outcome Response) (req : Request) (res : Response)
  (rest : list (Request * Outcome Response)) :
  fetch_calls (snd (save_handler host gsConfig scene h))
    = c1 :: (req, Returned res) :: rest ->
  ok res = false ->
  is_storage_put req
  /\ popups (snd (save_handler host gsConfig scene h))
     = [{| type := "error";
           header := "Save Failed";
           message := JStr ("Upload to GCS failed (" ++ dec (status res) ++ ")")%string |}]
  /\ forall uploadUrl data h' req',
       snd (uploadToGcs host uploadUrl data h') = [EvFetch req' (Returned res)] ->
       fst (uploadToGcs host uploadUrl data h')
       = Raised (new_Error ("Upload to GCS failed (" ++ dec (status res) ++ ")")%string).
Proof.
  intros Hcalls Hko.
  assert (Hrun : is_storage_put req
                 /\ popups (snd (save_handler host gsConfig scene h))
                    = [{| type := "error";
                          header := "Save Failed";
                          message := JStr (upload_failed_message res) |}]).
  { rewrite save_handler_fetch_calls in Hcalls. rewrite save_handler_popups.
    destruct (save_try_attempt host gsConfig scene (h ++ [EvFire "startSpinner"]))
      as [e d Hc _ | e d req1 r1 Hc _ _
         | e d req1 res1 req2 r2 Hc _ _ Hput Hp Hr2
         | e d req1 res1 req2 res2 req3 r3 Hc _ Hok2 _ _ _ _ _
         | o d req1 res1 req2 res2 req3 res3 ticket splatId storagePath shown
             Hc _ Hok2 _ _ _ _ _ _ _ _ _ _];
      rewrite Hc in Hcalls; try discriminate.
    - injection Hcalls as _ Hreq Hres _. subst r2 req2.
      destruct (Hr2 res eq_refl) as [_ ->]. rewrite Hp. split; [exact Hput|reflexivity].
    - injection Hcalls as _ _ Hres _. congruence.
    - injection Hcalls as _ _ Hres _. congruence. }
  destruct Hrun as [Hput Hshown]. split; [exact Hput|]. split; [exact Hshown|].
  intros uploadUrl data h' req' Hev. now apply uploadToGcs_rejected with (req := req').
Qed.

Lemma upload_failure_message_witness :
  popups (snd (save_handler Scenario.host_C (Some Scenario.config) Scenario.one_splat []))
    = [{| type := "error";
          header := "Save Failed";
          message := JStr "Upload to GCS failed (500)" |}]
  /\ fst (uploadToGcs Scenario.host_C
            (JStr "https://storage.example/bucket/s1?signature=abc") Scenario.ply [])
     = Raised (ThrowError "Error" "Upload to GCS failed (500)").
Proof.
  pose proof (upload_failure_message Scenario.host_C (Some Scenario.config)
                Scenario.one_splat []
                ({| url := "https://gigascape.example/api/supersplat/upload-url";
                    method := "POST";
                    headers := [("Authorization", "Bearer tok");
                                ("Content-Type", "application/json")];
                    body := BodyText (JSON_stringify Scenario.host_C
                                        (JObj [("splatId", JStr "s1");
                                               ("fileSize", JNum (Number_of_N 4))])) |},
                 Returned {| status := 200; json := Returned Scenario.ticket |})
                {| url := "https://storage.example/bucket/s1?signature=abc";
                   method := "PUT";
                   headers := [("Content-Type", "application/octet-stream")];
                   body := BodyBlob (buffer Scenario.ply) "application/octet-stream" |}
                {| status := 500; json := Scenario.no_json |}
                [] eq_refl eq_refl) as (_ & Hshown & Hraised).
  split; [exact Hshown|].
  exact (Hraised (JStr "https://storage.example/bucket/s1?signature=abc")
           Scenario.ply [] _ eq_refl).
Defined.

(** *** The three requests succeed *)

Lemma popups_returned_app (a b : list Event) :
  popups_returned (a ++ b) = popups_returned a ++ popups_returned b.
Proof. apply flat_map_app. Qed.

(** The [catch] block shows error modals only. *)
Lemma save_catch_shows_errors host e h p :
  In p (popups_returned (snd (save_catch host e h))) -> type p = "error".
Proof.
  unfold save_catch, console_error, events_invoke, bind, lift, emit, ret.
  cbn [fst snd app].
  destruct (thrown_message e) as [m|e']; cbn [fst snd app]; [|intros []].
  destruct (invoke host _ _ _); cbn [fst snd app popups_returned flat_map];
    [|intros []].
  change ("showPopup" =? "showPopup")%string with true. cbn [app In].
  intros [Hp|[]]. now subst p.
Qed.

Lemma save_handler_popups_returned host gsConfig scene h :
  popups_returned (snd (save_handler host gsConfig scene h))
  = popups_returned (snd (save_try host gsConfig scene (h ++ [EvFire "startSpinner"])))
    ++ match fst (save_try host gsConfig scene (h ++ [EvFire "startSpinner"])) with
       | Returned _ => []
       | Raised e =>
           popups_returned
             (snd (save_catch host e
                     ((h ++ [EvFire "startSpinner"])
                        ++ snd (save_try host gsConfig scene
                                  (h ++ [EvFire "startSpinner"])))))
       end.
Proof.
  rewrite save_handler_events. cbn [popups_returned flat_map app].
  fold popups_returned. rewrite !popups_returned_app.
  cbn [popups_returned flat_map app]. rewrite app_nil_r.
  now destruct (fst (save_try _ _ _ _)).
Qed.

(** C6, amended.  When the three requests of a save attempt are answered
    with success statuses, the confirmation body carries the storagePath
    read from the phase-1 response, and the success modal is the first
    modal asked for; when its display call returns, it is the only modal
    of the attempt, hence the final one. *)
Theorem all_phases_succeed_shows_success
  (host : Host) (gsConfig : option JSValue) (scene : Scene) (h : list Event)
  (req1 : Request) (res1 : Response) (req2 : Request) (res2 : Response)
  (req3 : Request) (res3 : Response) :
  fetch_calls (snd (save_handler host gsConfig scene h))
    = [(req1, Returned res1); (req2, Returned res2); (req3, Returned res3)] ->
  ok res1 = true -> ok res2 = true -> ok res3 = true ->
  (is_upload_url_request req1 /\ is_storage_put req2 /\ is_save_complete_request req3)
  /\ (exists ticket splatId storagePath,
     json res1 = Returned ticket
     /\ get_prop ticket "storagePath" = Returned storagePath
     /\ body req3
        = BodyText (JSON_stringify host
                      (JObj [("splatId", splatId); ("storagePath", storagePath)])))
  /\ (exists more, popups (snd (save_handler host gsConfig scene h))
                   = success_popup :: more)
  /\ (In success_popup (popups_returned (snd (save_handler host gsConfig scene h))) ->
      popups (snd (save_handler host gsConfig scene h)) = [success_popup]).
Proof.
  intros Hcalls Hok1 Hok2 Hok3.
  rewrite save_handler_fetch_calls in Hcalls.
  rewrite save_handler_popups, save_handler_popups_returned.
  destruct (save_try_attempt host gsConfig scene (h ++ [EvFire "startSpinner"]))
    as [e d Hc _ | e d q1 r1 Hc _ _
       | e d q1 s1 q2 r2 Hc _ _ _ _ _
       | e d q1 s1 q2 s2 q3 r3 Hc _ _ _ _ _ _ Hr3
       | o d q1 s1 q2 s2 q3 s3 ticket splatId storagePath shown
           Hc _ _ _ H1 H2 H3 Hticket Hpath Hbody Hp Hshown Ho];
    rewrite Hc in Hcalls; try discriminate.
  - injection Hcalls as _ _ _ _ _ Hres. subst r3.
    specialize (Hr3 res3 eq_refl). congruence.
  - injection Hcalls as <- <- <- <- <- <-.
    split; [exact (conj H1 (conj H2 H3))|].
    split; [now exists ticket, splatId, storagePath|].
    rewrite Hp, Hshown. subst o. split.
    + cbn [app]. eauto.
    + destruct shown as [v|e]; [intros _; reflexivity|].
      cbn [app]. intros Hin. apply save_catch_shows_errors in Hin. discriminate.
Qed.

Lemma all_phases_succeed_shows_success_witness :
  (is_upload_url_request
     {| url := "https://gigascape.example/api/supersplat/upload-url";
        method := "POST";
        headers := [("Authorization", "Bearer tok");
                    ("Content-Type", "application/json")];
        body := BodyText (JSON_stringify Scenario.host_A
                            (JObj [("splatId", JStr "s1");
                                   ("fileSize", JNum (Number_of_N 4))])) |}
   /\ is_storage_put
        {| url := "https://storage.example/bucket/s1?signature=abc";
           method := "PUT";
           headers := [("Content-Type", "application/octet-stream")];
           body := BodyBlob (buffer Scenario.ply) "application/octet-stream" |}
   /\ is_save_complete_request
        {| url := "https://gigascape.example/api/supersplat/save-complete";
           method := "POST";
           headers := [("Authorization", "Bearer tok");
                       ("Content-Type", "application/json")];
           body := BodyText (JSON_stringify Scenario.host_A
                               (JObj [("splatId", JStr "s1");
                                      ("storagePath", JStr "splats/s1/edited.ply")])) |})
  /\ (exists ticket splatId storagePath,
     Returned Scenario.ticket = Returned ticket
     /\ get_prop ticket "storagePath" = Returned storagePath
     /\ BodyText (JSON_stringify Scenario.host_A
                    (JObj [("splatId", JStr "s1");
                           ("storagePath", JStr "splats/s1/edited.ply")]))
        = BodyText (JSON_stringify Scenario.host_A
                      (JObj [("splatId", splatId); ("storagePath", storagePath)])))
  /\ (exists more,
        popups (snd (save_handler Scenario.host_A (Some Scenario.config)
                       Scenario.one_splat []))
        = success_popup :: more)
  /\ (In success_popup
        (popups_returned (snd (save_handler Scenario.host_A (Some Scenario.config)
                                 Scenario.one_splat []))) ->
      popups (snd (save_handler Scenario.host_A (Some Scenario.config)
                     Scenario.one_splat []))
      = [success_popup]).
Proof.
  exact (all_phases_succeed_shows_success Scenario.host_A (Some Scenario.config)
           Scenario.one_splat []
           {| url := "https://gigascape.example/api/supersplat/upload-url";
              method := "POST";
              headers := [("Authorization", "Bearer tok");
                          ("Content-Type", "application/json")];
              body := BodyText (JSON_stringify Scenario.host_A
                                  (JObj [("splatId", JStr "s1");
                                         ("fileSize", JNum (Number_of_N 4))])) |}
           {| status := 200; json := Returned Scenario.ticket |}
           {| url := "https://storage.example/bucket/s1?signature=abc";
              method := "PUT";
              headers := [("Content-Type", "application/octet-stream")];
              body := BodyBlob (buffer Scenario.ply) "application/octet-stream" |}
           {| status := 200; json := Scenario.no_json |}
           {| url := "https://gigascape.example/api/supersplat/save-complete";
              method := "POST";
              headers := [("Authorization", "Bearer tok");
                          ("Content-Type", "application/json")];
              body := BodyText (JSON_stringify Scenario.host_A
                                  (JObj [("splatId", JStr "s1");
                                         ("storagePath", JStr "splats/s1/edited.ply")])) |}
           {| status := 200; json := Returned (JObj []) |}
           eq_refl eq_refl eq_refl eq_refl).
Defined.

(** C6, the claim as stated fails when the host cannot show the success
    modal: the three requests succeed, the display call raises inside the
    [try] block, and the [catch] block shows Save Failed, the last modal
    of the attempt and the only one whose display call returns. *)
Lemma success_modal_counterexample :
  map (fun c => match snd c with Returned res => ok res | Raised _ => false end)
    (fetch_calls (snd (save_handler Scenario.host_modal_info_fails
                         (Some Scenario.config) Scenario.one_splat [])))
  = [true; true; true]
  /\ popups (snd (save_handler Scenario.host_modal_info_fails
                    (Some Scenario.config) Scenario.one_splat []))
     = [success_popup; error_popup (JStr "popup unavailable")]
  /\ popups_returned (snd (save_handler Scenario.host_modal_info_fails
                             (Some Scenario.config) Scenario.one_splat []))
     = [error_popup (JStr "popup unavailable")]
  /\ error_popup (JStr "popup unavailable") <> success_popup.
Proof. repeat split; try reflexivity. discriminate. Qed.

(** *** Error messages of the three phases *)

(** The value read as [err.error] and the message built from it. *)
Lemma server_error_preferred host (s template : string) :
  s <> ""%string -> str host (or_else (JStr s) (JStr template)) = s.
Proof.
  intros Hs. apply String.eqb_neq in Hs. unfold or_else. cbn [truthy].
  now rewrite Hs.
Qed.

Lemma template_when_falsy host (e : JSValue) (template : string) :
  truthy e = false -> str host (or_else e (JStr template)) = template.
Proof. intros He. unfold or_else. now rewrite He. Qed.

Lemma get_prop_own (key : string) (x : JSValue) :
  get_prop (JObj [(key, x)]) key = Returned x.
Proof. unfold get_prop, assoc. now rewrite String.eqb_refl. Qed.

(** An API phase whose request was answered with a non-success response:
    run it to its [throw], by what the body of the response gives. *)
Ltac phase_answered :=
  unfold gsConfig_prop, call_fetch, bind, lift, json_or_http_error, throw, ret;
  cbn [fst snd app];
  repeat match goal with
  | |- context [match get_prop ?v ?k with _ => _ end] =>
      destruct (get_prop v k); cbn [fst snd app]; [|discriminate]
  end;
  match goal with
  | |- context [fetch ?host ?h ?r] =>
      destruct (fetch host h r); cbn [fst snd app]; [|intros [= _ [=]]]
  end;
  match goal with
  | |- context [negb (ok ?r)] =>
      destruct (ok r) eqn:?; cbn [negb fst snd app];
      [ intros Hev; inversion Hev; subst; congruence |]
  end;
  match goal with
  | |- context [match json ?r with _ => _ end] => destruct (json r) eqn:?
  end;
  rewrite ?get_prop_own;
  repeat match goal with
  | |- context [match get_prop ?v ?k with _ => _ end] =>
      destruct (get_prop v k) eqn:?
  end;
  cbn [fst snd app]; intros Hev; inversion Hev; subst; clear Hev;
  repeat split; intros;
  repeat match goal with
  | H1 : ?a = Returned _, H2 : ?a = _ |- _ =>
      rewrite H1 in H2; inversion H2; subst; clear H2
  end;
  try discriminate;
  first [ now rewrite server_error_preferred
        | now rewrite server_error_preferred by discriminate
        | now rewrite template_when_falsy
        | reflexivity ].

(** C4, amended.  On a non-success response, phase 1 and phase 3 raise an
    error whose message is the error string of the JSON body when it has a
    non-empty one, the phase's template with the status when the JSON body
    has no truthy error, and HTTP with the status when the body is not
    JSON; phase 2 raises its template with the status whatever the
    body. *)
Theorem error_normalization_by_phase
  (host : Host) (gsConfig : option JSValue) (res : Response) :
  ok res = false ->
  (forall fileSize h req,
     snd (getUploadUrl host gsConfig fileSize h) = [EvFetch req (Returned res)] ->
     (forall v s, json res = Returned v -> get_prop v "error" = Returned (JStr s) ->
                  s <> ""%string ->
                  fst (getUploadUrl host gsConfig fileSize h) = Raised (new_Error s))
     /\ (forall v e, json res = Returned v -> get_prop v "error" = Returned e ->
                     truthy e = false ->
                     fst (getUploadUrl host gsConfig fileSize h)
                     = Raised (new_Error
                                 ("Failed to get upload URL (" ++ dec (status res) ++ ")")%string))
     /\ (forall e, json res = Raised e ->
                   fst (getUploadUrl host gsConfig fileSize h)
                   = Raised (new_Error ("HTTP " ++ dec (status res))%string)))
  /\ (forall storagePath h req,
        snd (notifySaveComplete host gsConfig storagePath h)
          = [EvFetch req (Returned res)] ->
        (forall v s, json res = Returned v -> get_prop v "error" = Returned (JStr s) ->
                     s <> ""%string ->
                     fst (notifySaveComplete host gsConfig storagePath h)
                     = Raised (new_Error s))
        /\ (forall v e, json res = Returned v -> get_prop v "error" = Returned e ->
                        truthy e = false ->
                        fst (notifySaveComplete host gsConfig storagePath h)
                        = Raised (new_Error
                                    ("Save notification failed (" ++ dec (status res) ++ ")")%string))
        /\ (forall e, json res = Raised e ->
                      fst (notifySaveComplete host gsConfig storagePath h)
                      = Raised (new_Error ("HTTP " ++ dec (status res))%string)))
  /\ (forall uploadUrl data h req,
        snd (uploadToGcs host uploadUrl data h) = [EvFetch req (Returned res)] ->
        fst (uploadToGcs host uploadUrl data h)
        = Raised (new_Error ("Upload to GCS failed (" ++ dec (status res) ++ ")")%string)).
Proof.
  intros Hko. split; [|split].
  - intros fileSize h req. unfold getUploadUrl. phase_answered.
  - intros storagePath h req. unfold notifySaveComplete. phase_answered.
  - intros uploadUrl data h req Hev.
    now apply uploadToGcs_rejected with (req := req).
Qed.

Lemma error_normalization_by_phase_witness :
  fst (getUploadUrl Scenario.host_B (Some Scenario.config) 4 [])
  = Raised (new_Error "token expired").
Proof.
  destruct (error_normalization_by_phase Scenario.host_B (Some Scenario.config)
              {| status := 403;
                 json := Returned (JObj [("error", JStr "token expired")]) |}
              eq_refl) as [Hphase1 _].
  destruct (Hphase1 4%N [] _ eq_refl) as [Hstring _].
  apply (Hstring (JObj [("error", JStr "token expired")]) "token expired").
  - reflexivity.
  - reflexivity.
  - discriminate.
Defined.

(** C4, the claim as stated fails.  Phase 2 does not read the body: a 500
    whose JSON body carries the error string quota exceeded raises the
    template message.  And a phase-1 403 whose body is not JSON raises
    HTTP 403, not the template of the phase. *)
Lemma error_normalization_counterexample :
  fetch Scenario.host_put_error_body []
    {| url := "https://storage.example/bucket/s1?signature=abc";
       method := "PUT";
       headers := [("Content-Type", "application/octet-stream")];
       body := BodyBlob (buffer Scenario.ply) "application/octet-stream" |}
  = Returned {| status := 500;
                json := Returned (JObj [("error", JStr "quota exceeded")]) |}
  /\ fst (uploadToGcs Scenario.host_put_error_body
            (JStr "https://storage.example/bucket/s1?signature=abc") Scenario.ply [])
     = Raised (new_Error "Upload to GCS failed (500)")
  /\ new_Error "Upload to GCS failed (500)" <> new_Error "quota exceeded"
  /\ fst (getUploadUrl Scenario.host_403_no_json (Some Scenario.config) 4 [])
     = Raised (new_Error "HTTP 403")
  /\ new_Error "HTTP 403" <> new_Error "Failed to get upload URL (403)".
Proof. repeat split; try reflexivity; discriminate. Qed.

(** ** The end-to-end scenarios *)

(** Scenario A: the three requests succeed; the success modal is the only
    one, and the confirmation carries the storagePath of the ticket. *)
Example scenario_A :
  fst (save_handler Scenario.host_A (Some Scenario.config) Scenario.one_splat [])
    = Returned tt
  /\ popups (snd (save_handler Scenario.host_A (Some Scenario.config)
                    Scenario.one_splat []))
     = [success_popup]
  /\ map (fun c => body (fst c))
       (fetch_calls (snd (save_handler Scenario.host_A (Some Scenario.config)
                            Scenario.one_splat [])))
     = [BodyText (JSON_stringify Scenario.host_A
                    (JObj [("splatId", JStr "s1");
                           ("fileSize", JNum (Number_of_N 4))]));
        BodyBlob (buffer Scenario.ply) "application/octet-stream";
        BodyText (JSON_stringify Scenario.host_A
                    (JObj [("splatId", JStr "s1");
                           ("storagePath", JStr "splats/s1/edited.ply")]))].
Proof. repeat split; reflexivity. Qed.

(** Scenario B: phase 1 answers 403 with the error token expired; the
    modal shows exactly this message and no other request is sent. *)
Example scenario_B :
  popups (snd (save_handler Scenario.host_B (Some Scenario.config)
                 Scenario.one_splat []))
    = [error_popup (JStr "token expired")]
  /\ map (fun c => method (fst c))
       (fetch_calls (snd (save_handler Scenario.host_B (Some Scenario.config)
                            Scenario.one_splat [])))
     = ["POST"].
Proof. split; reflexivity. Qed.

(** Scenario C: phase 2 answers 500 with no parseable body. *)
Example scenario_C :
  popups (snd (save_handler Scenario.host_C (Some Scenario.config)
                 Scenario.one_splat []))
    = [error_popup (JStr "Upload to GCS failed (500)")]
  /\ map (fun c => method (fst c))
       (fetch_calls (snd (save_handler Scenario.host_C (Some Scenario.config)
                            Scenario.one_splat [])))
     = ["POST"; "PUT"].
Proof. split; reflexivity. Qed.

(** A page opened with the scenario's query: the config is resolved, the
    activation is logged and the save handler is registered. *)
Example scenario_init :
  initGigaScapeIntegration Scenario.host_A Scenario.search []
  = (Returned {| module_gsConfig := Some Scenario.config;
                 functions := [("gigascape:save",
                                save_handler Scenario.host_A (Some Scenario.config))] |},
     [EvConsole Log [LStr "[GigaScape] Integration active for splat:";
                     LVal (JStr "s1")]]).
Proof. reflexivity. Qed.

(** * Further properties of the module *)

(** ** The resolver on every query *)

(** A value other than [null] and [undefined] answers every property
    read. *)
Lemma get_prop_returns (v : JSValue) (key : string) :
  v <> JNull -> v <> JUndefined -> exists x, get_prop v key = Returned x.
Proof.
  intros Hnull Hundef. destruct v; try (eexists; reflexivity); try congruence.
  simpl. destruct (assoc key props); eauto.
Qed.

Lemma get_prop_nullish (v : JSValue) (key : string) :
  v = JNull \/ v = JUndefined -> get_prop v key = Raised (nullish_read_error v key).
Proof. now intros [-> | ->]. Qed.

(** Reading one key succeeds exactly when reading another does. *)
Lemma get_prop_raises_alike (v : JSValue) (key key' : string) (x : JSValue) (e : Thrown) :
  get_prop v key = Returned x -> get_prop v key' = Raised e -> False.
Proof.
  destruct v; simpl; try discriminate.
  destruct (assoc key' props); discriminate.
Qed.

(** Every run of the resolver: absent and silent, absent with one warning,
    or the parsed value of a non-empty parameter, validated, and silent. *)
Lemma parseGsConfig_outcomes (host : Host) (search : string) (h : list Event) :
  parseGsConfig host search h = (Returned None, [])
  \/ (exists args, parseGsConfig host search h = (Returned None, [EvConsole Warn args]))
  \/ (exists config encoded json,
        parseGsConfig host search h = (Returned (Some config), [])
        /\ URL.get (URL.URLSearchParams_new search) "gsConfig" = Some encoded
        /\ encoded <> ""
        /\ atob host encoded = Returned json
        /\ JSON_parse host json = Returned config
        /\ required_fields_truthy config).
Proof.
  unfold parseGsConfig.
  destruct (URL.get _ _) as [encoded|]; [|now left].
  destruct (encoded =? "") eqn:Hne; [now left|].
  apply String.eqb_neq in Hne.
  unfold_M.
  destruct (atob host encoded) as [json|e] eqn:Hj; [|right; left; simpl; eauto].
  destruct (JSON_parse host json) as [config|e] eqn:Hc; [|right; left; simpl; eauto].
  destruct (get_prop config "splatId") as [s|e] eqn:Hs; [|right; left; simpl; eauto].
  destruct (truthy s) eqn:Ts; simpl; [|right; left; eauto].
  destruct (get_prop config "apiOrigin") as [a|e] eqn:Ha; [|right; left; simpl; eauto].
  destruct (truthy a) eqn:Ta; simpl; [|right; left; eauto].
  destruct (get_prop config "authToken") as [t|e] eqn:Ht; [|right; left; simpl; eauto].
  destruct (truthy t) eqn:Tt; simpl; [|right; left; eauto].
  right; right. exists config, encoded, json.
  do 5 (split; [first [reflexivity | assumption]|]).
  exists s, a, t. auto 10.
Qed.

(** X1.  Whatever the query and whatever [atob] and [JSON.parse] do,
    [parseGsConfig] returns: absent with nothing logged, absent with
    exactly one warning, or a config with nothing logged.  It never raises
    and adds no other event. *)
Theorem parseGsConfig_returns_quietly_or_warns
  (host : Host) (search : string) (h : list Event) :
  parseGsConfig host search h = (Returned None, [])
  \/ (exists args, parseGsConfig host search h = (Returned None, [EvConsole Warn args]))
  \/ (exists config, parseGsConfig host search h = (Returned (Some config), [])).
Proof.
  destruct (parseGsConfig_outcomes host search h)
    as [Hrun | [Hrun | (config & _ & _ & Hrun & _)]]; eauto.
Qed.

(** X2.  A config returned by [parseGsConfig] is the value that
    [JSON.parse] gave for the decoded, non-empty gsConfig parameter, and
    its splatId, apiOrigin and authToken are truthy. *)
Theorem parseGsConfig_config_is_validated
  (host : Host) (search : string) (h : list Event) (config : JSValue) :
  fst (parseGsConfig host search h) = Returned (Some config) ->
  exists encoded json,
    URL.get (URL.URLSearchParams_new search) "gsConfig" = Some encoded
    /\ encoded <> ""
    /\ atob host encoded = Returned json
    /\ JSON_parse host json = Returned config
    /\ required_fields_truthy config.
Proof.
  destruct (parseGsConfig_outcomes host search h)
    as [Hrun | [[args Hrun] | (config' & encoded & json & Hrun & Hrest)]];
    rewrite Hrun; cbn [fst]; intros [= <-]. eauto.
Qed.

Lemma parseGsConfig_config_is_validated_witness :
  exists encoded json,
    URL.get (URL.URLSearchParams_new Scenario.search) "gsConfig" = Some encoded
    /\ encoded <> ""
    /\ atob Scenario.host_A encoded = Returned json
    /\ JSON_parse Scenario.host_A json = Returned Scenario.config
    /\ required_fields_truthy Scenario.config.
Proof.
  apply (parseGsConfig_config_is_validated Scenario.host_A Scenario.search []).
  vm_compute. reflexivity.
Defined.

(** X3.  The warning tells the two failures apart.  When the value does
    not decode, its text does not parse, or it parses to [null], the
    resolver logs Failed to parse gsConfig: with the error it caught; when
    it parses to another value in which splatId, apiOrigin or authToken is
    missing or falsy, it logs gsConfig missing required fields. *)
Theorem parseGsConfig_warning_names_the_failure
  (host : Host) (search encoded : string) (h : list Event) :
  URL.get (URL.URLSearchParams_new search) "gsConfig" = Some encoded ->
  encoded <> "" ->
  (forall e, atob host encoded = Raised e ->
     parseGsConfig host search h
     = (Returned None,
        [EvConsole Warn [LStr "[GigaScape] Failed to parse gsConfig:"; LThrown e]]))
  /\ (forall json e,
        atob host encoded = Returned json -> JSON_parse host json = Raised e ->
        parseGsConfig host search h
        = (Returned None,
           [EvConsole Warn [LStr "[GigaScape] Failed to parse gsConfig:"; LThrown e]]))
  /\ (forall json config,
        atob host encoded = Returned json -> JSON_parse host json = Returned config ->
        config = JNull \/ config = JUndefined ->
        parseGsConfig host search h
        = (Returned None,
           [EvConsole Warn [LStr "[GigaScape] Failed to parse gsConfig:";
                            LThrown (nullish_read_error config "splatId")]]))
  /\ (forall json config key,
        atob host encoded = Returned json -> JSON_parse host json = Returned config ->
        config <> JNull -> config <> JUndefined ->
        In key ["splatId"; "apiOrigin"; "authToken"] ->
        field_unusable config key ->
        parseGsConfig host search h
        = (Returned None,
           [EvConsole Warn [LStr "[GigaScape] gsConfig missing required fields"]])).
Proof.
  intros Hget Hne. rewrite (parseGsConfig_present host search encoded Hget Hne).
  unfold_M. repeat split.
  - intros e ->. reflexivity.
  - intros json e -> ->. reflexivity.
  - intros json config -> -> Hnull.
    now rewrite (get_prop_nullish config "splatId" Hnull).
  - intros json config key -> -> Hnull Hundef Hkey Hfield.
    unfold field_unusable in Hfield.
    destruct (get_prop_returns config "splatId" Hnull Hundef) as [s Hs].
    destruct (get_prop_returns config "apiOrigin" Hnull Hundef) as [a Ha].
    destruct (get_prop_returns config "authToken" Hnull Hundef) as [t Ht].
    rewrite Hs. simpl. destruct (truthy s) eqn:Ts; simpl; [|reflexivity].
    rewrite Ha. simpl. destruct (truthy a) eqn:Ta; simpl; [|reflexivity].
    rewrite Ht. simpl. destruct (truthy t) eqn:Tt; simpl; [|reflexivity].
    exfalso. simpl in Hkey. destruct Hkey as [<-|[<-|[<-|[]]]].
    + specialize (Hfield _ Hs). congruence.
    + specialize (Hfield _ Ha). congruence.
    + specialize (Hfield _ Ht). congruence.
Qed.

(** The value bnVsbA== is the base64 of the JSON text null. *)
Lemma parseGsConfig_warning_names_the_failure_witness :
  parseGsConfig Scenario.host_A "?gsConfig=bnVsbA==" []
  = (Returned None,
     [EvConsole Warn [LStr "[GigaScape] Failed to parse gsConfig:";
                      LThrown (nullish_read_error JNull "splatId")]]).
Proof.
  destruct (parseGsConfig_warning_names_the_failure Scenario.host_A
              "?gsConfig=bnVsbA==" "bnVsbA==" [])
    as (_ & _ & Hnull & _).
  - reflexivity.
  - discriminate.
  - apply (Hnull "null" JNull).
    + reflexivity.
    + reflexivity.
    + now left.
Defined.

(** ** Initialisation *)

(** X4.  Without a gsConfig key in the query, initialisation does nothing:
    no config, no function on the bus, nothing logged.  Hence whenever the
    save handler is registered, [isGigaScapeMode] answers true: the menu
    entry exists for every registered handler. *)
Theorem initGigaScapeIntegration_needs_the_key
  (host : Host) (search : string) (h : list Event) :
  (isGigaScapeMode search = false ->
   initGigaScapeIntegration host search h
   = (Returned {| module_gsConfig := None; functions := [] |}, []))
  /\ (forall r, fst (initGigaScapeIntegration host search h) = Returned r ->
                functions r <> [] -> isGigaScapeMode search = true).
Proof.
  assert (Hoff : isGigaScapeMode search = false ->
                 initGigaScapeIntegration host search h
                 = (Returned {| module_gsConfig := None; functions := [] |}, [])).
  { intros Hkey. unfold initGigaScapeIntegration, bind.
    now rewrite (parseGsConfig_absent host search h Hkey). }
  split; [exact Hoff|].
  intros r Hr Hreg. destruct (isGigaScapeMode search) eqn:Hkey; [reflexivity|].
  rewrite (Hoff eq_refl) in Hr. injection Hr as <-. now destruct Hreg.
Qed.

Lemma initGigaScapeIntegration_needs_the_key_witness :
  initGigaScapeIntegration Scenario.host_A "?load=scene.ply" []
  = (Returned {| module_gsConfig := None; functions := [] |}, [])
  /\ isGigaScapeMode Scenario.search = true.
Proof.
  destruct (initGigaScapeIntegration_needs_the_key Scenario.host_A "?load=scene.ply" [])
    as [Hoff _].
  destruct (initGigaScapeIntegration_needs_the_key Scenario.host_A Scenario.search [])
    as [_ Hon].
  split.
  - apply Hoff. reflexivity.
  - apply (Hon {| module_gsConfig := Some Scenario.config;
                  functions := [("gigascape:save",
                                 save_handler Scenario.host_A (Some Scenario.config))] |}).
    + reflexivity.
    + discriminate.
Defined.

(** X5.  Initialisation never raises.  Either it leaves no config and
    registers nothing, logging at most the resolver's warning; or it keeps
    a config whose splatId, apiOrigin and authToken are truthy, registers
    exactly one function, gigascape:save, over this config, and logs the
    activation with the config's splatId. *)
Theorem initGigaScapeIntegration_registers_validated
  (host : Host) (search : string) (h : list Event) :
  exists r,
    fst (initGigaScapeIntegration host search h) = Returned r
    /\ ((module_gsConfig r = None /\ functions r = []
         /\ (snd (initGigaScapeIntegration host search h) = []
             \/ exists args,
                 snd (initGigaScapeIntegration host search h) = [EvConsole Warn args]))
        \/ (exists config splatId,
              module_gsConfig r = Some config
              /\ required_fields_truthy config
              /\ get_prop config "splatId" = Returned splatId
              /\ functions r = [("gigascape:save", save_handler host (Some config))]
              /\ snd (initGigaScapeIntegration host search h)
                 = [EvConsole Log [LStr "[GigaScape] Integration active for splat:";
                                   LVal splatId]])).
Proof.
  unfold initGigaScapeIntegration, bind.
  destruct (parseGsConfig_outcomes host search h)
    as [Hrun | [[args Hrun] | (config & _ & _ & Hrun & _ & _ & _ & _ & Hfields)]].
  - rewrite Hrun. unfold_M. cbn [fst snd app]. eexists. split; [reflexivity|].
    left. cbn. auto.
  - rewrite Hrun. unfold_M. cbn [fst snd app]. eexists. split; [reflexivity|].
    left. cbn. eauto.
  - rewrite Hrun. pose proof Hfields as (s & _ & _ & Hs & _).
    unfold_M. rewrite Hs. cbn [fst snd app].
    eexists. split; [reflexivity|]. right. exists config, s. auto 10.
Qed.

(** ** The exporter *)

(** On a scene with something to export, the exporter is one call of the
    serializer on the selection, followed by the lookup of output.ply. *)
Lemma serializeSceneToPly_run host scene h :
  exportable scene <> [] ->
  serializeSceneToPly host scene h
  = (memFs <- call_serializePly host (exportable scene) {| maxSHBands := 3 |}
               MemoryFileSystem_new ;;
     match assoc "output.ply" (results memFs) with
     | None => throw (new_Error "PLY serialization produced no output")
     | Some data => ret data
     end) h.
Proof.
  unfold exportable, serializeSceneToPly. rewrite filter_filter.
  destruct (filter _ _) as [|s l]; [now intros []|reflexivity].
Qed.

Lemma In_getElementsByType_splat (scene : Scene) (s : Splat) :
  In s (getElementsByType_splat scene) <-> In (SplatElement s) (elements scene).
Proof.
  unfold getElementsByType_splat. rewrite in_flat_map. split.
  - intros [[s'|kind] [Hin Hs]]; simpl in Hs; [|contradiction].
    destruct Hs as [->|[]]. exact Hin.
  - intros Hin. exists (SplatElement s). simpl. auto.
Qed.

(** X6.  On a scene with at least one visible splat of content count above
    0, the exporter calls the external serializer exactly once, with the
    quality cap maxSHBands = 3 and a fresh output registry, on exactly the
    splats of the scene that are visible and not empty, in scene order:
    hidden and empty splats and elements of another kind are never
    exported. *)
Theorem serializeSceneToPly_exports_visible_content
  (host : Host) (scene : Scene) (h : list Event) :
  exportable scene <> [] ->
  (exists splats,
     snd (serializeSceneToPly host scene h)
     = [EvSerialize splats {| maxSHBands := 3 |}
          (serializePly host h splats {| maxSHBands := 3 |} {| results := [] |})]
     /\ splats
        = filter (fun s => visible s && (0 <? numSplats s)%N)
            (getElementsByType_splat scene)
     /\ forall s, In s splats <->
                  In (SplatElement s) (elements scene)
                  /\ visible s = true /\ (0 < numSplats s)%N).
Proof.
  intros Hsome. exists (exportable scene). split; [|split].
  - rewrite (serializeSceneToPly_run host scene h Hsome).
    unfold bind, call_serializePly, MemoryFileSystem_new.
    destruct (serializePly host h _ _ _) as [memFs|e]; [|reflexivity].
    destruct (assoc _ _); reflexivity.
  - reflexivity.
  - intros s. unfold exportable. rewrite filter_In, In_getElementsByType_splat.
    rewrite andb_true_iff, N.ltb_lt. tauto.
Qed.

Lemma serializeSceneToPly_exports_visible_content_witness :
  exists splats,
    snd (serializeSceneToPly Scenario.host_A Scenario.one_splat [])
    = [EvSerialize splats {| maxSHBands := 3 |}
         (serializePly Scenario.host_A [] splats {| maxSHBands := 3 |}
            {| results := [] |})]
    /\ splats
       = filter (fun s => visible s && (0 <? numSplats s)%N)
           (getElementsByType_splat Scenario.one_splat)
    /\ forall s, In s splats <->
                 In (SplatElement s) (elements Scenario.one_splat)
                 /\ visible s = true /\ (0 < numSplats s)%N.
Proof.
  apply (serializeSceneToPly_exports_visible_content Scenario.host_A
           Scenario.one_splat []).
  discriminate.
Defined.

(** X7.  What the exporter gives back, on a scene with something to
    export: a failure of the serializer is passed on unchanged; a
    serializer that returns without an output.ply entry raises
    Error('PLY serialization produced no output'); otherwise the entry is
    returned as it is, whatever its length. *)
Theorem serializeSceneToPly_returns_the_output
  (host : Host) (scene : Scene) (h : list Event) :
  exportable scene <> [] ->
  (forall e,
     serializePly host h (exportable scene) {| maxSHBands := 3 |} MemoryFileSystem_new
       = Raised e ->
     fst (serializeSceneToPly host scene h) = Raised e)
  /\ (forall memFs,
        serializePly host h (exportable scene) {| maxSHBands := 3 |} MemoryFileSystem_new
          = Returned memFs ->
        assoc "output.ply" (results memFs) = None ->
        fst (serializeSceneToPly host scene h)
        = Raised (new_Error "PLY serialization produced no output"))
  /\ (forall memFs data,
        serializePly host h (exportable scene) {| maxSHBands := 3 |} MemoryFileSystem_new
          = Returned memFs ->
        assoc "output.ply" (results memFs) = Some data ->
        fst (serializeSceneToPly host scene h) = Returned data).
Proof.
  intros Hsome. rewrite (serializeSceneToPly_run host scene h Hsome).
  unfold bind, call_serializePly. repeat split.
  - intros e ->. reflexivity.
  - intros memFs -> ->. reflexivity.
  - intros memFs data -> ->. reflexivity.
Qed.

Lemma serializeSceneToPly_returns_the_output_witness :
  fst (serializeSceneToPly Scenario.host_A Scenario.one_splat []) = Returned Scenario.ply.
Proof.
  destruct (serializeSceneToPly_returns_the_output Scenario.host_A Scenario.one_splat [])
    as (_ & _ & Hout).
  - discriminate.
  - apply (Hout {| results := [("output.ply", Scenario.ply)] |}); reflexivity.
Defined.

(** ** The handler's outcome *)

(** The [catch] block, run: it logs the error, then either fails to read
    the message of a thrown [null] or [undefined], or asks for the error
    modal and ends as that call does. *)
Lemma save_catch_run host e h :
  save_catch host e h
  = match thrown_message e with
    | Raised e' => (Raised e', [EvConsole Error [LStr "[GigaScape] Save failed:"; LThrown e]])
    | Returned message =>
        let payload :=
          error_popup (or_else message (JStr "Unknown error while saving to GigaScape")) in
        let shown :=
          invoke host (h ++ [EvConsole Error [LStr "[GigaScape] Save failed:"; LThrown e]])
            "showPopup" payload in
        (match shown with
         | Returned _ => Returned tt
         | Raised e' => Raised e'
         end,
         [EvConsole Error [LStr "[GigaScape] Save failed:"; LThrown e];
          EvInvoke "showPopup" payload shown])
    end.
Proof.
  unfold save_catch, console_error, events_invoke, bind, lift, emit, ret.
  cbn [fst snd app].
  destruct (thrown_message e) as [m|e']; cbn [fst snd app]; [|reflexivity].
  rewrite app_nil_r.
  destruct (invoke host _ _ _); reflexivity.
Qed.

(** The handler ends as its [try] block when that returns, and as its
    [catch] block otherwise. *)
Lemma save_handler_outcome host gsConfig scene h :
  fst (save_handler host gsConfig scene h)
  = match fst (save_try host gsConfig scene (h ++ [EvFire "startSpinner"])) with
    | Returned u => Returned u
    | Raised e =>
        fst (save_catch host e
               ((h ++ [EvFire "startSpinner"])
                  ++ snd (save_try host gsConfig scene (h ++ [EvFire "startSpinner"]))))
    end.
Proof.
  unfold save_handler, try_finally, try_catch, bind, events_fire, emit.
  cbn [fst snd app].
  destruct (save_try host gsConfig scene (h ++ [EvFire "startSpinner"]))
    as [[[]|e] d]; cbn [fst snd app].
  - reflexivity.
  - now destruct (save_catch host e ((h ++ [EvFire "startSpinner"]) ++ d)) as [o d'].
Qed.

Lemma thrown_message_raises (e e' : Thrown) :
  thrown_message e = Raised e' ->
  exists v, (v = JNull \/ v = JUndefined) /\ e = ThrowValue v
            /\ e' = nullish_read_error v "message".
Proof.
  destruct e as [name message|v]; simpl; [discriminate|].
  destruct v; simpl; try discriminate.
  - intros [= <-]. exists JUndefined. auto.
  - intros [= <-]. exists JNull. auto.
  - destruct (assoc _ _); discriminate.
Qed.

(** X8.  Nothing that fails in the pipeline escapes the handler.  The
    handler raises only out of its [catch] block: when the call that
    shows the error modal raises, or when the value caught is [null] or
    [undefined], whose message cannot be read. *)
Theorem save_handler_raises_only_from_catch
  (host : Host) (gsConfig : option JSValue) (scene : Scene) (h : list Event)
  (e : Thrown) :
  fst (save_handler host gsConfig scene h) = Raised e ->
  (exists message,
     In (EvInvoke "showPopup" (error_popup message) (Raised e))
        (snd (save_handler host gsConfig scene h)))
  \/ (exists v, (v = JNull \/ v = JUndefined) /\ e = nullish_read_error v "message").
Proof.
  rewrite save_handler_outcome, save_handler_events.
  destruct (fst (save_try _ _ _ _)) as [u|e0]; [discriminate|].
  rewrite save_catch_run.
  destruct (thrown_message e0) as [m|e'] eqn:Hm; cbn [fst snd].
  - destruct (invoke host _ _ _) as [v|e'] eqn:Hshown; [discriminate|].
    intros [= ->]. left. eexists. right. apply in_or_app. right.
    apply in_or_app. left. right. left. reflexivity.
  - intros [= ->]. right.
    destruct (thrown_message_raises _ _ Hm) as (v & Hv & _ & ->). eauto.
Qed.

Lemma save_handler_raises_only_from_catch_witness :
  (exists message,
     In (EvInvoke "showPopup" (error_popup message)
           (Raised (new_Error "popup unavailable")))
        (snd (save_handler
                (Scenario.browser Scenario.serializer_ok
                   (Scenario.network (Scenario.respond 500 Scenario.no_json)
                      (Scenario.respond 200 Scenario.no_json)
                      (Scenario.respond 200 Scenario.no_json))
                   (fun _ _ _ => Raised (new_Error "popup unavailable")))
                (Some Scenario.config) Scenario.one_splat [])))
  \/ (exists v, (v = JNull \/ v = JUndefined)
                /\ new_Error "popup unavailable" = nullish_read_error v "message").
Proof.
  apply (save_handler_raises_only_from_catch
           (Scenario.browser Scenario.serializer_ok
              (Scenario.network (Scenario.respond 500 Scenario.no_json)
                 (Scenario.respond 200 Scenario.no_json)
                 (Scenario.respond 200 Scenario.no_json))
              (fun _ _ _ => Raised (new_Error "popup unavailable")))
           (Some Scenario.config) Scenario.one_splat []).
  reflexivity.
Defined.

(** An error modal is not the success modal. *)
Lemma error_popup_not_success (message : JSValue) : error_popup message <> success_popup.
Proof. discriminate. Qed.

(** X9.  The success modal is asked for only after the three requests of
    the attempt were each answered with a success status: whenever it is
    among the modals of a run, the run sent exactly the upload-URL POST,
    the storage PUT and the confirmation POST, and all three were
    answered 2xx. *)
Theorem success_modal_only_after_three_successes
  (host : Host) (gsConfig : option JSValue) (scene : Scene) (h : list Event) :
  In success_popup (popups (snd (save_handler host gsConfig scene h))) ->
  exists req1 res1 req2 res2 req3 res3,
    fetch_calls (snd (save_handler host gsConfig scene h))
    = [(req1, Returned res1); (req2, Returned res2); (req3, Returned res3)]
    /\ ok res1 = true /\ ok res2 = true /\ ok res3 = true
    /\ is_upload_url_request req1 /\ is_storage_put req2
    /\ is_save_complete_request req3.
Proof.
  rewrite save_handler_popups, save_handler_fetch_calls.
  assert (Hcatch : forall e0 : Thrown,
             ~ In success_popup
                 match thrown_message e0 with
                 | Returned message =>
                     [error_popup
                        (or_else message (JStr "Unknown error while saving to GigaScape"))]
                 | Raised _ => []
                 end).
  { intros e0. destruct (thrown_message e0); [|intros []].
    intros [Heq|[]]. now apply error_popup_not_success in Heq. }
  destruct (save_try_attempt host gsConfig scene (h ++ [EvFire "startSpinner"]))
    as [e d Hc Hp | e d q1 r1 Hc _ Hp
       | e d q1 s1 q2 r2 Hc _ _ _ Hp _
       | e d q1 s1 q2 s2 q3 r3 Hc _ _ _ _ _ Hp _
       | o d q1 s1 q2 s2 q3 s3 ticket splatId storagePath shown
           Hc Hok1 Hok2 Hok3 H1 H2 H3 _ _ _ _ _ _].
  1-4: rewrite Hp; cbn [app]; intros Hin; now apply Hcatch in Hin.
  intros _. exists q1, s1, q2, s2, q3, s3. auto 10.
Qed.

Lemma success_modal_only_after_three_successes_witness :
  exists req1 res1 req2 res2 req3 res3,
    fetch_calls (snd (save_handler Scenario.host_A (Some Scenario.config)
                        Scenario.one_splat []))
    = [(req1, Returned res1); (req2, Returned res2); (req3, Returned res3)]
    /\ ok res1 = true /\ ok res2 = true /\ ok res3 = true
    /\ is_upload_url_request req1 /\ is_storage_put req2
    /\ is_save_complete_request req3.
Proof.
  apply (success_modal_only_after_three_successes Scenario.host_A
           (Some Scenario.config) Scenario.one_splat []).
  left. reflexivity.
Defined.

Lemma popups_returned_none (d : list Event) : popups d = [] -> popups_returned d = [].
Proof.
  induction d as [|ev d IH]; [reflexivity|].
  destruct ev as [| | | |name payload r]; simpl; try exact IH.
  destruct (name =? "showPopup")%string; [discriminate|].
  destruct r; exact IH.
Qed.

(** X10.  One modal per attempt, when the host displays what it is asked
    to.  In a run in which every showPopup call returned, exactly one
    modal was asked for and the handler returned normally; unless the
    value caught was [null] or [undefined], in which case no modal was
    asked for and the handler raised the TypeError of reading its
    message. *)
Theorem one_modal_per_attempt
  (host : Host) (gsConfig : option JSValue) (scene : Scene) (h : list Event) :
  popups_returned (snd (save_handler host gsConfig scene h))
    = popups (snd (save_handler host gsConfig scene h)) ->
  (exists p, popups (snd (save_handler host gsConfig scene h)) = [p]
             /\ fst (save_handler host gsConfig scene h) = Returned tt)
  \/ (popups (snd (save_handler host gsConfig scene h)) = []
      /\ exists v, (v = JNull \/ v = JUndefined)
                   /\ fst (save_handler host gsConfig scene h)
                      = Raised (nullish_read_error v "message")).
Proof.
  rewrite save_handler_popups_returned, save_handler_popups, save_handler_outcome.
  assert (Hcatch : forall e0 h0,
             popups_returned (snd (save_catch host e0 h0))
             = match thrown_message e0 with
               | Returned message =>
                   [error_popup
                      (or_else message (JStr "Unknown error while saving to GigaScape"))]
               | Raised _ => []
               end ->
             (exists p,
                 match thrown_message e0 with
                 | Returned message =>
                     [error_popup
                        (or_else message (JStr "Unknown error while saving to GigaScape"))]
                 | Raised _ => []
                 end = [p]
                 /\ fst (save_catch host e0 h0) = Returned tt)
             \/ (match thrown_message e0 with
                 | Returned message =>
                     [error_popup
                        (or_else message (JStr "Unknown error while saving to GigaScape"))]
                 | Raised _ => []
                 end = []
                 /\ exists v, (v = JNull \/ v = JUndefined)
                              /\ fst (save_catch host e0 h0)
                                 = Raised (nullish_read_error v "message"))).
  { intros e0 h0. rewrite save_catch_run.
    destruct (thrown_message e0) as [m|e'] eqn:Hm; cbn [fst snd].
    - destruct (invoke host _ _ _) as [v|e'].
      + intros _. left. eauto.
      + discriminate.
    - intros _. right. split; [reflexivity|].
      destruct (thrown_message_raises _ _ Hm) as (v & Hv & _ & ->). eauto. }
  destruct (save_try_attempt host gsConfig scene (h ++ [EvFire "startSpinner"]))
    as [e d Hc Hp | e d q1 r1 Hc _ Hp
       | e d q1 s1 q2 r2 Hc _ _ _ Hp _
       | e d q1 s1 q2 s2 q3 r3 Hc _ _ _ _ _ Hp _
       | o d q1 s1 q2 s2 q3 s3 ticket splatId storagePath shown
           _ _ _ _ _ _ _ _ _ _ Hp Hshown Ho].
  1-4: rewrite Hp, (popups_returned_none d Hp); cbn [app]; apply Hcatch.
  rewrite Hp, Hshown. subst o. destruct shown as [v|e]; cbn [app].
  - intros _. left. eauto.
  - intros Hall. exfalso.
    assert (Hin : In success_popup
                    (popups_returned
                       (snd (save_catch host e ((h ++ [EvFire "startSpinner"]) ++ d)))))
      by (rewrite Hall; now left).
    apply save_catch_shows_errors in Hin. discriminate.
Qed.

Lemma one_modal_per_attempt_witness :
  (exists p,
     popups (snd (save_handler Scenario.host_B (Some Scenario.config)
                    Scenario.one_splat [])) = [p]
     /\ fst (save_handler Scenario.host_B (Some Scenario.config) Scenario.one_splat [])
        = Returned tt)
  \/ (popups (snd (save_handler Scenario.host_B (Some Scenario.config)
                     Scenario.one_splat [])) = []
      /\ exists v, (v = JNull \/ v = JUndefined)
                   /\ fst (save_handler Scenario.host_B (Some Scenario.config)
                             Scenario.one_splat [])
                      = Raised (nullish_read_error v "message")).
Proof.
  apply (one_modal_per_attempt Scenario.host_B (Some Scenario.config)
           Scenario.one_splat []).
  reflexivity.
Defined.

(** ** Failures inside the pipeline *)

(** Find a call in a list of at most three. *)
Ltac split_calls H :=
  first
    [ exfalso; exact (app_cons_not_nil _ _ _ H)
    | apply split_singleton in H as (-> & H & ->)
    | apply split_pair in H as [(-> & H & ->)|(-> & H & ->)]
    | apply split_triple in H as [(-> & H & ->)|[(-> & H & ->)|(-> & H & ->)]] ].

(** Find an event in the events of one branch of a run. *)
Ltac find_event H :=
  cbn [In app fetch_calls flat_map] in H;
  repeat match type of H with
         | _ \/ _ => destruct H as [H|H]; [try discriminate H|]
         | False => destruct H
         end.

(** A request that the network rejects is the last of the [try] block,
    which raises what the network raised, before any modal. *)
Lemma save_try_fetch_rejected host gsConfig scene h pre req e rest :
  fetch_calls (snd (save_try host gsConfig scene h)) = pre ++ (req, Raised e) :: rest ->
  rest = []
  /\ fst (save_try host gsConfig scene h) = Raised e
  /\ popups (snd (save_try host gsConfig scene h)) = [].
Proof.
  revert pre req e rest. run.
  all: intros pre' req' e' rest' Hsplit.
  all: cbn [fetch_calls flat_map app] in Hsplit.
  all: split_calls Hsplit.
  all: try discriminate.
  all: injection Hsplit as _ <-.
  all: repeat split; reflexivity.
Qed.

(** A failure of the serializer ends the [try] block at once. *)
Lemma save_try_serializer_failed host gsConfig scene h splats settings e :
  In (EvSerialize splats settings (Raised e)) (snd (save_try host gsConfig scene h)) ->
  fst (save_try host gsConfig scene h) = Raised e
  /\ fetch_calls (snd (save_try host gsConfig scene h)) = []
  /\ popups (snd (save_try host gsConfig scene h)) = [].
Proof.
  revert splats settings e. run.
  all: intros splats' settings' e' Hin.
  all: find_event Hin.
  all: try discriminate.
  all: injection Hin as _ _ <-.
  all: repeat split; reflexivity.
Qed.

(** The serializer is called by the [try] block only. *)
Lemma save_handler_serializer_event host gsConfig scene h splats settings r :
  In (EvSerialize splats settings r) (snd (save_handler host gsConfig scene h)) ->
  In (EvSerialize splats settings r)
     (snd (save_try host gsConfig scene (h ++ [EvFire "startSpinner"]))).
Proof.
  rewrite save_handler_events. intros [Hin|Hin]; [discriminate|].
  apply in_app_or in Hin as [Hin|Hin]; [exact Hin|].
  apply in_app_or in Hin as [Hin|[Hin|[]]]; [|discriminate].
  destruct (fst (save_try _ _ _ _)) as [u|e0]; [destruct Hin|].
  rewrite save_catch_run in Hin.
  destruct (thrown_message e0); cbn [snd In] in Hin;
    [destruct Hin as [Hin|[Hin|[]]] | destruct Hin as [Hin|[]]]; discriminate.
Qed.

(** The modals of a run whose [try] block raised [e] before any modal. *)
Lemma save_handler_popups_raised host gsConfig scene h e :
  fst (save_try host gsConfig scene (h ++ [EvFire "startSpinner"])) = Raised e ->
  popups (snd (save_try host gsConfig scene (h ++ [EvFire "startSpinner"]))) = [] ->
  popups (snd (save_handler host gsConfig scene h))
  = match thrown_message e with
    | Returned message =>
        [error_popup (or_else message (JStr "Unknown error while saving to GigaScape"))]
    | Raised _ => []
    end.
Proof. intros He Hp. rewrite save_handler_popups, He, Hp. reflexivity. Qed.

(** ** The error modal *)

(** The modal of the [catch] block, spelled out by what was caught: the
    message of the error when it has one, the fallback text otherwise,
    and no modal for a caught [null] or [undefined]. *)
Lemma error_modal_cases (shown : list Popup) (e : Thrown) :
  shown = match thrown_message e with
          | Returned message =>
              [error_popup (or_else message (JStr "Unknown error while saving to GigaScape"))]
          | Raised _ => []
          end ->
  (forall name message,
     e = ThrowError name message -> message <> ""%string ->
     shown = [{| type := "error"; header := "Save Failed"; message := JStr message |}])
  /\ (forall name,
        e = ThrowError name "" ->
        shown = [{| type := "error"; header := "Save Failed";
                    message := JStr "Unknown error while saving to GigaScape" |}])
  /\ (forall v message,
        e = ThrowValue v -> get_prop v "message" = Returned message ->
        truthy message = true ->
        shown = [{| type := "error"; header := "Save Failed"; message := message |}])
  /\ (forall v message,
        e = ThrowValue v -> get_prop v "message" = Returned message ->
        truthy message = false ->
        shown = [{| type := "error"; header := "Save Failed";
                    message := JStr "Unknown error while saving to GigaScape" |}])
  /\ (forall v, e = ThrowValue v -> v = JNull \/ v = JUndefined -> shown = []).
Proof.
  intros ->. repeat split.
  - intros name message -> Hmessage. cbn [thrown_message]. unfold or_else.
    cbn [truthy]. apply String.eqb_neq in Hmessage. now rewrite Hmessage.
  - intros name ->. reflexivity.
  - intros v message -> Hread Htruthy. cbn [thrown_message]. rewrite Hread.
    unfold or_else. now rewrite Htruthy.
  - intros v message -> Hread Hfalsy. cbn [thrown_message]. rewrite Hread.
    unfold or_else. now rewrite Hfalsy.
  - intros v -> Hnullish. cbn [thrown_message].
    now rewrite (get_prop_nullish v "message" Hnullish).
Qed.

(** X11.  A request that the network rejects (fetch itself fails) ends the
    attempt: it is the last request sent, and exactly one modal is asked
    for, of type error with header Save Failed, whose message is the
    message of the rejection, or Unknown error while saving to GigaScape
    when the rejection has no message; a rejection with [null] or
    [undefined] asks for no modal. *)
Theorem network_failure_ends_the_attempt
  (host : Host) (gsConfig : option JSValue) (scene : Scene) (h : list Event)
  (pre : list (Request * Outcome Response)) (req : Request) (e : Thrown)
  (rest : list (Request * Outcome Response)) :
  fetch_calls (snd (save_handler host gsConfig scene h))
    = pre ++ (req, Raised e) :: rest ->
  rest = []
  /\ (forall name message,
        e = ThrowError name message -> message <> ""%string ->
        popups (snd (save_handler host gsConfig scene h))
        = [{| type := "error"; header := "Save Failed"; message := JStr message |}])
  /\ (forall name,
        e = ThrowError name "" ->
        popups (snd (save_handler host gsConfig scene h))
        = [{| type := "error"; header := "Save Failed";
              message := JStr "Unknown error while saving to GigaScape" |}])
  /\ (forall v message,
        e = ThrowValue v -> get_prop v "message" = Returned message ->
        truthy message = true ->
        popups (snd (save_handler host gsConfig scene h))
        = [{| type := "error"; header := "Save Failed"; message := message |}])
  /\ (forall v message,
        e = ThrowValue v -> get_prop v "message" = Returned message ->
        truthy message = false ->
        popups (snd (save_handler host gsConfig scene h))
        = [{| type := "error"; header := "Save Failed";
              message := JStr "Unknown error while saving to GigaScape" |}])
  /\ (forall v, e = ThrowValue v -> v = JNull \/ v = JUndefined ->
                popups (snd (save_handler host gsConfig scene h)) = []).
Proof.
  rewrite save_handler_fetch_calls. intros Hsplit.
  apply save_try_fetch_rejected in Hsplit as (Hrest & He & Hp).
  split; [exact Hrest|].
  exact (error_modal_cases _ e (save_handler_popups_raised host gsConfig scene h e He Hp)).
Qed.

Lemma network_failure_ends_the_attempt_witness :
  popups (snd (save_handler
                 (Scenario.browser Scenario.serializer_ok
                    (fun _ _ => Raised (ThrowError "TypeError" "Failed to fetch"))
                    Scenario.modal_ok)
                 (Some Scenario.config) Scenario.one_splat []))
  = [{| type := "error"; header := "Save Failed"; message := JStr "Failed to fetch" |}].
Proof.
  destruct (network_failure_ends_the_attempt
              (Scenario.browser Scenario.serializer_ok
                 (fun _ _ => Raised (ThrowError "TypeError" "Failed to fetch"))
                 Scenario.modal_ok)
              (Some Scenario.config) Scenario.one_splat [] []
              {| url := "https://gigascape.example/api/supersplat/upload-url";
                 method := "POST";
                 headers := [("Authorization", "Bearer tok");
                             ("Content-Type", "application/json")];
                 body := BodyText (Json.stringify Engine.Number_toString
                                     (JObj [("splatId", JStr "s1");
                                            ("fileSize", JNum (Number_of_N 4))])) |}
              (ThrowError "TypeError" "Failed to fetch") [] eq_refl)
    as (_ & Hshown & _).
  apply (Hshown "TypeError" "Failed to fetch"%string).
  - reflexivity.
  - discriminate.
Defined.

(** X12.  When the external serializer fails, no request is sent and
    exactly one modal is asked for, of type error with header Save Failed:
    its message is the message of the failure, or Unknown error while
    saving to GigaScape for a failure without a message (an Error with an
    empty message, a thrown string); a thrown [null] or [undefined] asks
    for no modal. *)
Theorem serializer_failure_is_reported
  (host : Host) (gsConfig : option JSValue) (scene : Scene) (h : list Event)
  (splats : list Splat) (settings : SerializeSettings) (e : Thrown) :
  In (EvSerialize splats settings (Raised e)) (snd (save_handler host gsConfig scene h)) ->
  fetch_calls (snd (save_handler host gsConfig scene h)) = []
  /\ (forall name message,
        e = ThrowError name message -> message <> ""%string ->
        popups (snd (save_handler host gsConfig scene h))
        = [{| type := "error"; header := "Save Failed"; message := JStr message |}])
  /\ (forall name,
        e = ThrowError name "" ->
        popups (snd (save_handler host gsConfig scene h))
        = [{| type := "error"; header := "Save Failed";
              message := JStr "Unknown error while saving to GigaScape" |}])
  /\ (forall s,
        e = ThrowValue (JStr s) ->
        popups (snd (save_handler host gsConfig scene h))
        = [{| type := "error"; header := "Save Failed";
              message := JStr "Unknown error while saving to GigaScape" |}])
  /\ (forall v message,
        e = ThrowValue v -> get_prop v "message" = Returned message ->
        truthy message = true ->
        popups (snd (save_handler host gsConfig scene h))
        = [{| type := "error"; header := "Save Failed"; message := message |}])
  /\ (forall v message,
        e = ThrowValue v -> get_prop v "message" = Returned message ->
        truthy message = false ->
        popups (snd (save_handler host gsConfig scene h))
        = [{| type := "error"; header := "Save Failed";
              message := JStr "Unknown error while saving to GigaScape" |}])
  /\ (forall v, e = ThrowValue v -> v = JNull \/ v = JUndefined ->
                popups (snd (save_handler host gsConfig scene h)) = []).
Proof.
  intros Hin. apply save_handler_serializer_event in Hin.
  apply save_try_serializer_failed in Hin as (He & Hc & Hp).
  destruct (error_modal_cases _ e (save_handler_popups_raised host gsConfig scene h e He Hp))
    as (Hmessage & Hempty & Htruthy & Hfalsy & Hnullish).
  rewrite save_handler_fetch_calls.
  split; [exact Hc|]. split; [exact Hmessage|]. split; [exact Hempty|].
  split; [|auto].
  intros s Hs. now apply (Hfalsy (JStr s) JUndefined Hs).
Qed.

Lemma serializer_failure_is_reported_witness :
  popups (snd (save_handler
                 (Scenario.browser (fun _ _ _ _ => Raised (ThrowValue (JStr "out of memory")))
                    (Scenario.network (Scenario.respond 200 (Returned Scenario.ticket))
                       (Scenario.respond 200 Scenario.no_json)
                       (Scenario.respond 200 Scenario.no_json))
                    Scenario.modal_ok)
                 (Some Scenario.config) Scenario.one_splat []))
  = [{| type := "error"; header := "Save Failed";
        message := JStr "Unknown error while saving to GigaScape" |}].
Proof.
  destruct (serializer_failure_is_reported
              (Scenario.browser (fun _ _ _ _ => Raised (ThrowValue (JStr "out of memory")))
                 (Scenario.network (Scenario.respond 200 (Returned Scenario.ticket))
                    (Scenario.respond 200 Scenario.no_json)
                    (Scenario.respond 200 Scenario.no_json))
                 Scenario.modal_ok)
              (Some Scenario.config) Scenario.one_splat []
              [{| splat_name := "scan"; visible := true; numSplats := 1000 |}]
              {| maxSHBands := 3 |}
              (ThrowValue (JStr "out of memory")))
    as (_ & _ & _ & Hstring & _).
  - right. left. reflexivity.
  - apply (Hstring "out of memory"%string). reflexivity.
Defined.

(** ** The requests *)

(** Every request of the [try] block is the storage PUT, with its single
    header, or a POST to one of the two API paths under the config's
    apiOrigin, with the config's authToken as bearer. *)
Lemma save_try_requests host gsConfig scene h req r :
  In (req, r) (fetch_calls (snd (save_try host gsConfig scene h))) ->
  (method req = "PUT"
   /\ headers req = [("Content-Type", "application/octet-stream")])
  \/ (exists config apiOrigin authToken path,
        gsConfig = Some config
        /\ get_prop config "apiOrigin" = Returned apiOrigin
        /\ get_prop config "authToken" = Returned authToken
        /\ (path = "/api/supersplat/upload-url" \/ path = "/api/supersplat/save-complete")
        /\ method req = "POST"
        /\ url req = (str host apiOrigin ++ path)%string
        /\ headers req = [("Authorization", ("Bearer " ++ str host authToken)%string);
                          ("Content-Type", "application/json")]).
Proof.
  revert req r. destruct gsConfig as [config|]; run.
  all: intros req' r' Hin.
  all: find_event Hin.
  all: try discriminate.
  all: injection Hin as <- <-.
  all: first
         [ left; split; reflexivity
         | right; do 4 eexists; split; [reflexivity|];
           split; [eassumption|]; split; [eassumption|];
           split; [|split; [reflexivity|]; split; reflexivity];
           first [left; reflexivity | right; reflexivity] ].
Qed.

(** X13.  The bearer token goes to the API only.  Every request of a run
    is either the storage PUT, whose only header is the content type (no
    Authorization header), or a POST to the upload-url or save-complete
    path under the config's apiOrigin, carrying the config's authToken as
    bearer. *)
Theorem token_goes_to_the_api_only
  (host : Host) (gsConfig : option JSValue) (scene : Scene) (h : list Event)
  (req : Request) (r : Outcome Response) :
  In (req, r) (fetch_calls (snd (save_handler host gsConfig scene h))) ->
  (method req = "PUT"
   /\ headers req = [("Content-Type", "application/octet-stream")])
  \/ (exists config apiOrigin authToken path,
        gsConfig = Some config
        /\ get_prop config "apiOrigin" = Returned apiOrigin
        /\ get_prop config "authToken" = Returned authToken
        /\ (path = "/api/supersplat/upload-url" \/ path = "/api/supersplat/save-complete")
        /\ method req = "POST"
        /\ url req = (str host apiOrigin ++ path)%string
        /\ headers req = [("Authorization", ("Bearer " ++ str host authToken)%string);
                          ("Content-Type", "application/json")]).
Proof.
  rewrite save_handler_fetch_calls. apply save_try_requests.
Qed.

Lemma token_goes_to_the_api_only_witness :
  (method {| url := "https://storage.example/bucket/s1?signature=abc";
             method := "PUT";
             headers := [("Content-Type", "application/octet-stream")];
             body := BodyBlob (buffer Scenario.ply) "application/octet-stream" |} = "PUT"
   /\ headers {| url := "https://storage.example/bucket/s1?signature=abc";
                 method := "PUT";
                 headers := [("Content-Type", "application/octet-stream")];
                 body := BodyBlob (buffer Scenario.ply) "application/octet-stream" |}
      = [("Content-Type", "application/octet-stream")])
  \/ (exists config apiOrigin authToken path,
        Some Scenario.config = Some config
        /\ get_prop config "apiOrigin" = Returned apiOrigin
        /\ get_prop config "authToken" = Returned authToken
        /\ (path = "/api/supersplat/upload-url" \/ path = "/api/supersplat/save-complete")
        /\ method {| url := "https://storage.example/bucket/s1?signature=abc";
                     method := "PUT";
                     headers := [("Content-Type", "application/octet-stream")];
                     body := BodyBlob (buffer Scenario.ply) "application/octet-stream" |}
           = "POST"
        /\ url {| url := "https://storage.example/bucket/s1?signature=abc";
                  method := "PUT";
                  headers := [("Content-Type", "application/octet-stream")];
                  body := BodyBlob (buffer Scenario.ply) "application/octet-stream" |}
           = (str Scenario.host_A apiOrigin ++ path)%string
        /\ headers {| url := "https://storage.example/bucket/s1?signature=abc";
                      method := "PUT";
                      headers := [("Content-Type", "application/octet-stream")];
                      body := BodyBlob (buffer Scenario.ply) "application/octet-stream" |}
           = [("Authorization", ("Bearer " ++ str Scenario.host_A authToken)%string);
              ("Content-Type", "application/json")]).
Proof.
  apply (token_goes_to_the_api_only Scenario.host_A (Some Scenario.config)
           Scenario.one_splat []
           {| url := "https://storage.example/bucket/s1?signature=abc";
              method := "PUT";
              headers := [("Content-Type", "application/octet-stream")];
              body := BodyBlob (buffer Scenario.ply) "application/octet-stream" |}
           (Returned {| status := 200; json := Scenario.no_json |})).
  right. left. reflexivity.
Defined.

(** X14.  Without a config (the module's gsConfig is null) a run of the
    handler sends no request at all, and never asks for the success
    modal. *)
Theorem null_config_sends_no_request
  (host : Host) (scene : Scene) (h : list Event) :
  fetch_calls (snd (save_handler host None scene h)) = []
  /\ ~ In success_popup (popups (snd (save_handler host None scene h))).
Proof.
  assert (Hnone : fetch_calls (snd (save_try host None scene (h ++ [EvFire "startSpinner"])))
                  = []).
  { destruct (fetch_calls (snd (save_try host None scene (h ++ [EvFire "startSpinner"]))))
      as [|[req r] calls] eqn:Hcalls; [reflexivity|].
    exfalso.
    destruct (attempt_gated _ _ _
                (save_try_attempt host None scene (h ++ [EvFire "startSpinner"])))
      as [Horder _].
    rewrite Hcalls in Horder. cbn [map fst in_phase_order] in Horder.
    destruct Horder as [[Hpost _] _].
    destruct (save_try_requests host None scene (h ++ [EvFire "startSpinner"]) req r)
      as [[Hput _] | (config & _ & _ & _ & Hconfig & _)].
    - rewrite Hcalls. now left.
    - rewrite Hput in Hpost. discriminate.
    - discriminate. }
  split.
  - rewrite save_handler_fetch_calls. exact Hnone.
  - rewrite save_handler_popups.
    destruct (save_try_attempt host None scene (h ++ [EvFire "startSpinner"]))
      as [e d Hc Hp | e d q1 r1 Hc _ Hp
         | e d q1 s1 q2 r2 Hc _ _ _ Hp _
         | e d q1 s1 q2 s2 q3 r3 Hc _ _ _ _ _ Hp _
         | o d q1 s1 q2 s2 q3 s3 ticket splatId storagePath shown
             Hc _ _ _ _ _ _ _ _ _ _ _ _];
      rewrite Hc in Hnone; try discriminate.
    rewrite Hp. cbn [app]. destruct (thrown_message e); [|intros []].
    intros [Heq|[]]. now apply error_popup_not_success in Heq.
Qed.

(** The declared size and the uploaded bytes both come from the
    serializer's output.ply. *)
Lemma save_try_uploads_the_output host gsConfig scene h splats settings memFs req1 r1 rest :
  In (EvSerialize splats settings (Returned memFs))
     (snd (save_try host gsConfig scene h)) ->
  fetch_calls (snd (save_try host gsConfig scene h)) = (req1, r1) :: rest ->
  exists data splatId,
    assoc "output.ply" (results memFs) = Some data
    /\ body req1
       = BodyText (JSON_stringify host
                     (JObj [("splatId", splatId);
                            ("fileSize", JNum (Number_of_N (byteLength data)))]))
    /\ forall req2 r2 rest',
         rest = (req2, r2) :: rest' ->
         body req2 = BodyBlob (buffer data) "application/octet-stream".
Proof.
  revert splats settings memFs req1 r1 rest. run.
  all: intros splats' settings' memFs' req1' r1' rest' Hin Hcalls.
  all: cbn [fetch_calls flat_map app] in Hcalls.
  all: try discriminate.
  all: injection Hcalls as <- <- <-.
  all: find_event Hin.
  all: injection Hin as _ _ <-.
  all: do 2 eexists; split; [eassumption|]; split; [reflexivity|].
  all: intros req2' r2' rest2' Hrest; try discriminate.
  all: injection Hrest as <- _ _; reflexivity.
Qed.

(** Two results of the same read are the same. *)
Ltac same_read :=
  repeat match goal with
         | H1 : ?x = Returned _, H2 : ?x = Returned _ |- _ =>
             rewrite H1 in H2; injection H2 as H2; subst
         | H1 : ?x = Raised _, H2 : ?x = Raised _ |- _ =>
             rewrite H1 in H2; injection H2 as H2; subst
         | H1 : ?x = Returned _, H2 : ?x = Raised _ |- _ =>
             rewrite H1 in H2; discriminate H2
         | H1 : ?x = Raised _, H2 : ?x = Returned _ |- _ =>
             rewrite H1 in H2; discriminate H2
         end.

(** Reads of a property of [null] and [undefined]. *)
Ltac nullish_reads :=
  repeat match goal with
         | H : get_prop JNull _ = _ |- _ =>
             cbn [get_prop] in H; first [discriminate H | injection H as H; subst]
         | H : get_prop JUndefined _ = _ |- _ =>
             cbn [get_prop] in H; first [discriminate H | injection H as H; subst]
         end.

(** After a success status at phase 1, the [try] block destructures the
    body as it is. *)
Lemma save_try_ticket host gsConfig scene h req1 res1 rest :
  fetch_calls (snd (save_try host gsConfig scene h)) = (req1, Returned res1) :: rest ->
  ok res1 = true ->
  (forall e, json res1 = Raised e ->
     rest = []
     /\ fst (save_try host gsConfig scene h) = Raised e
     /\ popups (snd (save_try host gsConfig scene h)) = [])
  /\ (forall ticket,
        json res1 = Returned ticket -> ticket = JNull \/ ticket = JUndefined ->
        rest = []
        /\ fst (save_try host gsConfig scene h)
           = Raised (nullish_read_error ticket "uploadUrl")
        /\ popups (snd (save_try host gsConfig scene h)) = [])
  /\ (forall ticket uploadUrl,
        json res1 = Returned ticket ->
        get_prop ticket "uploadUrl" = Returned uploadUrl ->
        exists req2 r2 rest',
          rest = (req2, r2) :: rest'
          /\ method req2 = "PUT"
          /\ url req2 = str host uploadUrl).
Proof.
  revert req1 res1 rest. run.
  all: intros req1' res1' rest' Hcalls Hok.
  all: cbn [fetch_calls flat_map app] in Hcalls.
  all: try discriminate.
  all: injection Hcalls as <- <- <-.
  all: try congruence.
  all: split; [|split].
  all: intros; same_read.
  all: try match goal with
           | H : ?v = JNull \/ ?v = JUndefined |- _ =>
               destruct H as [-> | ->]; nullish_reads
           end.
  all: try discriminate.
  all: try solve [repeat split; reflexivity].
  all: try solve [exfalso; eauto using get_prop_raises_alike].
  all: do 3 eexists; repeat split; reflexivity.
Qed.

(** The message of the TypeError of a read on [null] or [undefined] is not
    empty: the modal shows it. *)
Lemma nullish_read_error_shown (v : JSValue) (key : string) :
  exists message,
    nullish_read_error v key = ThrowError "TypeError" message
    /\ message <> ""%string
    /\ or_else (JStr message) (JStr "Unknown error while saving to GigaScape")
       = JStr message.
Proof. eexists. split; [reflexivity|]. split; [discriminate|reflexivity]. Qed.

(** X15.  The size declared at phase 1 and the bytes sent at phase 2 both
    come from the serializer's output.ply: fileSize is the byteLength of
    that array, and the body of the PUT is the whole buffer that the array
    views (data.buffer), typed application/octet-stream. *)
Theorem declared_size_and_uploaded_bytes
  (host : Host) (gsConfig : option JSValue) (scene : Scene) (h : list Event)
  (splats : list Splat) (settings : SerializeSettings) (memFs : MemoryFileSystem)
  (req1 : Request) (r1 : Outcome Response) (rest : list (Request * Outcome Response)) :
  In (EvSerialize splats settings (Returned memFs))
     (snd (save_handler host gsConfig scene h)) ->
  fetch_calls (snd (save_handler host gsConfig scene h)) = (req1, r1) :: rest ->
  exists data splatId,
    assoc "output.ply" (results memFs) = Some data
    /\ body req1
       = BodyText (JSON_stringify host
                     (JObj [("splatId", splatId);
                            ("fileSize", JNum (Number_of_N (byteLength data)))]))
    /\ forall req2 r2 rest',
         rest = (req2, r2) :: rest' ->
         body req2 = BodyBlob (buffer data) "application/octet-stream".
Proof.
  rewrite save_handler_fetch_calls. intros Hin Hcalls.
  apply save_handler_serializer_event in Hin.
  exact (save_try_uploads_the_output host gsConfig scene _ splats settings memFs
           req1 r1 rest Hin Hcalls).
Qed.

Lemma declared_size_and_uploaded_bytes_witness :
  exists data splatId,
    assoc "output.ply" [("output.ply", Scenario.ply)] = Some data
    /\ BodyText (JSON_stringify Scenario.host_A
                   (JObj [("splatId", JStr "s1");
                          ("fileSize", JNum (Number_of_N 4))]))
       = BodyText (JSON_stringify Scenario.host_A
                     (JObj [("splatId", splatId);
                            ("fileSize", JNum (Number_of_N (byteLength data)))]))
    /\ forall req2 r2 rest',
         [({| url := "https://storage.example/bucket/s1?signature=abc";
              method := "PUT";
              headers := [("Content-Type", "application/octet-stream")];
              body := BodyBlob (buffer Scenario.ply) "application/octet-stream" |},
           Returned {| status := 200; json := Scenario.no_json |});
          ({| url := "https://gigascape.example/api/supersplat/save-complete";
              method := "POST";
              headers := [("Authorization", "Bearer tok");
                          ("Content-Type", "application/json")];
              body := BodyText (JSON_stringify Scenario.host_A
                                  (JObj [("splatId", JStr "s1");
                                         ("storagePath", JStr "splats/s1/edited.ply")])) |},
           Returned {| status := 200; json := Returned (JObj []) |})]
         = (req2, r2) :: rest' ->
         body req2 = BodyBlob (buffer data) "application/octet-stream".
Proof.
  apply (declared_size_and_uploaded_bytes Scenario.host_A (Some Scenario.config)
           Scenario.one_splat []
           [{| splat_name := "scan"; visible := true; numSplats := 1000 |}]
           {| maxSHBands := 3 |}
           {| results := [("output.ply", Scenario.ply)] |}
           {| url := "https://gigascape.example/api/supersplat/upload-url";
              method := "POST";
              headers := [("Authorization", "Bearer tok");
                          ("Content-Type", "application/json")];
              body := BodyText (JSON_stringify Scenario.host_A
                                  (JObj [("splatId", JStr "s1");
                                         ("fileSize", JNum (Number_of_N 4))])) |}
           (Returned {| status := 200; json := Returned Scenario.ticket |})).
  - right. left. reflexivity.
  - reflexivity.
Defined.

(** X16.  A success status at phase 1 is taken at its word: the body is
    destructured as it is.  When the body is not JSON, or is null, no PUT
    is sent and an error modal is shown; when it is another value and its
    uploadUrl and storagePath are primitive, the PUT goes to the uploadUrl
    converted to a string, which is the text undefined when the body has
    no such field. *)
Theorem upload_ticket_is_not_validated
  (host : Host) (gsConfig : option JSValue) (scene : Scene) (h : list Event)
  (req1 : Request) (res1 : Response) (rest : list (Request * Outcome Response)) :
  fetch_calls (snd (save_handler host gsConfig scene h))
    = (req1, Returned res1) :: rest ->
  ok res1 = true ->
  (forall e, json res1 = Raised e ->
     rest = []
     /\ popups (snd (save_handler host gsConfig scene h))
        = match thrown_message e with
          | Returned message =>
              [error_popup
                 (or_else message (JStr "Unknown error while saving to GigaScape"))]
          | Raised _ => []
          end)
  /\ (forall ticket,
        json res1 = Returned ticket -> ticket = JNull \/ ticket = JUndefined ->
        rest = []
        /\ exists message,
             message <> ""%string
             /\ popups (snd (save_handler host gsConfig scene h))
                = [error_popup (JStr message)])
  /\ (forall ticket uploadUrl storagePath,
        json res1 = Returned ticket ->
        get_prop ticket "uploadUrl" = Returned uploadUrl ->
        get_prop ticket "storagePath" = Returned storagePath ->
        is_primitive uploadUrl = true -> is_primitive storagePath = true ->
        exists req2 r2 rest',
          rest = (req2, r2) :: rest'
          /\ method req2 = "PUT"
          /\ url req2 = str host uploadUrl)
  /\ (forall props,
        json res1 = Returned (JObj props) -> assoc "uploadUrl" props = None ->
        (forall v, assoc "storagePath" props = Some v -> is_primitive v = true) ->
        exists req2 r2 rest',
          rest = (req2, r2) :: rest'
          /\ method req2 = "PUT"
          /\ url req2 = "undefined"%string).
Proof.
  rewrite save_handler_fetch_calls. intros Hcalls Hok.
  destruct (save_try_ticket host gsConfig scene _ req1 res1 rest Hcalls Hok)
    as (Hraised & Hnull & Hput).
  split; [|split; [|split]].
  - intros e He. destruct (Hraised e He) as (Hrest & Hout & Hp).
    split; [exact Hrest|].
    exact (save_handler_popups_raised host gsConfig scene h e Hout Hp).
  - intros ticket Hticket Hnullish.
    destruct (Hnull ticket Hticket Hnullish) as (Hrest & Hout & Hp).
    split; [exact Hrest|].
    rewrite (save_handler_popups_raised host gsConfig scene h _ Hout Hp).
    destruct (nullish_read_error_shown ticket "uploadUrl")
      as (message & Herr & Hmessage & Hshown).
    exists message. split; [exact Hmessage|]. rewrite Herr. cbn [thrown_message].
    now rewrite Hshown.
  - intros ticket uploadUrl storagePath Hticket Hurl _ _ _.
    exact (Hput ticket uploadUrl Hticket Hurl).
  - intros props Hticket Hmissing _.
    destruct (Hput (JObj props) JUndefined Hticket) as (req2 & r2 & rest' & H1 & H2 & H3).
    + cbn [get_prop]. now rewrite Hmissing.
    + exists req2, r2, rest'. auto.
Qed.

Lemma upload_ticket_is_not_validated_witness :
  exists req2 r2 rest',
    [({| url := "undefined";
         method := "PUT";
         headers := [("Content-Type", "application/octet-stream")];
         body := BodyBlob (buffer Scenario.ply) "application/octet-stream" |},
      Returned {| status := 200; json := Scenario.no_json |});
     ({| url := "https://gigascape.example/api/supersplat/save-complete";
         method := "POST";
         headers := [("Authorization", "Bearer tok");
                     ("Content-Type", "application/json")];
         body := BodyText (Json.stringify Engine.Number_toString
                             (JObj [("splatId", JStr "s1");
                                    ("storagePath", JUndefined)])) |},
      Returned {| status := 200; json := Returned (JObj []) |})]
    = (req2, r2) :: rest'
    /\ method req2 = "PUT"
    /\ url req2 = "undefined"%string.
Proof.
  destruct (upload_ticket_is_not_validated
              (Scenario.browser Scenario.serializer_ok
                 (Scenario.network (Scenario.respond 200 (Returned (JObj [])))
                    (Scenario.respond 200 Scenario.no_json)
                    (Scenario.respond 200 (Returned (JObj []))))
                 Scenario.modal_ok)
              (Some Scenario.config) Scenario.one_splat []
              {| url := "https://gigascape.example/api/supersplat/upload-url";
                 method := "POST";
                 headers := [("Authorization", "Bearer tok");
                             ("Content-Type", "application/json")];
                 body := BodyText (Json.stringify Engine.Number_toString
                                     (JObj [("splatId", JStr "s1");
                                            ("fileSize", JNum (Number_of_N 4))])) |}
              {| status := 200; json := Returned (JObj []) |}
              [({| url := "undefined";
                   method := "PUT";
                   headers := [("Content-Type", "application/octet-stream")];
                   body := BodyBlob (buffer Scenario.ply) "application/octet-stream" |},
                Returned {| status := 200; json := Scenario.no_json |});
               ({| url := "https://gigascape.example/api/supersplat/save-complete";
                   method := "POST";
                   headers := [("Authorization", "Bearer tok");
                               ("Content-Type", "application/json")];
                   body := BodyText (Json.stringify Engine.Number_toString
                                       (JObj [("splatId", JStr "s1");
                                              ("storagePath", JUndefined)])) |},
                Returned {| status := 200; json := Returned (JObj []) |})]
              eq_refl eq_refl)
    as (_ & _ & _ & Hmissing).
  apply (Hmissing []).
  - reflexivity.
  - reflexivity.
  - discriminate.
Defined.

(** ** The successful attempt *)

(** A [try] block whose success modal was displayed went through every
    step, in order. *)
Lemma save_try_displayed_success host gsConfig scene h :
  In success_popup (popups_returned (snd (save_try host gsConfig scene h))) ->
  exists splats memFs data req1 res1 ticket storagePath req2 res2 req3 res3 shown,
    snd (save_try host gsConfig scene h)
    = [EvSerialize splats {| maxSHBands := 3 |} (Returned memFs);
       EvConsole Log [LStr ("[GigaScape] Serialized PLY: "
                              ++ toFixed1_MiB (byteLength data) ++ " MB")%string];
       EvFetch req1 (Returned res1);
       EvConsole Log [LStr ("[GigaScape] Got upload URL, path: "
                              ++ str host storagePath)%string];
       EvFetch req2 (Returned res2);
       EvConsole Log [LStr "[GigaScape] Upload complete"];
       EvFetch req3 (Returned res3);
       EvConsole Log [LStr "[GigaScape] Save complete"];
       EvInvoke "showPopup" success_popup (Returned shown)]
    /\ fst (save_try host gsConfig scene h) = Returned tt
    /\ assoc "output.ply" (results memFs) = Some data
    /\ ok res1 = true /\ ok res2 = true /\ ok res3 = true
    /\ json res1 = Returned ticket
    /\ get_prop ticket "storagePath" = Returned storagePath.
Proof.
  run.
  all: cbn [popups_returned flat_map app In].
  all: intros Hin.
  all: try contradiction.
  all: clear Hin.
  all: do 12 eexists; split; [reflexivity|]; split; [reflexivity|].
  all: repeat split; eassumption.
Qed.

(** X17.  A run in which the success modal was displayed went through
    every step in order, each after the answer to the one before: the
    serializer, the size log, the upload-URL request, the path log, the
    PUT, the Upload complete log, the confirmation, the Save complete log
    and the modal, between startSpinner and stopSpinner; every request was
    answered 2xx and the handler returned normally. *)
Theorem displayed_success_trace
  (host : Host) (gsConfig : option JSValue) (scene : Scene) (h : list Event) :
  In success_popup (popups_returned (snd (save_handler host gsConfig scene h))) ->
  exists splats memFs data req1 res1 ticket storagePath req2 res2 req3 res3 shown,
    snd (save_handler host gsConfig scene h)
    = [EvFire "startSpinner";
       EvSerialize splats {| maxSHBands := 3 |} (Returned memFs);
       EvConsole Log [LStr ("[GigaScape] Serialized PLY: "
                              ++ toFixed1_MiB (byteLength data) ++ " MB")%string];
       EvFetch req1 (Returned res1);
       EvConsole Log [LStr ("[GigaScape] Got upload URL, path: "
                              ++ str host storagePath)%string];
       EvFetch req2 (Returned res2);
       EvConsole Log [LStr "[GigaScape] Upload complete"];
       EvFetch req3 (Returned res3);
       EvConsole Log [LStr "[GigaScape] Save complete"];
       EvInvoke "showPopup" success_popup (Returned shown);
       EvFire "stopSpinner"]
    /\ fst (save_handler host gsConfig scene h) = Returned tt
    /\ assoc "output.ply" (results memFs) = Some data
    /\ ok res1 = true /\ ok res2 = true /\ ok res3 = true
    /\ json res1 = Returned ticket
    /\ get_prop ticket "storagePath" = Returned storagePath.
Proof.
  rewrite save_handler_popups_returned, save_handler_outcome, save_handler_events.
  intros Hin. apply in_app_or in Hin as [Hin|Hin].
  - destruct (save_try_displayed_success host gsConfig scene _ Hin)
      as (splats & memFs & data & req1 & res1 & ticket & storagePath & req2 & res2
          & req3 & res3 & shown & Hevents & Hout & Hrest).
    rewrite Hevents, Hout. cbn [app].
    exists splats, memFs, data, req1, res1, ticket, storagePath, req2, res2, req3,
      res3, shown.
    split; [reflexivity|]. split; [reflexivity|]. exact Hrest.
  - destruct (fst (save_try _ _ _ _)) as [u|e]; [destruct Hin|].
    apply save_catch_shows_errors in Hin. discriminate.
Qed.

Lemma displayed_success_trace_witness :
  exists splats memFs data req1 res1 ticket storagePath req2 res2 req3 res3 shown,
    snd (save_handler Scenario.host_A (Some Scenario.config) Scenario.one_splat [])
    = [EvFire "startSpinner";
       EvSerialize splats {| maxSHBands := 3 |} (Returned memFs);
       EvConsole Log [LStr ("[GigaScape] Serialized PLY: "
                              ++ toFixed1_MiB (byteLength data) ++ " MB")%string];
       EvFetch req1 (Returned res1);
       EvConsole Log [LStr ("[GigaScape] Got upload URL, path: "
                              ++ str Scenario.host_A storagePath)%string];
       EvFetch req2 (Returned res2);
       EvConsole Log [LStr "[GigaScape] Upload complete"];
       EvFetch req3 (Returned res3);
       EvConsole Log [LStr "[GigaScape] Save complete"];
       EvInvoke "showPopup" success_popup (Returned shown);
       EvFire "stopSpinner"]
    /\ fst (save_handler Scenario.host_A (Some Scenario.config) Scenario.one_splat [])
       = Returned tt
    /\ assoc "output.ply" (results memFs) = Some data
    /\ ok res1 = true /\ ok res2 = true /\ ok res3 = true
    /\ json res1 = Returned ticket
    /\ get_prop ticket "storagePath" = Returned storagePath.
Proof.
  apply (displayed_success_trace Scenario.host_A (Some Scenario.config)
           Scenario.one_splat []).
  left. reflexivity.
Defined.

(** ** The menu entry and the handler *)

(** X18.  The menu entry can exist without a handler.  When the query has
    a gsConfig parameter whose value is empty or cannot be used,
    [isGigaScapeMode] answers true, yet initialisation keeps no config
    and registers no function. *)
Theorem menu_entry_without_handler
  (host : Host) (search encoded : string) (h : list Event) :
  URL.get (URL.URLSearchParams_new search) "gsConfig" = Some encoded ->
  encoded = ""%string \/ Unusable host encoded ->
  isGigaScapeMode search = true
  /\ fst (initGigaScapeIntegration host search h)
     = Returned {| module_gsConfig := None; functions := [] |}.
Proof.
  intros Hget Hbad. split.
  - destruct (isGigaScapeMode search) eqn:Hkey; [reflexivity|].
    apply get_none_has in Hkey. congruence.
  - unfold initGigaScapeIntegration, bind.
    destruct (parseGsConfig_outcomes host search h)
      as [Hrun | [[args Hrun] | (config & encoded' & json & Hrun & Hget' & Hne & Hj
                                 & Hc & Hvalid)]].
    + now rewrite Hrun.
    + now rewrite Hrun.
    + exfalso. rewrite Hget in Hget'. injection Hget' as <-.
      destruct Hbad as [Hempty | [e He | json' e Hj' He | json' config' key Hj' Hc' Hkey Hfield]].
      * contradiction.
      * congruence.
      * rewrite Hj in Hj'. injection Hj' as <-. congruence.
      * rewrite Hj in Hj'. injection Hj' as <-.
        rewrite Hc in Hc'. injection Hc' as <-.
        destruct Hvalid as (s & a & t & Hs & Ts & Ha & Ta & Ht & Tt).
        unfold field_unusable in Hfield. simpl in Hkey.
        destruct Hkey as [<-|[<-|[<-|[]]]].
        -- specialize (Hfield _ Hs). congruence.
        -- specialize (Hfield _ Ha). congruence.
        -- specialize (Hfield _ Ht). congruence.
Qed.

Lemma menu_entry_without_handler_witness :
  isGigaScapeMode "?gsConfig=" = true
  /\ fst (initGigaScapeIntegration Scenario.host_A "?gsConfig=" [])
     = Returned {| module_gsConfig := None; functions := [] |}.
Proof.
  apply (menu_entry_without_handler Scenario.host_A "?gsConfig=" ""%string []).
  - reflexivity.
  - left. reflexivity.
Defined.

(** ** Error bodies of another shape *)

(** An API phase answered with a non-success response whose body is JSON:
    run it to its [throw]. *)
Ltac phase_refused :=
  unfold gsConfig_prop, call_fetch, bind, lift, json_or_http_error, throw, ret;
  cbn [fst snd app];
  repeat match goal with
         | |- context [match get_prop ?v ?k with _ => _ end] =>
             destruct (get_prop v k); cbn [fst snd app]; [|discriminate]
         end;
  match goal with
  | |- context [fetch ?host ?h ?r] =>
      destruct (fetch host h r); cbn [fst snd app]; [|intros [= _ [=]]]
  end;
  match goal with
  | |- context [negb (ok ?r)] =>
      destruct (ok r) eqn:?; cbn [negb fst snd app];
      [ intros Hev; inversion Hev; subst; congruence |]
  end;
  match goal with
  | |- context [match json ?r with _ => _ end] => destruct (json r) eqn:?
  end;
  rewrite ?get_prop_own;
  repeat match goal with
         | |- context [match get_prop ?v ?k with _ => _ end] =>
             destruct (get_prop v k) eqn:?
         end;
  cbn [fst snd app]; intros Hev; inversion Hev; subst; clear Hev;
  repeat split; intros; same_read;
  try match goal with
      | H : ?v = JNull \/ ?v = JUndefined |- _ => destruct H as [-> | ->]; nullish_reads
      end;
  try discriminate;
  first [ reflexivity
        | unfold or_else;
          match goal with H : truthy _ = true |- _ => rewrite H end; reflexivity ].

(** X19.  The error body of a refused API request is used as it is.  On a
    non-success response to phase 1 or phase 3 whose JSON body has a
    truthy error that is not a string (a number, true), the message raised
    is that value converted to a string; when the body is the JSON null,
    reading its error raises a TypeError, which is what the phase
    raises. *)
Theorem error_body_is_used_as_it_is
  (host : Host) (gsConfig : option JSValue) (res : Response) :
  ok res = false ->
  (forall fileSize h req,
     snd (getUploadUrl host gsConfig fileSize h) = [EvFetch req (Returned res)] ->
     (forall v e, json res = Returned v -> get_prop v "error" = Returned e ->
                  truthy e = true -> is_primitive e = true ->
                  fst (getUploadUrl host gsConfig fileSize h)
                  = Raised (new_Error (str host e)))
     /\ (forall v, json res = Returned v -> v = JNull \/ v = JUndefined ->
                   fst (getUploadUrl host gsConfig fileSize h)
                   = Raised (nullish_read_error v "error")))
  /\ (forall storagePath h req,
        snd (notifySaveComplete host gsConfig storagePath h)
          = [EvFetch req (Returned res)] ->
        (forall v e, json res = Returned v -> get_prop v "error" = Returned e ->
                     truthy e = true -> is_primitive e = true ->
                     fst (notifySaveComplete host gsConfig storagePath h)
                     = Raised (new_Error (str host e)))
        /\ (forall v, json res = Returned v -> v = JNull \/ v = JUndefined ->
                      fst (notifySaveComplete host gsConfig storagePath h)
                      = Raised (nullish_read_error v "error"))).
Proof.
  intros Hko. split.
  - intros fileSize h req. unfold getUploadUrl. phase_refused.
  - intros storagePath h req. unfold notifySaveComplete. phase_refused.
Qed.

(** A body that is the JSON null, on a 500. *)
Lemma error_body_is_used_as_it_is_witness :
  fst (getUploadUrl
         (Scenario.browser Scenario.serializer_ok
            (Scenario.network (Scenario.respond 500 (Returned JNull))
               (Scenario.respond 200 Scenario.no_json)
               (Scenario.respond 200 Scenario.no_json))
            Scenario.modal_ok)
         (Some Scenario.config) 4 [])
  = Raised (nullish_read_error JNull "error").
Proof.
  destruct (error_body_is_used_as_it_is
              (Scenario.browser Scenario.serializer_ok
                 (Scenario.network (Scenario.respond 500 (Returned JNull))
                    (Scenario.respond 200 Scenario.no_json)
                    (Scenario.respond 200 Scenario.no_json))
                 Scenario.modal_ok)
              (Some Scenario.config)
              {| status := 500; json := Returned JNull |}
              eq_refl) as [Hphase1 _].
  destruct (Hphase1 4%N [] _ eq_refl) as (_ & Hnull).
  apply (Hnull JNull).
  - reflexivity.
  - now left.
Defined.
